(** * smartCook: the recipe assistant service

    A shallow embedding of [backend/app/services/assistant_service.py]:
    the inventory filter, the JSON extractor and its repair stage, the
    recipe normalizer and the retry loop of [suggest_recipes_from_groq],
    with the properties of the specification stated and settled on it.

    Conventions.
    - A Python [str] is a [string]; the characters the code treats
      specially (white space, braces, quotes, slashes, letters folded by
      [lower]) are ASCII, and bytes above 127 are carried along untouched.
    - A Python [dict] is an association list with unique keys in insertion
      order ([dict_set] keeps the position of a key that is already there),
      because the code iterates over [items()].
    - A Python [set] of names is a [gset string], the table [RESTRICTED] a
      [gmap] from tag to set.
    - Python floats are kept abstract behind the class [PyFloat]: the code
      only parses, prints and tests them.
    - The completion service and the three collaborators of other modules
      (rating summary, spices, unit normalization) are parameters.  What
      the function does to the outside is kept in a log: its calls of the
      completion service and its sleeps, the latter without their random
      duration.  Printing is left out. *)

From Stdlib Require Import ZArith Ascii String List Lia Bool.
From stdpp Require Import base option list gmap sets strings pretty.

Set Default Proof Using "Type".
Set Warnings "-register-all,-clear-no-such-hyp".

(** ** Builtins on characters and strings *)

Module Py.

(** The quotes, the backslash and the line feed, by their codes. *)
Definition dquote : ascii := ascii_of_nat 34.
Definition squote : ascii := ascii_of_nat 39.
Definition backslash : ascii := ascii_of_nat 92.
Definition newline : ascii := ascii_of_nat 10.

(** [q s] is [s] with every single quote turned into a double quote: the
    way JSON texts and prompts are written down in this file. *)
Fixpoint q (s : string) : string :=
  match s with
  | EmptyString => EmptyString
  | String c s' => String (if Ascii.eqb c squote then dquote else c) (q s')
  end.

(** [str.isspace] on ASCII: tab, line feed, vertical tab, form feed,
    carriage return, the four separators 28..31 and the blank. *)
Definition isspace (c : ascii) : bool :=
  let n := nat_of_ascii c in
  ((9 <=? n) && (n <=? 13)) || ((28 <=? n) && (n <=? 32)).

Definition lower_char (c : ascii) : ascii :=
  let n := nat_of_ascii c in
  if (65 <=? n) && (n <=? 90) then ascii_of_nat (n + 32) else c.

(** [s.lower()] *)
Fixpoint lower (s : string) : string :=
  match s with
  | EmptyString => EmptyString
  | String c s' => String (lower_char c) (lower s')
  end.

(** [s.lstrip()], [s.rstrip()], [s.strip()] *)
Fixpoint lstrip (s : string) : string :=
  match s with
  | EmptyString => EmptyString
  | String c s' => if isspace c then lstrip s' else s
  end.

Fixpoint rstrip (s : string) : string :=
  match s with
  | EmptyString => EmptyString
  | String c s' =>
      match rstrip s' with
      | EmptyString => if isspace c then EmptyString else String c EmptyString
      | r => String c r
      end
  end.

Definition strip (s : string) : string := lstrip (rstrip s).

(** [s.startswith(p)], returning the rest of [s] after [p]. *)
Fixpoint strip_prefix (p s : string) : option string :=
  match p, s with
  | EmptyString, _ => Some s
  | String a p', String b s' => if Ascii.eqb a b then strip_prefix p' s' else None
  | String _ _, EmptyString => None
  end.

Definition startswith (p s : string) : bool :=
  match strip_prefix p s with Some _ => true | None => false end.

(** [p in s] for strings: [p] occurs in [s]. *)
Fixpoint contains (p s : string) : bool :=
  startswith p s ||
  match s with
  | EmptyString => false
  | String _ s' => contains p s'
  end.

(** [s.replace(old, new)] for a non-empty [old]: occurrences are replaced
    from the left and do not overlap.  The scan skips [skip] characters that
    belong to an occurrence already replaced. *)
Fixpoint replace_go (old new : string) (skip : nat) (s : string) : string :=
  match s with
  | EmptyString => EmptyString
  | String c s' =>
      match skip with
      | S k => replace_go old new k s'
      | O =>
          if startswith old s
          then new +:+ replace_go old new (String.length old - 1) s'
          else String c (replace_go old new 0 s')
      end
  end.

Definition replace (old new s : string) : string := replace_go old new 0 s.

(** [s.split()]: the maximal runs of characters that are not white space. *)
Fixpoint split_go (cur : option string) (s : string) : list string :=
  match s with
  | EmptyString => option_list (String.rev <$> cur)
  | String c s' =>
      if isspace c
      then option_list (String.rev <$> cur) ++ split_go None s'
      else split_go (Some (String c (default EmptyString cur))) s'
  end.

Definition split (s : string) : list string := split_go None s.

(** [sep.join(l)] *)
Fixpoint join (sep : string) (l : list string) : string :=
  match l with
  | [] => EmptyString
  | [x] => x
  | x :: l' => x +:+ sep +:+ join sep l'
  end.

End Py.

(** ** Predicates on texts *)

(** [c] does not occur in [s]. *)
Fixpoint free_of (c : ascii) (s : string) : bool :=
  match s with
  | EmptyString => true
  | String a s' => negb (Ascii.eqb a c) && free_of c s'
  end.

(** [s] is white space only. *)
Fixpoint all_space (s : string) : bool :=
  match s with
  | EmptyString => true
  | String a s' => Py.isspace a && all_space s'
  end.

Definition first_char (s : string) : option ascii :=
  match s with
  | EmptyString => None
  | String a _ => Some a
  end.

Fixpoint last_char (s : string) : option ascii :=
  match s with
  | EmptyString => None
  | String a EmptyString => Some a
  | String _ s' => last_char s'
  end.

(** How often [c] occurs in [s]. *)
Fixpoint count_char (c : ascii) (s : string) : nat :=
  match s with
  | EmptyString => 0
  | String a s' => (if Ascii.eqb a c then 1 else 0) + count_char c s'
  end.

(** ** Python values *)

(** What the code needs of Python's floats: [float(s)] ([None] when it
    raises [ValueError]), [repr], and truth ([f != 0.0]). *)
Class PyFloat := {
  pyfloat : Type;
  float_of_str : string → option pyfloat;
  float_repr : pyfloat → string;
  float_bool : pyfloat → bool;
}.

(** [d.get(k)], [d[k] = v] and [k in d] on an association list. *)
Fixpoint dict_get {A} (d : list (string * A)) (k : string) : option A :=
  match d with
  | [] => None
  | (k', v) :: d' => if String.eqb k k' then Some v else dict_get d' k
  end.

Fixpoint dict_set {A} (d : list (string * A)) (k : string) (v : A) : list (string * A) :=
  match d with
  | [] => [(k, v)]
  | (k', v') :: d' =>
      if String.eqb k k' then (k', v) :: d' else (k', v') :: dict_set d' k v
  end.

Definition dict_has {A} (d : list (string * A)) (k : string) : bool :=
  match dict_get d k with Some _ => true | None => false end.

(** [dict(pairs)]: later pairs overwrite earlier ones. *)
Definition dict_of_pairs {A} (pairs : list (string * A)) : list (string * A) :=
  foldl (λ d kv, dict_set d kv.1 kv.2) [] pairs.

(** The result of a scanner: a value and the text after it, a syntax
    error, or not enough fuel. *)
Inductive parsed (A : Type) :=
  | Parsed (a : A) (rest : string)
  | Invalid
  | OutOfFuel.
Arguments Parsed {A}.
Arguments Invalid {A}.
Arguments OutOfFuel {A}.

Section Values.
Context `{PyFloat}.

Inductive value :=
  | VNone
  | VBool (b : bool)
  | VInt (n : Z)
  | VFloat (f : pyfloat)
  | VStr (s : string)
  | VList (l : list value)
  | VDict (d : list (string * value)).

Definition is_str (v : value) : bool := match v with VStr _ => true | _ => false end.
Definition is_list (v : value) : bool := match v with VList _ => true | _ => false end.
Definition is_dict (v : value) : bool := match v with VDict _ => true | _ => false end.

(** [bool(v)] *)
Definition truthy (v : value) : bool :=
  match v with
  | VNone => false
  | VBool b => b
  | VInt n => negb (n =? 0)%Z
  | VFloat f => float_bool f
  | VStr s => negb (String.eqb s "")
  | VList l => match l with [] => false | _ => true end
  | VDict d => match d with [] => false | _ => true end
  end.

(** [a or b] *)
Definition py_or (a b : value) : value := if truthy a then a else b.

(** [r.get(k)] and [r.get(k, dflt)] *)
Definition get (r : list (string * value)) (k : string) : value :=
  default VNone (dict_get r k).
Definition get_or (r : list (string * value)) (k : string) (dflt : value) : value :=
  default dflt (dict_get r k).

(** [repr] of a string: single quotes unless the string holds a single
    quote and no double quote; backslash, the quote and control characters
    escaped. *)
Definition hex_digit (n : nat) : ascii :=
  ascii_of_nat (if n <? 10 then 48 + n else 87 + n).

Fixpoint repr_str_go (quote : ascii) (s : string) : string :=
  match s with
  | EmptyString => EmptyString
  | String c s' =>
      let n := nat_of_ascii c in
      let rest := repr_str_go quote s' in
      if Ascii.eqb c quote || Ascii.eqb c Py.backslash then String Py.backslash (String c rest)
      else if n =? 9 then "\t" +:+ rest
      else if n =? 10 then "\n" +:+ rest
      else if n =? 13 then "\r" +:+ rest
      else if (n <? 32) || (n =? 127)
      then "\x" +:+ String (hex_digit (n / 16)) (String (hex_digit (n mod 16)) rest)
      else String c rest
  end.

Definition repr_str (s : string) : string :=
  let quote :=
    if Py.contains (String Py.squote "") s && negb (Py.contains (String Py.dquote "") s)
    then Py.dquote else Py.squote in
  String quote (repr_str_go quote s +:+ String quote "").

(** [repr(v)] *)
Fixpoint repr (v : value) : string :=
  match v with
  | VNone => "None"
  | VBool true => "True"
  | VBool false => "False"
  | VInt n => pretty n
  | VFloat f => float_repr f
  | VStr s => repr_str s
  | VList l => "[" +:+ Py.join ", " (List.map repr l) +:+ "]"
  | VDict d =>
      "{" +:+ Py.join ", " (List.map (λ kv, repr_str (fst kv) +:+ ": " +:+ repr (snd kv)) d) +:+ "}"
  end.

(** [str(v)] *)
Definition str (v : value) : string :=
  match v with VStr s => s | _ => repr v end.

(** ** Ingredients and diets *)

(** [RESTRICTED]: diet tag to banned ingredient names. *)
Definition RESTRICTED : gmap string (gset string) :=
  list_to_map [
    ("vegetarian",
      list_to_set ["beef"; "pork"; "chicken"; "turkey"; "fish"; "shrimp"; "lamb"; "bacon"]);
    ("vegan",
      list_to_set ["beef"; "pork"; "chicken"; "turkey"; "fish"; "shrimp"; "lamb";
                   "milk"; "cheese"; "butter"; "yogurt"; "cream"; "egg"; "honey"]);
    ("gluten free",
      list_to_set ["wheat"; "barley"; "rye"; "bread"; "pasta"; "flour";
                   "spaghetti"; "noodles"; "bulgur"; "couscous"; "semolina"])
  ].

Definition MAX_ATTEMPTS : nat := 4.
(** [RETRY_DELAY = (0.6, 1.4)], in tenths of a second. *)
Definition RETRY_DELAY : Z * Z := (6, 14)%Z.

(** An inventory item, [Union[str, Dict[str, Any]]]. *)
Inductive item :=
  | Plain (name : string)
  | Structured (fields : list (string * value)).

(** The banned names of [_filter_inventory]: [banned |= RESTRICTED.get(d.lower(), set())]
    over the tags. *)
Definition banned_names (dietary : list string) : gset string :=
  foldl (λ banned d, banned ∪ default ∅ (RESTRICTED !! Py.lower d)) ∅ dietary.

(** The inner [_get_name] of [_filter_inventory]:
    [item if isinstance(item, str) else str(item.get("name", "")).lower()]. *)
Definition _get_name (it : item) : string :=
  match it with
  | Plain s => s
  | Structured d => Py.lower (str (get_or d "name" (VStr "")))
  end.

Definition _filter_inventory (inv : list item) (dietary : list string) : list item :=
  let banned := banned_names dietary in
  filter (λ it, _get_name it ∉ banned) inv.

Definition _build_restriction_note (dietary : list string) : string :=
  let dset : gset string := list_to_set (Py.lower <$> dietary) in
  let has (tag : string) : bool := bool_decide (tag ∈ dset) in
  let notes : list string :=
    (if has "vegan"
     then ["IMPORTANT: 100 % plant-based – no meat, fish, dairy or eggs. Use tofu/legumes instead."]
     else if has "vegetarian"
     then ["IMPORTANT: No meat or fish. Use plant-based substitutes."]
     else []) ++
    (if has "gluten free"
     then ["IMPORTANT: Must be 100 % gluten-free – no wheat, barley, rye or derivatives."]
     else []) ++
    (if has "kosher"
     then ["IMPORTANT: Keep recipe kosher – no pork/shellfish; do not mix meat with dairy."]
     else []) ++
    (if has "halal"
     then ["IMPORTANT: Keep recipe halal – no pork or alcohol."]
     else []) ++
    (if has "keto"
     then ["IMPORTANT: Keep net carbs very low (< 20 g per serving); moderate protein, high fat."]
     else []) ++
    (if has "paleo"
     then ["IMPORTANT: Paleo – no grains, legumes or processed sugar; focus on meat, fish, vegetables, fruit, nuts."]
     else []) in
  Py.join " " notes.

Definition _ing_to_str (it : item) : string :=
  match it with
  | Plain s => s
  | Structured d =>
      let name := get_or d "name" (VStr "") in
      let quantity := get d "quantity" in
      let unit := get d "unit" in
      if truthy quantity && truthy unit
      then Py.strip (str quantity +:+ " " +:+ str unit +:+ " " +:+ str name)
      else str name
  end.

Definition _is_number (s : string) : bool :=
  match float_of_str s with Some _ => true | None => false end.

(** One entry of the [dict] branch of [_normalize_ingredients_structure].
    [_is_number(parts[0])] and [float(parts[0])] are one call of [float]:
    the first says whether the second gives a float. *)
Definition ingredient_entry (name : string) (raw_qty : value) : value :=
  let entry := [("name", VStr name)] in
  match raw_qty with
  | VBool _ | VInt _ | VFloat _ => VDict (dict_set entry "quantity" raw_qty)
  | VStr s =>
      match Py.split s with
      | p0 :: p1 :: _ =>
          match float_of_str p0 with
          | Some f => VDict (dict_set (dict_set entry "quantity" (VFloat f)) "unit" (VStr p1))
          | None => VDict (dict_set entry "quantity" raw_qty)
          end
      | _ => VDict (dict_set entry "quantity" raw_qty)
      end
  | _ => VDict (dict_set entry "quantity" raw_qty)
  end.

Definition _normalize_ingredients_structure (ingredients : value) : list value :=
  match ingredients with
  | VList l => l
  | VDict d => List.map (λ kv, ingredient_entry (fst kv) (snd kv)) d
  | _ => []
  end.

(** ** JSON helpers *)

(** [re.sub(r"//.*", "", text)]: from each [//] to the end of its line. *)
Fixpoint strip_line_comments (in_comment : bool) (s : string) : string :=
  match s with
  | EmptyString => EmptyString
  | String c s' =>
      if in_comment
      then if Ascii.eqb c Py.newline
           then String c (strip_line_comments false s')
           else strip_line_comments true s'
      else if Py.startswith "//" s
           then strip_line_comments true s'
           else String c (strip_line_comments false s')
  end.

(** [re.sub(r"/\*.*?\*/", "", text, flags=re.S)]: from each [/*] to the
    first [*/] after it; a [/*] that is never closed stays. *)
Inductive block_state := Code | Opening | Comment | Closing.

Fixpoint strip_block_comments (st : block_state) (s : string) : string :=
  match s with
  | EmptyString => EmptyString
  | String c s' =>
      match st with
      | Code =>
          match Py.strip_prefix "/*" s with
          | Some body =>
              if Py.contains "*/" body
              then strip_block_comments Opening s'
              else String c (strip_block_comments Code s')
          | None => String c (strip_block_comments Code s')
          end
      | Opening => strip_block_comments Comment s'
      | Comment =>
          if Py.startswith "*/" s
          then strip_block_comments Closing s'
          else strip_block_comments Comment s'
      | Closing => strip_block_comments Code s'
      end
  end.

Definition _remove_json_comments (text : string) : string :=
  let text := strip_line_comments false text in
  let text := strip_block_comments Code text in
  Py.strip text.

(** [text[text.find("{"):]], when there is a brace. *)
Fixpoint from_first_brace (s : string) : option string :=
  match s with
  | EmptyString => None
  | String c s' => if Ascii.eqb c "{" then Some s else from_first_brace s'
  end.

(** The loop of [_balanced_json_snippet]: the characters up to the brace
    that brings [depth] back to 0. *)
Fixpoint take_balanced (depth : Z) (s : string) : option string :=
  match s with
  | EmptyString => None
  | String c s' =>
      if Ascii.eqb c "{" then String c <$> take_balanced (depth + 1) s'
      else if Ascii.eqb c "}" then
        if (depth - 1 =? 0)%Z then Some (String c EmptyString)
        else String c <$> take_balanced (depth - 1) s'
      else String c <$> take_balanced depth s'
  end.

Definition _balanced_json_snippet (text : string) : option string :=
  match from_first_brace text with
  | None => None
  | Some rest => take_balanced 0 rest
  end.

(** *** [json.loads]

    A recursive-descent reading of Python's [json] scanner.  [fuel] bounds
    the nesting of calls; [json_loads] gives twice the length of the text
    and two more, which is enough ([json_loads_total] below); [OutOfFuel]
    is kept apart from [Invalid], so that a failure is seen not to be a
    lack of fuel. *)

(** White space of JSON: blank, tab, line feed, carriage return. *)
Definition json_ws (c : ascii) : bool :=
  let n := nat_of_ascii c in (n =? 32) || (n =? 9) || (n =? 10) || (n =? 13).

Fixpoint skip_ws (s : string) : string :=
  match s with
  | EmptyString => EmptyString
  | String c s' => if json_ws c then skip_ws s' else s
  end.

(** [s[1:]] when [s] starts with [c]. *)
Definition eat (c : ascii) (s : string) : option string :=
  match s with
  | String a rest => if Ascii.eqb a c then Some rest else None
  | EmptyString => None
  end.

Definition is_digit (c : ascii) : bool :=
  let n := nat_of_ascii c in (48 <=? n) && (n <=? 57).

Definition hex_value (c : ascii) : option N :=
  let n := nat_of_ascii c in
  if (48 <=? n) && (n <=? 57) then Some (N.of_nat (n - 48))
  else if (97 <=? n) && (n <=? 102) then Some (N.of_nat (n - 87))
  else if (65 <=? n) && (n <=? 70) then Some (N.of_nat (n - 55))
  else None.

Definition hex4 (a b c d : ascii) : option N :=
  x1 ← hex_value a; x2 ← hex_value b; x3 ← hex_value c; x4 ← hex_value d;
  Some (((x1 * 16 + x2) * 16 + x3) * 16 + x4)%N.

Definition byte (n : N) : ascii := ascii_of_N n.

(** The UTF-8 bytes of a code point, last byte first (they are pushed on a
    reversed buffer). *)
Definition utf8_rev (cp : N) (acc : string) : string :=
  (if cp <? 128 then String (byte cp) acc
   else if cp <? 2048 then
     String (byte (128 + cp mod 64)) (String (byte (192 + cp / 64)) acc)
   else if cp <? 65536 then
     String (byte (128 + cp mod 64))
       (String (byte (128 + (cp / 64) mod 64)) (String (byte (224 + cp / 4096)) acc))
   else
     String (byte (128 + cp mod 64))
       (String (byte (128 + (cp / 64) mod 64))
          (String (byte (128 + (cp / 4096) mod 64)) (String (byte (240 + cp / 262144)) acc))))%N.

Definition flush (hi : option N) (acc : string) : string :=
  match hi with Some h => utf8_rev h acc | None => acc end.

(** The body of a JSON string, after its opening quote.  [hi] is a high
    surrogate read from a [\u] escape that waits for its low half; [acc] is
    the text so far, reversed. *)
Fixpoint scan_string (hi : option N) (acc : string) (s : string) : parsed string :=
  match s with
  | EmptyString => Invalid
  | String c s' =>
      if Ascii.eqb c Py.dquote then Parsed (String.rev (flush hi acc)) s'
      else if Ascii.eqb c Py.backslash then
        match s' with
        | EmptyString => Invalid
        | String e s'' =>
            if Ascii.eqb e "u" then
              match s'' with
              | String a (String b (String c' (String d s3))) =>
                  match hex4 a b c' d with
                  | None => Invalid
                  | Some cp =>
                      match hi with
                      | Some h =>
                          if ((56320 <=? cp) && (cp <=? 57343))%N
                          then scan_string None
                                 (utf8_rev (65536 + (h - 55296) * 1024 + (cp - 56320))%N acc) s3
                          else if ((55296 <=? cp) && (cp <=? 56319))%N
                          then scan_string (Some cp) (utf8_rev h acc) s3
                          else scan_string None (utf8_rev cp (utf8_rev h acc)) s3
                      | None =>
                          if ((55296 <=? cp) && (cp <=? 56319))%N
                          then scan_string (Some cp) acc s3
                          else scan_string None (utf8_rev cp acc) s3
                      end
                  end
              | _ => Invalid
              end
            else
              let push (n : nat) := scan_string None (String (ascii_of_nat n) (flush hi acc)) s'' in
              if Ascii.eqb e Py.dquote then push 34
              else if Ascii.eqb e Py.backslash then push 92
              else if Ascii.eqb e "/" then push 47
              else if Ascii.eqb e "b" then push 8
              else if Ascii.eqb e "f" then push 12
              else if Ascii.eqb e "n" then push 10
              else if Ascii.eqb e "r" then push 13
              else if Ascii.eqb e "t" then push 9
              else Invalid
        end
      else if nat_of_ascii c <? 32 then Invalid
      else scan_string None (String c (flush hi acc)) s'
  end.

(** The longest run of digits at the head of [s], and what follows. *)
Fixpoint span_digits (s : string) : string * string :=
  match s with
  | EmptyString => (EmptyString, EmptyString)
  | String c s' =>
      if is_digit c
      then let '(ds, rest) := span_digits s' in (String c ds, rest)
      else (EmptyString, s)
  end.

Fixpoint digits_value (acc : Z) (ds : string) : Z :=
  match ds with
  | EmptyString => acc
  | String c ds' => digits_value (10 * acc + Z.of_nat (nat_of_ascii c - 48)) ds'
  end.

(** The number at the head of [s], by the scanner's pattern: an optional
    minus sign, then 0 or a run of digits that does not start with 0; then,
    if a digit follows it, a point and its digits; then, if digits follow,
    an [e] or [E] with an optional sign and its digits.  Each part gives the
    text it matched and the text after it. *)
Definition scan_minus (s : string) : string * string :=
  match eat "-" s with
  | Some r => ("-", r)
  | None => (EmptyString, s)
  end.

Definition scan_int (s : string) : option (string * string) :=
  match eat "0" s with
  | Some r => Some ("0", r)
  | None =>
      match span_digits s with
      | (EmptyString, _) => None
      | (ds, r) => Some (ds, r)
      end
  end.

Definition scan_frac (s : string) : string * string :=
  match eat "." s with
  | Some r =>
      match span_digits r with
      | (EmptyString, _) => (EmptyString, s)
      | (fs, r') => ("." +:+ fs, r')
      end
  | None => (EmptyString, s)
  end.

Definition scan_exp (s : string) : string * string :=
  match s with
  | String e r =>
      if Ascii.eqb e "e" || Ascii.eqb e "E" then
        let '(sign, r1) :=
          match eat "+" r, eat "-" r with
          | Some r1, _ => ("+", r1)
          | _, Some r1 => ("-", r1)
          | _, _ => (EmptyString, r)
          end in
        match span_digits r1 with
        | (EmptyString, _) => (EmptyString, s)
        | (es, r') => (String e (sign +:+ es), r')
        end
      else (EmptyString, s)
  | EmptyString => (EmptyString, s)
  end.

(** The result is an [int] without fraction and exponent, a [float] of the
    matched text otherwise. *)
Definition scan_number (s : string) : parsed value :=
  let '(sign, s1) := scan_minus s in
  match scan_int s1 with
  | None => Invalid
  | Some (ds, s2) =>
      let '(frac, s3) := scan_frac s2 in
      let '(exp, s4) := scan_exp s3 in
      match frac, exp with
      | EmptyString, EmptyString =>
          let n := digits_value 0 ds in
          Parsed (VInt (if String.eqb sign "-" then - n else n)) s4
      | _, _ =>
          match float_of_str (sign +:+ ds +:+ frac +:+ exp) with
          | Some f => Parsed (VFloat f) s4
          | None => Invalid
          end
      end
  end.

Definition scan_float_constant (name : string) (rest : string) : parsed value :=
  match float_of_str name with
  | Some f => Parsed (VFloat f) rest
  | None => Invalid
  end.

(** [scan_once], [JSONArray] and [JSONObject] of the scanner.
    [scan_elements] starts at an element, [scan_members] at the quote that
    opens a key. *)
Fixpoint scan_once (fuel : nat) (s : string) : parsed value :=
  match fuel with
  | O => OutOfFuel
  | S fuel =>
      match s with
      | EmptyString => Invalid
      | String c s' =>
          if Ascii.eqb c Py.dquote then
            match scan_string None EmptyString s' with
            | Parsed x rest => Parsed (VStr x) rest
            | Invalid => Invalid
            | OutOfFuel => OutOfFuel
            end
          else if Ascii.eqb c "{" then
            match eat "}" (skip_ws s') with
            | Some rest => Parsed (VDict []) rest
            | None =>
                match scan_members fuel [] (skip_ws s') with
                | Parsed pairs rest => Parsed (VDict (dict_of_pairs pairs)) rest
                | Invalid => Invalid
                | OutOfFuel => OutOfFuel
                end
            end
          else if Ascii.eqb c "[" then
            match eat "]" (skip_ws s') with
            | Some rest => Parsed (VList []) rest
            | None =>
                match scan_elements fuel [] (skip_ws s') with
                | Parsed l rest => Parsed (VList l) rest
                | Invalid => Invalid
                | OutOfFuel => OutOfFuel
                end
            end
          else
            match Py.strip_prefix "null" s, Py.strip_prefix "true" s, Py.strip_prefix "false" s with
            | Some rest, _, _ => Parsed VNone rest
            | _, Some rest, _ => Parsed (VBool true) rest
            | _, _, Some rest => Parsed (VBool false) rest
            | _, _, _ =>
                match scan_number s with
                | Parsed v rest => Parsed v rest
                | _ =>
                    match Py.strip_prefix "NaN" s, Py.strip_prefix "Infinity" s,
                          Py.strip_prefix "-Infinity" s with
                    | Some rest, _, _ => scan_float_constant "nan" rest
                    | _, Some rest, _ => scan_float_constant "inf" rest
                    | _, _, Some rest => scan_float_constant "-inf" rest
                    | _, _, _ => Invalid
                    end
                end
            end
      end
  end
with scan_elements (fuel : nat) (acc : list value) (s : string) : parsed (list value) :=
  match fuel with
  | O => OutOfFuel
  | S fuel =>
      match scan_once fuel s with
      | Parsed v rest =>
          match eat "]" (skip_ws rest), eat "," (skip_ws rest) with
          | Some rest', _ => Parsed (acc ++ [v]) rest'
          | _, Some rest' => scan_elements fuel (acc ++ [v]) (skip_ws rest')
          | _, _ => Invalid
          end
      | Invalid => Invalid
      | OutOfFuel => OutOfFuel
      end
  end
with scan_members (fuel : nat) (acc : list (string * value)) (s : string)
    : parsed (list (string * value)) :=
  match fuel with
  | O => OutOfFuel
  | S fuel =>
      match eat Py.dquote s with
      | None => Invalid
      | Some s' =>
          match scan_string None EmptyString s' with
          | Parsed key rest =>
              match eat ":" (skip_ws rest) with
              | None => Invalid
              | Some rest' =>
                  match scan_once fuel (skip_ws rest') with
                  | Parsed v rest'' =>
                      match eat "}" (skip_ws rest''), eat "," (skip_ws rest'') with
                      | Some rest3, _ => Parsed (acc ++ [(key, v)]) rest3
                      | _, Some rest3 =>
                          scan_members fuel (acc ++ [(key, v)]) (skip_ws rest3)
                      | _, _ => Invalid
                      end
                  | Invalid => Invalid
                  | OutOfFuel => OutOfFuel
                  end
              end
          | Invalid => Invalid
          | OutOfFuel => OutOfFuel
          end
      end
  end.

(** [json.loads(s)]: one value, white space around it, nothing else. *)
Definition json_loads (s : string) : parsed value :=
  match scan_once (2 * String.length s + 2) (skip_ws s) with
  | Parsed v rest =>
      match skip_ws rest with
      | EmptyString => Parsed v EmptyString
      | _ => Invalid
      end
  | Invalid => Invalid
  | OutOfFuel => OutOfFuel
  end.

(** A Python result that is [None] or a value: [None] is no value. *)
Definition not_none (v : value) : option value :=
  match v with VNone => None | _ => Some v end.

Definition _try_parse_json_candidate (candidate : string) : option value :=
  let candidate := Py.strip candidate in
  if String.eqb candidate "" then None
  else
    let cleaned := _remove_json_comments candidate in
    match json_loads cleaned with
    | Parsed v _ => not_none v
    | _ => None
    end.

(** The groups of [re.finditer(r"```json([\s\S]*?)```", text)], in order.
    [block] is the group being read (reversed) and [skip] counts the
    characters of a marker still to pass. *)
Fixpoint json_blocks (block : option string) (skip : nat) (s : string) : list string :=
  match s with
  | EmptyString => []
  | String c s' =>
      match skip with
      | S k => json_blocks block k s'
      | O =>
          match block with
          | None =>
              if Py.startswith "```json" s then json_blocks (Some EmptyString) 6 s'
              else json_blocks None 0 s'
          | Some acc =>
              if Py.startswith "```" s then String.rev acc :: json_blocks None 2 s'
              else json_blocks (Some (String c acc)) 0 s'
          end
      end
  end.

(** The first candidate that parses: the [for] loop with its [return]. *)
Fixpoint first_parsed (candidates : list string) : option value :=
  match candidates with
  | [] => None
  | candidate :: rest =>
      match _try_parse_json_candidate candidate with
      | Some v => Some v
      | None => first_parsed rest
      end
  end.

Definition _extract_json (text : string) : option value :=
  if String.eqb text "" then None
  else
    let raw := Py.strip (Py.replace "```" "" (Py.replace "```json" "" text)) in
    match _try_parse_json_candidate raw with
    | Some v => Some v
    | None =>
        let from_snippet :=
          match _balanced_json_snippet raw with
          | Some snippet => _try_parse_json_candidate snippet
          | None => None
          end in
        match from_snippet with
        | Some v => Some v
        | None => first_parsed (json_blocks None 0 text)
        end
    end.

End Values.

Arguments value {_}.
Arguments item {_}.

(** A float kept as the text it was read from: a stand-in to run the
    model on concrete inputs.  [float] accepts, between white space, a sign,
    digits with an optional point, and an optional exponent, besides [inf],
    [infinity] and [nan]. *)
Inductive float_state :=
  | FStart | FSign | FInt | FPoint | FFrac | FExp | FExpSign | FExpDigits | FBad.

Definition float_step (st : float_state) (c : ascii) : float_state :=
  let digit := is_digit c in
  let sign := Ascii.eqb c "+" || Ascii.eqb c "-" in
  let point := Ascii.eqb c "." in
  let e := Ascii.eqb c "e" in
  match st with
  | FStart => if sign then FSign else if digit then FInt else if point then FPoint else FBad
  | FSign => if digit then FInt else if point then FPoint else FBad
  | FInt => if digit then FInt else if point then FFrac else if e then FExp else FBad
  | FPoint => if digit then FFrac else FBad
  | FFrac => if digit then FFrac else if e then FExp else FBad
  | FExp => if sign then FExpSign else if digit then FExpDigits else FBad
  | FExpSign | FExpDigits => if digit then FExpDigits else FBad
  | FBad => FBad
  end.

Fixpoint float_run (st : float_state) (s : string) : float_state :=
  match s with
  | EmptyString => st
  | String c s' => float_run (float_step st c) s'
  end.

Definition decimal_text (s : string) : bool :=
  match float_run FStart s with
  | FInt | FFrac | FExpDigits => true
  | _ => false
  end.

Fixpoint has_nonzero_digit (s : string) : bool :=
  match s with
  | EmptyString => false
  | String c s' =>
      if Ascii.eqb c "e" then false
      else (is_digit c && negb (Ascii.eqb c "0")) || has_nonzero_digit s'
  end.

Definition text_float : PyFloat := {|
  pyfloat := string;
  float_of_str := λ s,
    let t := Py.lower (Py.strip s) in
    if decimal_text t || existsb (String.eqb t) ["inf"; "-inf"; "+inf"; "nan"; "-nan"; "+nan";
                                                 "infinity"; "-infinity"; "+infinity"]
    then Some t else None;
  float_repr := λ s, s;
  float_bool := λ s, negb (decimal_text s) || has_nonzero_digit s;
|}.

(** ** The completion service and the recipe pipeline *)

(** [client.chat.completions.create(model, messages, temperature, max_tokens)]
    with one system and one user message.  The temperature is kept in
    tenths: 7 for 0.7, 4 for 0.4, 0 for 0.0. *)
Record request := {
  model : string;
  system : string;
  user : string;
  temperature10 : Z;
  max_tokens : Z;
}.

(** What a call gives: [res.choices[0].message.content], or an exception
    with its text. *)
Inductive reply :=
  | Content (text : string)
  | ApiError (msg : string).

(** The completion service: its answer to a request, given the requests it
    has received before. *)
Definition client := list request → request → reply.

Inductive stage := Primary | Repair.

(** What [suggest_recipes_from_groq] does to the outside, in order: calls
    of the completion service (with the attempt they belong to) and sleeps
    between attempts, each for a random time within [RETRY_DELAY]. *)
Inductive event :=
  | Call (attempt : nat) (st : stage) (req : request) (rep : reply)
  | Sleep (attempt : nat).

Definition requests (log : list event) : list request :=
  omap (λ e, match e with Call _ _ req _ => Some req | Sleep _ => None end) log.

(** How a Python call ends. *)
Inductive outcome {F : PyFloat} :=
  | Returned (v : value)
  | Raised (exn : string).

Record preferences := {
  dietary : list string;
  allergies : list string;
}.

Section Service.
Context `{PyFloat}.

(** The collaborators outside this module. *)
Variable summarize_user_ratings_for_prompt : Z → string.
Variable get_spices_for_user : Z → list string.
Variable normalize_ingredient_units : list value → Z → list value.
(** The module's global [client]. *)
Variable complete : client.

Definition nl : string := String Py.newline EmptyString.

Definition fix_prompt (raw_text : string) : string :=
  "Your previous response was not valid JSON." +:+ nl +:+
  "Here is the content:" +:+ nl +:+
  "----------------" +:+ nl +:+
  raw_text +:+ nl +:+
  "----------------" +:+ nl +:+ nl +:+
  "Now respond with ONLY valid JSON. No explanations, no comments, no markdown.".

Definition repair_request (raw_text : string) : request := {|
  model := "llama-3.1-8b-instant";
  system := "You are a JSON fixer. You always output VALID JSON only.";
  user := fix_prompt raw_text;
  temperature10 := 0;
  max_tokens := 900;
|}.

(** [_repair_json_via_groq]: one more call; any exception is swallowed.
    Returns the result with the call it made. *)
Definition _repair_json_via_groq (history : list request) (raw_text : string)
    : option value * (request * reply) :=
  let req := repair_request raw_text in
  let rep := complete history req in
  match rep with
  | Content fixed_raw => (_extract_json fixed_raw, (req, rep))
  | ApiError _ => (None, (req, rep))
  end.

Definition system_content : string :=
  Py.q "You are a helpful cooking assistant.
You MUST reply with ONE VALID JSON object only.
Rules:
- Never output text before or after the JSON.
- Never wrap JSON with ```json or any markdown.
- Never use comments like // or /* */ inside JSON.
- Allowed units: grams, kg, ml, l, pieces.
- Use ONLY ingredients from the provided inventory.
- Schema example:
{
  'recipes': [
    {
      'title': 'string',
      'ingredients': [ {'name': 'string', 'quantity': 100, 'unit': 'grams'} ],
      'instructions': ['step 1', 'step 2']
    }
  ]
}
".

(** [k in v] and [v[k]] for a string [k]; [None] is a [TypeError]. *)
Definition py_in (k : string) (v : value) : option bool :=
  match v with
  | VDict d => Some (dict_has d k)
  | VStr s => Some (Py.contains k s)
  | VList l => Some (existsb (λ x, match x with VStr s => String.eqb k s | _ => false end) l)
  | _ => None
  end.

Definition py_item (v : value) (k : string) : option value :=
  match v with
  | VDict d => dict_get d k
  | _ => None
  end.

(** [if "recipe" in parsed and isinstance(parsed["recipe"], dict):
       parsed = {"recipes": [parsed["recipe"]]}] *)
Definition wrap_single_recipe (parsed : value) : option value :=
  match py_in "recipe" parsed with
  | None => None
  | Some false => Some parsed
  | Some true =>
      match py_item parsed "recipe" with
      | None => None
      | Some r => Some (if is_dict r then VDict [("recipes", VList [r])] else parsed)
      end
  end.

(** [if "recipes" not in parsed or not isinstance(parsed["recipes"], list):
       parsed = {"recipes": [parsed]}] *)
Definition wrap_without_recipes (parsed : value) : option value :=
  match py_in "recipes" parsed with
  | None => None
  | Some false => Some (VDict [("recipes", VList [parsed])])
  | Some true =>
      match py_item parsed "recipes" with
      | None => None
      | Some rs => Some (if is_list rs then parsed else VDict [("recipes", VList [parsed])])
      end
  end.

(** [parsed["recipes"]] after the two rewrites. *)
Definition recipes_of (parsed : value) : option (list value) :=
  match wrap_single_recipe parsed with
  | None => None
  | Some parsed =>
      match wrap_without_recipes parsed with
      | None => None
      | Some parsed =>
          match py_item parsed "recipes" with
          | Some (VList l) => Some l
          | _ => None
          end
      end
  end.

Definition title_of (r : list (string * value)) : value :=
  py_or (py_or (py_or (get r "title") (get r "name")) (get r "recipe_name"))
        (VStr "Untitled recipe").

Definition instructions_of (r : list (string * value)) : list value :=
  let instructions_raw := py_or (py_or (get r "instructions") (get r "steps")) (VList []) in
  match instructions_raw with
  | VStr _ => [instructions_raw]
  | VList l => List.map (λ step, VStr (str step)) l
  | _ => [VStr (str instructions_raw)]
  end.

(** The body of the loop over [parsed["recipes"]] for a [dict]. *)
Definition merged_recipe (r : list (string * value)) : list (string * value) :=
  let title := title_of r in
  let ingredients_raw := get_or r "ingredients" (VList []) in
  let ingredients_norm := _normalize_ingredients_structure ingredients_raw in
  let instructions := instructions_of r in
  let merged := r in
  let merged := dict_set merged "title" title in
  let merged := dict_set merged "ingredients" (VList ingredients_norm) in
  dict_set merged "instructions" (VList instructions).

Fixpoint normalize_recipes (recipes : list value) : list value :=
  match recipes with
  | [] => []
  | VDict r :: rest => VDict (merged_recipe r) :: normalize_recipes rest
  | _ :: rest => normalize_recipes rest
  end.

(** [normalized_input_recipes] as it stands after the loop; [None] is a
    [TypeError] raised by the rewrites. *)
Definition normalized_input_recipes (parsed : value) : option (list value) :=
  normalize_recipes <$> recipes_of parsed.

(** [l[:n]] *)
Definition slice_to {A} (l : list A) (n : Z) : list A :=
  if (0 <=? n)%Z then take (Z.to_nat n) l
  else take (length l - Z.to_nat (- n)) l.

Definition error_result (msg : string) : value :=
  VDict [("error", VStr msg); ("recipes", VList [])].

Section Attempts.
Variables (user_id : Z) (user_message : string) (prev_recipe : option (list (string * value)))
          (num_recipes : Z) (dietary : list string) (allergies : list string)
          (safe_inv : list item).

Definition pref_txt : string :=
  let parts :=
    [ (if dietary is [] then "" else "dietary restrictions: " +:+ Py.join ", " dietary);
      (if allergies is [] then "" else "allergies: " +:+ Py.join ", " allergies) ] in
  let joined := Py.join "; " (List.filter (λ x, negb (String.eqb x "")) parts) in
  if String.eqb joined "" then "no special preferences" else joined.

Definition ing_txt : string := Py.join ", " (_ing_to_str <$> safe_inv).

Definition spices_txt : string :=
  match get_spices_for_user user_id with
  | [] => "no specific spices available"
  | user_spices => Py.join ", " user_spices
  end.

Definition temperature : Z :=
  let m := Py.lower user_message in
  if Py.contains "surprise" m || Py.contains "different" m then 7 else 4.

Definition user_prompt : string :=
  (match prev_recipe with
   | Some ((_ :: _) as prev) =>
       "User previously received this recipe: " +:+ str (get_or prev "title" (VStr "Unnamed")) +:+ "." +:+ nl +:+
       "User now says: " +:+ user_message +:+ nl +:+
       "Available ingredients: " +:+ ing_txt +:+ nl +:+
       "User preferences: " +:+ pref_txt +:+ "." +:+ nl
   | _ =>
       "User message: " +:+ user_message +:+ nl +:+
       "Available ingredients: " +:+ ing_txt +:+ nl +:+
       "User preferences: " +:+ pref_txt +:+ "." +:+ nl
   end) +:+
  "Available spices: " +:+ spices_txt +:+ nl +:+
  _build_restriction_note dietary +:+ nl +:+
  summarize_user_ratings_for_prompt user_id +:+ nl +:+
  "Please return up to " +:+ pretty num_recipes +:+ " recipes in the JSON schema described.".

Definition primary_request : request := {|
  model := "llama-3.1-8b-instant";
  system := system_content;
  user := user_prompt;
  temperature10 := temperature;
  max_tokens := 1100;
|}.

(** The [for attempt in range(1, MAX_ATTEMPTS + 1)] loop over the attempts
    still [todo], with the statement after it.  [log] holds the events so
    far. *)
Fixpoint attempts (todo : list nat) (last_error : string) (log : list event)
    : outcome * list event :=
  match todo with
  | [] =>
      (Returned (error_result ("Groq failed after " +:+ pretty MAX_ATTEMPTS +:+
                               " attempts: " +:+ last_error)), log)
  | attempt :: todo =>
      let retry (last_error : string) (log : list event) :=
        if attempt <? MAX_ATTEMPTS
        then attempts todo last_error (log ++ [Sleep attempt])
        else (Returned (error_result last_error), log) in
      let rep := complete (requests log) primary_request in
      let log := log ++ [Call attempt Primary primary_request rep] in
      match rep with
      | ApiError e => retry ("Groq API error (" +:+ e +:+ ")") log
      | Content raw_content =>
          let '(parsed, log) :=
            match _extract_json raw_content with
            | Some parsed => (Some parsed, log)
            | None =>
                let '(parsed, (req, rep)) := _repair_json_via_groq (requests log) raw_content in
                (parsed, log ++ [Call attempt Repair req rep])
            end in
          match parsed with
          | None => retry "Invalid JSON returned from Groq" log
          | Some parsed =>
              match normalized_input_recipes parsed with
              | None => (Raised "TypeError", log)
              | Some [] => retry "No valid recipes returned" log
              | Some recipes =>
                  let recipes := slice_to recipes num_recipes in
                  let normalized := normalize_ingredient_units recipes user_id in
                  (Returned (VDict [("user_id", VInt user_id); ("recipes", VList normalized)]), log)
              end
          end
      end
  end.

End Attempts.

Definition suggest_recipes_from_groq (user_id : Z) (ingredients : list item)
    (user_message : string) (user_prefs : preferences)
    (prev_recipe : option (list (string * value))) (num_recipes : Z)
    : outcome * list event :=
  let dietary := (λ d, Py.lower (Py.strip d)) <$> dietary user_prefs in
  let allergies := allergies user_prefs in
  let safe_inv := _filter_inventory ingredients dietary in
  if safe_inv is [] then (Returned (error_result "No safe ingredients available."), [])
  else
    attempts user_id user_message prev_recipe num_recipes dietary allergies safe_inv
      (seq 1 MAX_ATTEMPTS) "" [].

End Service.

(** ** One attempt by itself *)

(** How one attempt ends: it ends the run, or it records an error. *)
Inductive attempt_end {F : PyFloat} :=
  | Stops (out : outcome)
  | Fails (last_error : string).

Section OneAttempt.
Context `{PyFloat}.
Variable summarize_user_ratings_for_prompt : Z → string.
Variable get_spices_for_user : Z → list string.
Variable normalize_ingredient_units : list value → Z → list value.
Variable complete : client.
Variables (user_id : Z) (user_message : string) (prev_recipe : option (list (string * value)))
          (num_recipes : Z) (dietary : list string) (allergies : list string)
          (safe_inv : list item).

Local Abbreviation the_request :=
  (primary_request summarize_user_ratings_for_prompt get_spices_for_user
     user_id user_message prev_recipe num_recipes dietary allergies safe_inv).

(** The body of the loop for attempt [attempt], by itself: the events it
    adds after the requests of [history], and how it ends. *)
Definition attempt_body (history : list request) (attempt : nat) : attempt_end * list event :=
  let rep := complete history the_request in
  let call := Call attempt Primary the_request rep in
  match rep with
  | ApiError e => (Fails ("Groq API error (" +:+ e +:+ ")"), [call])
  | Content raw_content =>
      let '(parsed, evs) :=
        match _extract_json raw_content with
        | Some parsed => (Some parsed, [call])
        | None =>
            let '(parsed, (req, rep)) :=
              _repair_json_via_groq complete (history ++ [the_request]) raw_content in
            (parsed, [call; Call attempt Repair req rep])
        end in
      match parsed with
      | None => (Fails "Invalid JSON returned from Groq", evs)
      | Some parsed =>
          match normalized_input_recipes parsed with
          | None => (Stops (Raised "TypeError"), evs)
          | Some [] => (Fails "No valid recipes returned", evs)
          | Some recipes =>
              let recipes := slice_to recipes num_recipes in
              let normalized := normalize_ingredient_units recipes user_id in
              (Stops (Returned (VDict [("user_id", VInt user_id); ("recipes", VList normalized)])),
               evs)
          end
      end
  end.

(** A run from attempt [a] on: the attempts in order, each after the
    requests made so far, with a sleep after each one that fails before
    the last. *)
Inductive run_from : nat → list request → outcome → list event → Prop :=
  | run_stops a history out evs :
      attempt_body history a = (Stops out, evs) →
      run_from a history out evs
  | run_exhausted a history e evs :
      attempt_body history a = (Fails e, evs) → ¬ a < MAX_ATTEMPTS →
      run_from a history (Returned (error_result e)) evs
  | run_again a history e evs out rest :
      attempt_body history a = (Fails e, evs) → a < MAX_ATTEMPTS →
      run_from (S a) (history ++ requests evs) out rest →
      run_from a history out (evs ++ Sleep a :: rest).

(** What the last call of a run gave, and what the run made of it. *)
Definition explains (out : outcome) (e : event) : Prop :=
  match e with
  | Sleep _ => False
  | Call n st req rep =>
      match rep with
      | ApiError msg =>
          n = MAX_ATTEMPTS ∧
          out = Returned (error_result (if st is Primary then "Groq API error (" +:+ msg +:+ ")"
                                        else "Invalid JSON returned from Groq"))
      | Content text =>
          match _extract_json text with
          | None =>
              n = MAX_ATTEMPTS ∧ st = Repair ∧
              out = Returned (error_result "Invalid JSON returned from Groq")
          | Some parsed =>
              match normalized_input_recipes parsed with
              | None => out = Raised "TypeError"
              | Some [] =>
                  n = MAX_ATTEMPTS ∧ out = Returned (error_result "No valid recipes returned")
              | Some recipes =>
                  out = Returned (VDict
                          [("user_id", VInt user_id);
                           ("recipes", VList (normalize_ingredient_units
                                                (slice_to recipes num_recipes) user_id))])
              end
          end
      end
  end.

End OneAttempt.

(** ** Definitions that follow the specification's words *)

Section SpecWords.
Context `{PyFloat}.

(** The first truthy value of a list, or a default: the title rule with
    presence read as truth. *)
Definition first_truthy (candidates : list value) (dflt : value) : value :=
  default dflt (List.find truthy candidates).

(** The names the table bans under its gluten tag. *)
Definition gluten_names : list string :=
  ["wheat"; "barley"; "rye"; "bread"; "pasta"; "flour";
   "spaghetti"; "noodles"; "bulgur"; "couscous"; "semolina"].

End SpecWords.

(** ** Words for the properties

    Shapes and tables read off the code, for the statements below. *)

Section PropertyWords.
Context `{PyFloat}.

(** A recipe as the unit normalizer is to get it: a dict with a truthy
    [title], a list of [ingredients] and a list of strings as
    [instructions]. *)
Definition recipe_shape (v : value) : bool :=
  match v with
  | VDict r =>
      truthy (get r "title") && is_list (get r "ingredients") &&
      match get r "instructions" with
      | VList steps => forallb is_str steps
      | _ => false
      end
  | _ => false
  end.


(** [v == k] for a string [k]. *)
Definition is_the_string (k : string) (v : value) : bool :=
  match v with VStr s => String.eqb k s | _ => false end.

(** The tags the table of banned names knows, and those the restriction
    note knows. *)
Definition filter_tags : list string := ["vegetarian"; "vegan"; "gluten free"].
Definition note_tags : list string :=
  ["vegan"; "vegetarian"; "gluten free"; "kosher"; "halal"; "keto"; "paleo"].

End PropertyWords.

(** The shape of the events of one attempt: a primary call, and after it
    a repair call only when the primary reply was text that did not
    extract. *)
Inductive attempt_events `{PyFloat} (n : nat) : list event → Prop :=
  | attempt_primary req rep :
      attempt_events n [Call n Primary req rep]
  | attempt_repaired req raw req' rep' :
      _extract_json raw = None →
      attempt_events n [Call n Primary req (Content raw); Call n Repair req' rep'].

(** The shape of the events of a run of at most [k] attempts numbered from
    [a]: attempts in order, a sleep between two of them. *)
Inductive run_events `{PyFloat} : nat → nat → list event → Prop :=
  | run_none a k : run_events a k []
  | run_stop a k evs : attempt_events a evs → run_events a (S k) evs
  | run_retry a k evs rest :
      attempt_events a evs → run_events (S a) k rest →
      run_events a (S k) (evs ++ Sleep a :: rest).

(** The text of a JSON object as the extractor can take it: it reads as
    the object, runs from its opening to its closing brace, and holds no
    comment marker and no fence of three backticks. *)
Record object_text `{PyFloat} (s : string) (d : list (string * value)) : Prop := {
  text_reads : json_loads s = Parsed (VDict d) EmptyString;
  text_opens : first_char s = Some "{"%char;
  text_closes : last_char s = Some "}"%char;
  text_no_line_comment : Py.contains "//" s = false;
  text_no_block_comment : Py.contains "/*" s = false;
  text_no_fence : Py.contains "```" s = false;
}.

(** What may follow a fence of three backticks for the fence to be taken
    by itself: no further backtick and not the label json. *)
Definition after_fence (z : string) : Prop :=
  first_char z ≠ Some "`"%char ∧ Py.startswith "json" z = false.

(** [text] is [u] with at most one opening fence, labelled json or not,
    and at most one closing fence put in: no part of [u] holds a fence of
    its own, and no part before a fence ends in a backtick. *)
Inductive fenced : string → string → Prop :=
  | fenced_parts p opening m closing q :
      opening = "" ∨ opening = "```json" ∨
        opening = "```" ∧ after_fence (m +:+ closing +:+ q) →
      closing = "" ∨ closing = "```" ∧ after_fence q →
      Py.contains "```" p = false → last_char p ≠ Some "`"%char →
      Py.contains "```" m = false → last_char m ≠ Some "`"%char →
      Py.contains "```" q = false →
      fenced (p +:+ m +:+ q) (p +:+ opening +:+ m +:+ closing +:+ q).

(** [x] is [s] with block comments put in: a comment holds no [//] and
    ends at its first [*/], and no slash stands right before a comment or
    right after one. *)
Inductive block_commented : string → string → Prop :=
  | bc_end : block_commented "" ""
  | bc_char a s x :
      block_commented s x → (a = "/"%char → first_char x ≠ Some "/"%char) →
      block_commented (String a s) (String a x)
  | bc_comment body s x :
      Py.contains "//" body = false → Py.contains "*/" body = false →
      block_commented s x → first_char x ≠ Some "/"%char →
      block_commented s ("/*" +:+ body +:+ "*/" +:+ x).

(** [c] is [x] with line comments put in: a comment runs to the end of
    its line or of the text, and no slash stands right before it. *)
Inductive line_commented : string → string → Prop :=
  | lc_end : line_commented "" ""
  | lc_char a x c :
      line_commented x c → (a = "/"%char → first_char c ≠ Some "/"%char) →
      line_commented (String a x) (String a c)
  | lc_comment note x c :
      free_of Py.newline note = true →
      line_commented x c → c = "" ∨ first_char c = Some Py.newline →
      line_commented x ("//" +:+ note +:+ c).

(** [c] is [s] with comments put in, of both kinds; a line comment may
    stand inside a block comment. *)
Definition commented (s c : string) : Prop :=
  ∃ x, block_commented s x ∧ line_commented x c.

(** A stage of the extractor that gives nothing, or the object [d]. *)
Definition nothing_but `{PyFloat} (d : list (string * value)) (r : option value) : Prop :=
  r = None ∨ r = Some (VDict d).

(** The ways a text holds the text [s] of the object [d].
    - [in_comments]: the text is [s] with white space around it and
      comments put in, inside the object, before it or after it.
    - [in_prose]: the text is prose, then [s] with comments put in, then
      prose; the prose before holds no brace, the first brace of the
      object closes at its end, and the text as a whole reads as nothing
      else.
    - [in_block]: the text holds [s], with white space and comments, as
      its first block between a fence labelled json and the next fence,
      and its first two stages read nothing else.
    In the first two ways the text may have its fences, as [fenced]
    says. *)
Inductive embedded `{PyFloat} (s : string) (d : list (string * value)) : string → Prop :=
  | in_comments w1 w2 u text :
      all_space w1 = true → all_space w2 = true →
      commented (w1 +:+ s +:+ w2) u → fenced u text →
      embedded s d text
  | in_prose pre c post text :
      free_of "{" pre = true → commented s c →
      _balanced_json_snippet c = Some c →
      nothing_but d (_try_parse_json_candidate (pre +:+ c +:+ post)) →
      fenced (pre +:+ c +:+ post) text →
      embedded s d text
  | in_block pre w1 w2 body post :
      Py.contains "```json" pre = false →
      all_space w1 = true → all_space w2 = true →
      commented (w1 +:+ s +:+ w2) body →
      Py.contains "```" body = false → last_char body ≠ Some "`"%char →
      let text := pre +:+ "```json" +:+ body +:+ "```" +:+ post in
      let raw := Py.strip (Py.replace "```" "" (Py.replace "```json" "" text)) in
      nothing_but d (_try_parse_json_candidate raw) →
      nothing_but d (_balanced_json_snippet raw ≫= _try_parse_json_candidate) →
      embedded s d text.

(** The descriptions of the errors an attempt can record. *)
Definition recorded_error (msg : string) : Prop :=
  msg = "Invalid JSON returned from Groq" ∨
  msg = "No valid recipes returned" ∨
  ∃ e, msg = "Groq API error (" +:+ e +:+ ")".

(** How attempt [a] can end the run: with an exception, with recipes, or,
    when it is the last one, with the error it recorded. *)
Definition ends_run `{PyFloat} (user_id : Z) (a : nat) (out : outcome) : Prop :=
  match out with
  | Raised _ => True
  | Returned v =>
      (∃ recipes, v = VDict [("user_id", VInt user_id); ("recipes", VList recipes)]) ∨
      (¬ a < MAX_ATTEMPTS ∧
       ∃ msg, v = VDict [("error", VStr msg); ("recipes", VList [])] ∧ recorded_error msg)
  end.

Definition stage_eqb (s1 s2 : stage) : bool :=
  match s1, s2 with Primary, Primary | Repair, Repair => true | _, _ => false end.

(** The calls of one stage in a log, and those of one attempt among them. *)
Definition is_call (st : stage) (e : event) : bool :=
  match e with Call _ st' _ _ => stage_eqb st st' | Sleep _ => false end.

Definition is_call_of (st : stage) (n : nat) (e : event) : bool :=
  match e with Call n' st' _ _ => (n =? n') && stage_eqb st st' | Sleep _ => false end.

Definition stage_calls (st : stage) (log : list event) : nat :=
  length (List.filter (is_call st) log).

Definition attempt_calls (st : stage) (n : nat) (log : list event) : nat :=
  length (List.filter (is_call_of st n) log).

(** The sleeps in a log. *)
Definition is_sleep (e : event) : bool :=
  match e with Sleep _ => true | Call _ _ _ _ => false end.

Definition sleeps (log : list event) : nat := length (List.filter is_sleep log).

(** ** Sample inputs

    Collaborators that add nothing, a completion service that never answers
    with JSON, and a recipe as a completion may write it; floats are kept
    as text ([text_float]). *)

Definition no_ratings : Z → string := λ _, "".
Definition no_spices : Z → list string := λ _, [].
Definition same_units : list (value (H:=text_float)) → Z → list (value (H:=text_float)) :=
  λ recipes _, recipes.

(** A completion service that answers every request with the same prose. *)
Definition chatty : client := λ _ _, Content "Sure! Here are some recipes you could try.".

Definition no_preferences : preferences := {| dietary := []; allergies := [] |}.

Definition soup_text : string :=
  Py.q "{'title': 'Soup', 'steps': ['boil', 'serve']}".
Definition soup : list (string * value (H:=text_float)) :=
  [("title", VStr "Soup"); ("steps", VList [VStr "boil"; VStr "serve"])].

(** A completion service that is down, one that answers with a recipe,
    and one that answers with a bare number. *)
Definition down : client := λ _ _, ApiError "timeout".
Definition helpful : client := λ _ _, Content soup_text.
Definition terse : client := λ _ _, Content "42".

(** * Properties *)

(** ** Texts *)

Section TextFacts.
Implicit Types (s t x y : string) (a c : ascii).

Lemma app_cons a s t : String a s +:+ t = String a (s +:+ t).
Proof. reflexivity. Qed.

Lemma app_empty_r s : s +:+ "" = s.
Proof. induction s as [|a s IH]; [done|]. by rewrite app_cons, IH. Qed.

Lemma app_assoc3 x y t : (x +:+ y) +:+ t = x +:+ y +:+ t.
Proof. induction x as [|a x IH]; [done|]. by rewrite !app_cons, IH. Qed.

Lemma app_not_empty x s : s ≠ "" → x +:+ s ≠ "".
Proof. by destruct x, s. Qed.

Lemma first_char_app s t c : first_char s = Some c → first_char (s +:+ t) = Some c.
Proof. by destruct s. Qed.

Lemma last_char_app x s : s ≠ "" → last_char (x +:+ s) = last_char s.
Proof.
  intros Hs. induction x as [|a x IH]; [done|].
  rewrite app_cons. simpl. rewrite IH.
  destruct (x +:+ s) eqn:E; [|done]. by apply app_not_empty in E.
Qed.

Lemma free_of_app c x y : free_of c (x +:+ y) = free_of c x && free_of c y.
Proof.
  induction x as [|a x IH]; [done|].
  rewrite app_cons. simpl. rewrite IH. by rewrite andb_assoc.
Qed.

Lemma all_space_free_of c s : Py.isspace c = false → all_space s = true → free_of c s = true.
Proof.
  intros Hc. induction s as [|a s IH]; [done|]. simpl.
  intros [Ha Hs]%andb_prop. rewrite IH by done. rewrite andb_true_r.
  destruct (Ascii.eqb_spec a c) as [->|]; [congruence|done].
Qed.

(** *** [replace] *)

Lemma strip_prefix_cons c p a s :
  Py.strip_prefix (String c p) (String a s) =
  if Ascii.eqb c a then Py.strip_prefix p s else None.
Proof. reflexivity. Qed.

Lemma startswith_cons c p a s :
  Py.startswith (String c p) (String a s) = Ascii.eqb c a && Py.startswith p s.
Proof. unfold Py.startswith. rewrite strip_prefix_cons. by destruct (Ascii.eqb c a). Qed.

Lemma startswith_head c p a s : a ≠ c → Py.startswith (String c p) (String a s) = false.
Proof.
  intros Hne. rewrite startswith_cons.
  destruct (Ascii.eqb_spec c a); [congruence|done].
Qed.

Lemma replace_free c p new x y :
  free_of c x = true →
  Py.replace (String c p) new (x +:+ y) = x +:+ Py.replace (String c p) new y.
Proof.
  unfold Py.replace. induction x as [|a x IH]; [done|].
  simpl. intros [Ha Hx]%andb_prop. rewrite app_cons.
  assert (a ≠ c) as Hne by (destruct (Ascii.eqb_spec a c); done).
  cbn [Py.replace_go]. rewrite startswith_head by done.
  by rewrite IH.
Qed.

Lemma replace_free_all c p new x :
  free_of c x = true → Py.replace (String c p) new x = x.
Proof.
  intros Hx. rewrite <-(app_empty_r x) at 1.
  rewrite replace_free by done. by rewrite app_empty_r.
Qed.

(** *** [strip] *)

Lemma lstrip_space_app x t : all_space x = true → Py.lstrip (x +:+ t) = Py.lstrip t.
Proof.
  induction x as [|a x IH]; [done|].
  intros Hx. simpl in Hx. apply andb_prop in Hx as [Ha Hx].
  rewrite app_cons. cbn [Py.lstrip]. by rewrite Ha, IH.
Qed.

Lemma lstrip_first s c : first_char s = Some c → Py.isspace c = false → Py.lstrip s = s.
Proof. destruct s as [|a s]; [done|]. simpl. intros [= ->] ->. done. Qed.

Lemma rstrip_space s : all_space s = true → Py.rstrip s = "".
Proof.
  induction s as [|a s IH]; [done|]. simpl.
  intros [Ha Hs]%andb_prop. by rewrite IH, Ha.
Qed.

(** What ends in a character that is no white space is kept by [rstrip]. *)
Lemma rstrip_app_keep x y c :
  last_char x = Some c → Py.isspace c = false →
  Py.rstrip (x +:+ y) = x +:+ Py.rstrip y.
Proof.
  intros Hlast Hc. induction x as [|a x IH]; [done|].
  rewrite !app_cons. cbn [Py.rstrip].
  destruct x as [|b x].
  - simpl in Hlast. injection Hlast as ->.
    change ("" +:+ y) with y. change ("" +:+ Py.rstrip y) with (Py.rstrip y).
    destruct (Py.rstrip y); [by rewrite Hc|done].
  - rewrite IH by done. by rewrite app_cons.
Qed.

Lemma rstrip_keep x c : last_char x = Some c → Py.isspace c = false → Py.rstrip x = x.
Proof.
  intros Hlast Hc. rewrite <-(app_empty_r x) at 1.
  rewrite (rstrip_app_keep x "" c) by done. apply app_empty_r.
Qed.

Lemma free_of_rstrip c s : free_of c s = true → free_of c (Py.rstrip s) = true.
Proof.
  induction s as [|a s IH]; [done|]. simpl.
  intros [Ha Hs]%andb_prop. specialize (IH Hs).
  destruct (Py.rstrip s) eqn:E.
  - destruct (Py.isspace a); [done|]. simpl. by rewrite Ha.
  - simpl in *. by rewrite Ha, IH.
Qed.

(** After [lstrip], what stood before a text that does not start with
    white space is a part of what stood there. *)
Lemma lstrip_before x t c b :
  first_char t = Some b → Py.isspace b = false → free_of c x = true →
  ∃ x', Py.lstrip (x +:+ t) = x' +:+ t ∧ free_of c x' = true.
Proof.
  intros Ht Hb. induction x as [|a x IH]; intros Hx.
  - exists "". split; [|done]. by apply (lstrip_first _ b).
  - simpl in Hx. apply andb_prop in Hx as [Ha Hx].
    rewrite app_cons. simpl. destruct (Py.isspace a).
    + by apply IH.
    + exists (String a x). split; [done|]. simpl. by rewrite Ha, Hx.
Qed.

(** *** Comments *)

Lemma contains_cons p a s :
  Py.contains p (String a s) = false →
  Py.startswith p (String a s) = false ∧ Py.contains p s = false.
Proof. simpl. by intros [? ?]%orb_false_elim. Qed.

(** A text without [//] that does not end in a slash goes through the
    removal of line comments as it is, whatever follows it. *)
Lemma line_comments_app x y :
  Py.contains "//" x = false → last_char x ≠ Some "/"%char →
  strip_line_comments false (x +:+ y) = x +:+ strip_line_comments false y.
Proof.
  induction x as [|a x IH]; [done|].
  intros [Hstart Hrest]%contains_cons Hlast.
  rewrite !app_cons. cbn [strip_line_comments].
  assert (Py.startswith "//" (String a (x +:+ y)) = false) as ->.
  { destruct (Ascii.eqb_spec a "/") as [->|Hne]; [|by apply startswith_head].
    destruct x as [|b x]; [done|].
    rewrite app_cons, startswith_cons, startswith_head; [apply andb_false_r|].
    intros ->. done. }
  rewrite IH; [done..|].
  destruct x as [|b x]; [done|]. exact Hlast.
Qed.

Lemma line_comment_to_end s : free_of Py.newline s = true → strip_line_comments true s = "".
Proof.
  induction s as [|a s IH]; [done|]. simpl.
  intros [Ha Hs]%andb_prop. destruct (Ascii.eqb a Py.newline); [done|]. by apply IH.
Qed.

Lemma block_comments_app x y :
  Py.contains "/*" x = false → last_char x ≠ Some "/"%char →
  strip_block_comments Code (x +:+ y) = x +:+ strip_block_comments Code y.
Proof.
  induction x as [|a x IH]; [done|].
  intros [Hstart Hrest]%contains_cons Hlast.
  rewrite !app_cons. cbn [strip_block_comments].
  assert (Py.strip_prefix "/*" (String a (x +:+ y)) = None) as ->.
  { rewrite strip_prefix_cons.
    destruct (Ascii.eqb_spec "/" a) as [<-|Hne]; [|done].
    destruct x as [|b x]; [done|].
    rewrite app_cons, strip_prefix_cons.
    destruct (Ascii.eqb_spec "*" b) as [<-|Hne]; [done|done]. }
  rewrite IH; [done..|].
  destruct x as [|b x]; [done|]. exact Hlast.
Qed.

Lemma line_comments_clean x :
  Py.contains "//" x = false → last_char x ≠ Some "/"%char →
  strip_line_comments false x = x.
Proof.
  intros. rewrite <-(app_empty_r x) at 1.
  rewrite line_comments_app by done. by rewrite app_empty_r.
Qed.

Lemma block_comments_clean x :
  Py.contains "/*" x = false → last_char x ≠ Some "/"%char →
  strip_block_comments Code x = x.
Proof.
  intros. rewrite <-(app_empty_r x) at 1.
  rewrite block_comments_app by done. by rewrite app_empty_r.
Qed.

Lemma block_comments_space s : all_space s = true → strip_block_comments Code s = s.
Proof.
  induction s as [|a s IH]; [done|].
  intros Hs. simpl in Hs. apply andb_prop in Hs as [Ha Hs].
  cbn [strip_block_comments]. rewrite strip_prefix_cons.
  destruct (Ascii.eqb_spec "/" a) as [<-|]; [done|]. by rewrite IH.
Qed.

Lemma line_comments_space_app x y :
  all_space x = true →
  strip_line_comments false (x +:+ y) = x +:+ strip_line_comments false y.
Proof.
  induction x as [|a x IH]; [done|].
  intros Hx. simpl in Hx. apply andb_prop in Hx as [Ha Hx].
  rewrite !app_cons. cbn [strip_line_comments].
  rewrite startswith_head by (by intros ->). by rewrite IH.
Qed.

(** [strip] of a text whose first part starts and ends without white
    space. *)
Lemma strip_open x n b c :
  first_char x = Some b → Py.isspace b = false →
  last_char x = Some c → Py.isspace c = false →
  Py.strip (x +:+ n) = x +:+ Py.rstrip n.
Proof.
  intros Hb Hb' Hc Hc'. unfold Py.strip.
  rewrite (rstrip_app_keep x n c) by done.
  apply (lstrip_first _ b); [by apply first_char_app | done].
Qed.

Lemma strip_padded pre s post b c :
  first_char s = Some b → Py.isspace b = false →
  last_char s = Some c → Py.isspace c = false →
  all_space pre = true → all_space post = true →
  Py.strip (pre +:+ s +:+ post) = s.
Proof.
  intros Hb Hb' Hc Hc' Hpre Hpost. unfold Py.strip.
  rewrite <-app_assoc3.
  rewrite (rstrip_app_keep (pre +:+ s) post c); [|by rewrite last_char_app; [|destruct s]|done].
  rewrite rstrip_space by done. rewrite app_empty_r.
  rewrite lstrip_space_app by done. by apply (lstrip_first _ b).
Qed.

(** *** The balanced snippet *)

Lemma from_first_brace_app x t :
  free_of "{" x = true → first_char t = Some "{"%char →
  from_first_brace (x +:+ t) = Some t.
Proof.
  intros Hx Ht. induction x as [|a x IH].
  - destruct t as [|b t]; [done|]. simpl in *. by injection Ht as ->.
  - simpl in Hx. apply andb_prop in Hx as [Ha Hx].
    rewrite app_cons. simpl. destruct (Ascii.eqb a "{"); [done|]. by apply IH.
Qed.

Lemma take_balanced_app depth s x y :
  take_balanced depth s = Some x → take_balanced depth (s +:+ y) = Some x.
Proof.
  revert depth x. induction s as [|a s IH]; intros depth x; [done|].
  rewrite app_cons. simpl.
  destruct (Ascii.eqb a "{").
  { destruct (take_balanced (depth + 1) s) eqn:E; [|done].
    by rewrite (IH _ _ E). }
  destruct (Ascii.eqb a "}").
  { destruct (depth - 1 =? 0)%Z; [done|].
    destruct (take_balanced (depth - 1) s) eqn:E; [|done].
    by rewrite (IH _ _ E). }
  destruct (take_balanced depth s) eqn:E; [|done].
  by rewrite (IH _ _ E).
Qed.

End TextFacts.

(** ** Dictionaries *)

Section DictFacts.
Context {A : Type}.
Implicit Types (d : list (string * A)) (k : string) (v : A).

Lemma dict_get_set_eq d k v : dict_get (dict_set d k v) k = Some v.
Proof.
  induction d as [|[k' v'] d IH]; simpl.
  - by rewrite String.eqb_refl.
  - destruct (String.eqb k k') eqn:E; simpl; rewrite E; [done | exact IH].
Qed.

Lemma dict_get_set_ne d k k' v : k ≠ k' → dict_get (dict_set d k v) k' = dict_get d k'.
Proof.
  intros Hne. induction d as [|[k0 v0] d IH]; simpl.
  - destruct (String.eqb k' k) eqn:E; [|done].
    apply String.eqb_eq in E. congruence.
  - destruct (String.eqb k k0) eqn:E; simpl.
    + apply String.eqb_eq in E. subst k0.
      destruct (String.eqb k' k) eqn:E'; [|done].
      apply String.eqb_eq in E'. congruence.
    + by rewrite IH.
Qed.

End DictFacts.

(** ** The inventory filter *)

Section FilterFacts.
Context `{PyFloat}.

(** The banned names are the union of the table's entries for the tags. *)
Lemma elem_of_banned_names (dietary : list string) (x : string) :
  x ∈ banned_names dietary ↔
  ∃ d names, d ∈ dietary ∧ RESTRICTED !! Py.lower d = Some names ∧ x ∈ names.
Proof.
  unfold banned_names.
  assert (∀ acc : gset string,
    x ∈ foldl (λ banned d, banned ∪ default ∅ (RESTRICTED !! Py.lower d)) acc dietary ↔
    x ∈ acc ∨ ∃ d names, d ∈ dietary ∧ RESTRICTED !! Py.lower d = Some names ∧ x ∈ names)
    as Hgen.
  { induction dietary as [|d ds IH]; intros acc; simpl.
    - split; [by left|]. intros [?|(d & ? & Hd & _)]; [done|]. by apply elem_of_nil in Hd.
    - rewrite IH, elem_of_union. split.
      + intros [[?|Hx]|(d' & names & Hd' & Hn & Hx)].
        * by left.
        * right. destruct (RESTRICTED !! Py.lower d) as [names|] eqn:E; simpl in Hx.
          -- exists d, names. split; [by left|done].
          -- by apply not_elem_of_empty in Hx.
        * right. exists d', names. split; [by right|done].
      + intros [?|(d' & names & Hd' & Hn & Hx)]; [by left; left|].
        apply elem_of_cons in Hd' as [->|Hd'].
        * left; right. by rewrite Hn.
        * right. by exists d', names. }
  rewrite Hgen. split; [intros [Hx|?]; [by apply not_elem_of_empty in Hx|done] | by right].
Qed.

(** What the filter guarantees: no item it keeps has a banned [_get_name]. *)
Lemma filter_inventory_elem (inv : list item) (dietary : list string) (it : item) :
  it ∈ _filter_inventory inv dietary ↔ (_get_name it ∉ banned_names dietary) ∧ it ∈ inv.
Proof. unfold _filter_inventory. by rewrite list_elem_of_filter. Qed.

Lemma filter_inventory_no_tags (inv : list item) : _filter_inventory inv [] = inv.
Proof.
  unfold _filter_inventory, banned_names; simpl.
  induction inv as [|it inv IH]; [done|].
  rewrite filter_cons_True by apply not_elem_of_empty. by rewrite IH.
Qed.

End FilterFacts.

Section FilterClaims.
Context `{PyFloat}.

Lemma gluten_names_banned (dietary : list string) (tag name : string) :
  tag ∈ dietary → Py.lower tag = "gluten free" → name ∈ gluten_names →
  name ∈ banned_names dietary.
Proof.
  intros Htag Hlower Hname. apply elem_of_banned_names.
  exists tag, (list_to_set gluten_names). rewrite Hlower.
  split; [done|]. split; [reflexivity|]. by apply elem_of_list_to_set.
Qed.

(** C6.  When a tag that reads [gluten free] in lower case (written with a
    blank, as the table has it) is among the tags, every item the filter
    keeps has a resolved name outside the gluten names of the table: wheat,
    barley, rye, bread, pasta, flour, spaghetti, noodles, bulgur, couscous
    and semolina. *)
Theorem gluten_free_tag_bans_gluten (inv : list item) (dietary : list string) (tag : string) :
  tag ∈ dietary → Py.lower tag = "gluten free" →
  Forall (λ it, _get_name it ∉ gluten_names) (_filter_inventory inv dietary).
Proof.
  intros Htag Hlower. apply Forall_forall. intros it Hit Hname.
  apply filter_inventory_elem in Hit as [Hkeep _].
  apply Hkeep. by eapply gluten_names_banned.
Qed.

(** What the filter does for every list of tags: the items it keeps are
    items of the inventory in their order, none of them has a resolved name
    among the banned names of the tags, and without tags it keeps all. *)
Theorem filter_inventory_keeps_unbanned (inv : list item) (dietary : list string) :
  _filter_inventory inv dietary `sublist_of` inv ∧
  Forall (λ it, _get_name it ∉ banned_names dietary) (_filter_inventory inv dietary) ∧
  _filter_inventory inv [] = inv.
Proof.
  split_and!.
  - apply sublist_filter.
  - apply Forall_forall. intros it Hit. by apply filter_inventory_elem in Hit as [? _].
  - apply filter_inventory_no_tags.
Qed.

End FilterClaims.

(** ** The recipe normalizer *)

Section NormalizerFacts.
Context `{PyFloat}.
Implicit Types (r : list (string * value)) (v : value).

Lemma merged_recipe_title r : dict_get (merged_recipe r) "title" = Some (title_of r).
Proof.
  unfold merged_recipe.
  rewrite !dict_get_set_ne by done. apply dict_get_set_eq.
Qed.

Lemma merged_recipe_ingredients r :
  dict_get (merged_recipe r) "ingredients" =
  Some (VList (_normalize_ingredients_structure (get_or r "ingredients" (VList [])))).
Proof.
  unfold merged_recipe.
  rewrite dict_get_set_ne by done. apply dict_get_set_eq.
Qed.

Lemma merged_recipe_instructions r :
  dict_get (merged_recipe r) "instructions" = Some (VList (instructions_of r)).
Proof. unfold merged_recipe. apply dict_get_set_eq. Qed.

(** The recipes that come out are the merged forms of the dicts that go in. *)
Lemma elem_of_normalize_recipes (recipes : list value) v :
  v ∈ normalize_recipes recipes ↔ ∃ r, VDict r ∈ recipes ∧ v = VDict (merged_recipe r).
Proof.
  induction recipes as [|x recipes IH].
  - simpl. split; [intros Hv; by apply elem_of_nil in Hv|].
    intros (r & Hr & _). by apply elem_of_nil in Hr.
  - assert (∀ y, ¬ is_dict x → (y ∈ normalize_recipes (x :: recipes) ↔ y ∈ normalize_recipes recipes))
      as Hskip by (intros y Hx; destruct x; simpl in *; done).
    destruct x as [| | | | |l|r0]; try (rewrite Hskip by (simpl; auto); rewrite IH; split;
      [intros (r & Hr & ->); exists r; split; [by right|done]
      |intros (r & Hr & ->); apply elem_of_cons in Hr as [Hr|Hr]; [done|by exists r]]).
    simpl. rewrite elem_of_cons, IH. split.
    + intros [->|(r & Hr & ->)]; [exists r0; split; [by left|done]|].
      exists r. split; [by right|done].
    + intros (r & Hr & ->). apply elem_of_cons in Hr as [[= ->]|Hr]; [by left|].
      right. by exists r.
Qed.

(** A JSON object always goes through the rewrites: no [TypeError]. *)
Lemma normalized_object_total (d : list (string * value)) :
  is_Some (normalized_input_recipes (VDict d)).
Proof.
  unfold normalized_input_recipes, recipes_of, wrap_single_recipe, wrap_without_recipes,
    py_in, py_item, dict_has.
  repeat (case_match; simplify_eq/=); by eexists.
Qed.

Lemma py_or_truthy a b : truthy (py_or a b) = truthy a || truthy b.
Proof. unfold py_or. by destruct (truthy a) eqn:E; rewrite ?E. Qed.

(** The steps are strings, and there are none exactly when neither key
    holds a truthy value. *)
Lemma instructions_of_strings r :
  Forall (λ step, is_str step = true) (instructions_of r) ∧
  (instructions_of r = [] ↔
   truthy (get r "instructions") = false ∧ truthy (get r "steps") = false).
Proof.
  unfold instructions_of.
  rewrite <-orb_false_iff, <-py_or_truthy.
  set (raw := py_or (get r "instructions") (get r "steps")).
  change (py_or raw (VList [])) with (if truthy raw then raw else VList []).
  simpl. destruct (truthy raw) eqn:Eraw; [|by split; [apply Forall_nil|]].
  destruct raw as [| | | |s|l|d]; simpl in *;
    try (split; [by repeat constructor | by split]).
  split.
  - apply Forall_forall. intros step Hstep.
    by apply list_elem_of_In, in_map_iff in Hstep as (x & <- & _).
  - by destruct l.
Qed.

(** C9.  The title of a normalized recipe is the first truthy value among
    the values of [title], [name] and [recipe_name] (a missing key counts as
    [None]), and [Untitled recipe] when none of them is truthy. *)
Theorem normalized_title_first_truthy r :
  dict_get (merged_recipe r) "title" =
  Some (first_truthy [get r "title"; get r "name"; get r "recipe_name"]
                     (VStr "Untitled recipe")).
Proof.
  rewrite merged_recipe_title. f_equal.
  unfold title_of, first_truthy, py_or; simpl.
  destruct (truthy (get r "title")) eqn:E1; simpl; rewrite ?E1; simpl.
  - destruct (truthy (get r "title")); done.
  - destruct (truthy (get r "name")) eqn:E2; simpl; rewrite ?E2; simpl; [done|].
    destruct (truthy (get r "recipe_name")) eqn:E3; simpl; by rewrite ?E3.
Qed.


(** The entry made for a key of a mapping holds that key as its name. *)
Lemma ingredient_entry_name (name : string) (raw_qty : value) :
  ∃ fields,
    ingredient_entry name raw_qty = VDict fields ∧ dict_get fields "name" = Some (VStr name).
Proof.
  unfold ingredient_entry.
  destruct raw_qty as [| | | |s| |]; try (by eexists).
  destruct (Py.split s) as [|p0 [|p1 ps]]; try (by eexists).
  destruct (float_of_str p0); by eexists.
Qed.

(** C4.  Every recipe of the normalized list is the merged form of a dict
    [r] of the list the loop ran through, and its [ingredients] field is a
    list.  When [r] gave its ingredients as a list (none at all counts as
    the empty list), the field is that list, unchanged.  When [r] gave a
    mapping, the field has one entry for each key of the mapping, in their
    order, and each entry is a dict whose [name] field is present and is
    its key.  For any other shape the field is the empty list. *)
Theorem normalized_ingredient_names (parsed : value) (recipes : list value) v :
  normalized_input_recipes parsed = Some recipes →
  v ∈ recipes →
  ∃ input r out,
    recipes_of parsed = Some input ∧ VDict r ∈ input ∧
    v = VDict (merged_recipe r) ∧
    dict_get (merged_recipe r) "ingredients" = Some (VList out) ∧
    match get_or r "ingredients" (VList []) with
    | VList l => out = l
    | VDict d =>
        Forall2 (λ kv entry,
                   ∃ fields, entry = VDict fields ∧
                             dict_get fields "name" = Some (VStr kv.1)) d out
    | _ => out = []
    end.
Proof.
  unfold normalized_input_recipes. intros Hn Hv.
  destruct (recipes_of parsed) as [input|]; [|done].
  simpl in Hn. injection Hn as <-.
  apply elem_of_normalize_recipes in Hv as (r & Hr & ->).
  exists input, r, (_normalize_ingredients_structure (get_or r "ingredients" (VList []))).
  split_and!; [done|done|done|apply merged_recipe_ingredients|].
  destruct (get_or r "ingredients" (VList [])) as [| | | | |l|d]; try done.
  cbn [_normalize_ingredients_structure].
  induction d as [|[name raw_qty] d IH]; [constructor|].
  simpl. constructor; [apply ingredient_entry_name|exact IH].
Qed.

End NormalizerFacts.

(** ** The JSON scanner: its fuel is enough *)

Section ScannerFacts.
Context `{PyFloat}.
Implicit Types (s rest : string) (c : ascii).

Local Abbreviation len := String.length.

Lemma skip_ws_length s : len (skip_ws s) ≤ len s.
Proof.
  induction s as [|c s IH]; [done|]. cbn [skip_ws].
  destruct (json_ws c); simpl; lia.
Qed.

Lemma eat_length c s rest : eat c s = Some rest → len s = S (len rest).
Proof.
  destruct s as [|a s]; [done|]. cbn [eat].
  destruct (Ascii.eqb a c); [|done]. by intros [= ->].
Qed.

Lemma strip_prefix_length p s rest :
  Py.strip_prefix p s = Some rest → len s = len p + len rest.
Proof.
  revert s. induction p as [|a p IH]; intros s.
  - destruct s; by intros [= <-].
  - destruct s as [|b s]; [done|]. rewrite strip_prefix_cons.
    destruct (Ascii.eqb a b); [|done]. intros Hp%IH. simpl. lia.
Qed.

Lemma span_digits_length s ds rest : span_digits s = (ds, rest) → len s = len ds + len rest.
Proof.
  revert ds rest. induction s as [|c s IH]; intros ds rest.
  - by intros [= <- <-].
  - cbn [span_digits]. destruct (is_digit c).
    + destruct (span_digits s) as [ds' rest'] eqn:E. intros [= <- <-].
      specialize (IH ds' rest' eq_refl). simpl. lia.
    + by intros [= <- <-].
Qed.

(** A string scanned leaves less than the text it was scanned from. *)
Lemma scan_string_shorter (n : nat) s (hi : option N) (acc x : string) rest :
  len s ≤ n → scan_string hi acc s = Parsed x rest → len rest < len s.
Proof.
  revert s hi acc. induction n as [|n IH]; intros s hi acc Hn.
  { destruct s; [done | simpl in Hn; lia]. }
  destruct s as [|c s]; [done|]. cbn [scan_string].
  simpl in Hn.
  repeat case_match; try done; subst; simpl in *;
    try (intros [= <- <-]; lia);
    intros Hs%IH; simpl in *; lia.
Qed.

Lemma scan_string_total s (hi : option N) (acc : string) :
  scan_string hi acc s ≠ OutOfFuel.
Proof.
  remember (len s) as n eqn:Hn. assert (len s ≤ n) as Hle by lia. clear Hn.
  revert s hi acc Hle. induction n as [|n IH]; intros s hi acc Hn.
  { destruct s; [done | simpl in Hn; lia]. }
  destruct s as [|c s]; [done|]. cbn [scan_string]. simpl in Hn.
  repeat case_match; try done; subst; simpl in *; apply IH; simpl; lia.
Qed.

Lemma scan_number_shorter s (v : value) rest :
  scan_number s = Parsed v rest → len rest < len s.
Proof.
  unfold scan_number, scan_minus, scan_int, scan_frac, scan_exp.
  intros Hs.
  repeat (case_match; simplify_eq);
    repeat match goal with
    | E : eat _ _ = Some _ |- _ => apply eat_length in E
    | E : span_digits _ = (_, _) |- _ => apply span_digits_length in E
    end; simpl in *; lia.
Qed.

Lemma scan_number_total s : scan_number s ≠ OutOfFuel.
Proof.
  unfold scan_number. repeat case_match; done.
Qed.

Lemma scan_float_constant_rest name s (v : value) rest :
  scan_float_constant name s = Parsed v rest → rest = s.
Proof. unfold scan_float_constant. case_match; [|done]. by intros [= _ ->]. Qed.

Lemma scan_float_constant_total name s : scan_float_constant name s ≠ OutOfFuel.
Proof. unfold scan_float_constant. by case_match. Qed.

(** Turns what the scanners returned into facts about lengths. *)
Ltac scan_lengths :=
  repeat match goal with
  | E : eat _ _ = Some _ |- _ => apply eat_length in E
  | E : Py.strip_prefix _ _ = Some _ |- _ => apply strip_prefix_length in E
  | E : scan_string _ _ ?s = Parsed _ _ |- _ =>
      apply (scan_string_shorter (len s)) in E; [|done]
  | E : scan_number _ = Parsed _ _ |- _ => apply scan_number_shorter in E
  | E : scan_float_constant _ _ = Parsed _ _ |- _ => apply scan_float_constant_rest in E
  end;
  repeat match goal with
  | |- context [skip_ws ?t] =>
      pose proof (skip_ws_length t); generalize dependent (skip_ws t); intros
  | _ : context [skip_ws ?t] |- _ =>
      pose proof (skip_ws_length t); generalize dependent (skip_ws t); intros
  end.

(** Each scanner leaves less than it was given. *)
Lemma scan_shorter (fuel : nat) :
  (∀ s (v : value) rest, scan_once fuel s = Parsed v rest → len rest < len s) ∧
  (∀ acc s (l : list value) rest,
     scan_elements fuel acc s = Parsed l rest → len rest < len s) ∧
  (∀ acc s (l : list (string * value)) rest,
     scan_members fuel acc s = Parsed l rest → len rest < len s).
Proof.
  induction fuel as [|fuel (IH1 & IH2 & IH3)]; [by repeat split|].
  split_and!.
  - intros s v rest. cbn [scan_once]. destruct s as [|c s]; [done|].
    intros Hs. repeat (case_match; simplify_eq);
      repeat match goal with
      | E : scan_elements fuel _ _ = Parsed _ _ |- _ => apply IH2 in E
      | E : scan_members fuel _ _ = Parsed _ _ |- _ => apply IH3 in E
      end; scan_lengths; subst; simpl in *; lia.
  - intros acc s l rest. cbn [scan_elements].
    intros Hs. repeat (case_match; simplify_eq);
      repeat match goal with
      | E : scan_once fuel _ = Parsed _ _ |- _ => apply IH1 in E
      | E : scan_elements fuel _ _ = Parsed _ _ |- _ => apply IH2 in E
      end; scan_lengths; subst; simpl in *; lia.
  - intros acc s l rest. cbn [scan_members].
    intros Hs. repeat (case_match; simplify_eq);
      repeat match goal with
      | E : scan_once fuel _ = Parsed _ _ |- _ => apply IH1 in E
      | E : scan_members fuel _ _ = Parsed _ _ |- _ => apply IH3 in E
      end; scan_lengths; subst; simpl in *; lia.
Qed.

(** With fuel for twice the length of the text, and one or two more, no
    scanner runs out. *)
Lemma scan_enough (fuel : nat) :
  (∀ s, 2 * len s + 1 ≤ fuel → scan_once fuel s ≠ OutOfFuel) ∧
  (∀ acc s, 2 * len s + 2 ≤ fuel → scan_elements fuel acc s ≠ OutOfFuel) ∧
  (∀ acc s, 2 * len s + 2 ≤ fuel → scan_members fuel acc s ≠ OutOfFuel).
Proof.
  induction fuel as [|fuel (IH1 & IH2 & IH3)]; [repeat split; intros; lia|].
  destruct (scan_shorter fuel) as (Hlt1 & _ & _).
  assert (∀ s (v : value) rest, scan_once fuel s = Parsed v rest → len rest < len s)
    as Hlt by done.
  split_and!.
  - intros s Hfuel. cbn [scan_once]. destruct s as [|c s]; [done|].
    simpl in Hfuel.
    repeat (case_match; simplify_eq); try done;
      match goal with
      | E : scan_string _ _ _ = OutOfFuel |- _ => by apply scan_string_total in E
      | E : scan_number _ = OutOfFuel |- _ => by apply scan_number_total in E
      | |- scan_float_constant _ _ ≠ OutOfFuel => apply scan_float_constant_total
      | E : scan_members fuel _ _ = OutOfFuel |- _ =>
          apply IH3 in E; [done|]; scan_lengths; lia
      | E : scan_elements fuel _ _ = OutOfFuel |- _ =>
          apply IH2 in E; [done|]; scan_lengths; lia
      end.
  - intros acc s Hfuel. cbn [scan_elements].
    repeat (case_match; simplify_eq); try done;
      match goal with
      | E : scan_once fuel _ = OutOfFuel |- _ => apply IH1 in E; [done|]; lia
      | E : scan_once fuel _ = Parsed _ _ |- _ ≠ OutOfFuel =>
          apply Hlt in E; apply IH2; scan_lengths; lia
      end.
  - intros acc s Hfuel. cbn [scan_members].
    repeat (case_match; simplify_eq); try done;
      match goal with
      | E : scan_string _ _ _ = OutOfFuel |- _ => by apply scan_string_total in E
      | E : scan_once fuel _ = OutOfFuel |- _ =>
          apply IH1 in E; [done|]; scan_lengths; lia
      | E : scan_once fuel _ = Parsed _ _ |- _ ≠ OutOfFuel =>
          apply Hlt in E; apply IH3; scan_lengths; lia
      end.
Qed.

(** [json_loads] never fails for lack of fuel: it reads the text or finds
    it invalid. *)
Lemma json_loads_total s : json_loads s ≠ OutOfFuel.
Proof.
  unfold json_loads.
  destruct (scan_once _ _) eqn:E; [by case_match|done|].
  destruct (scan_enough (2 * len s + 2)) as (Hfuel & _ & _).
  apply Hfuel in E; [done|]. pose proof (skip_ws_length s). lia.
Qed.

End ScannerFacts.

(** ** The JSON extractor *)

Section ExtractorFacts.
Context `{PyFloat}.
Implicit Types (s : string) (d : list (string * value)).

Lemma object_text_strip s d : object_text s d → Py.strip s = s.
Proof.
  intros [_ Hopen Hclose _ _ _]. unfold Py.strip.
  rewrite (rstrip_keep s "}") by done. by apply (lstrip_first _ "{").
Qed.

Lemma object_text_no_comments s d : object_text s d → _remove_json_comments s = s.
Proof.
  intros Hs. pose proof Hs as [_ _ Hclose Hline Hblock _].
  unfold _remove_json_comments.
  rewrite line_comments_clean, block_comments_clean; try done;
    try (rewrite Hclose; done).
  by eapply object_text_strip.
Qed.

(** The text of an object, taken as a candidate, gives the object. *)
Lemma try_parse_object s d : object_text s d → _try_parse_json_candidate s = Some (VDict d).
Proof.
  intros Hs. unfold _try_parse_json_candidate.
  rewrite (object_text_strip s d Hs), (object_text_no_comments s d Hs).
  destruct Hs as [Hreads Hopen _ _ _ _].
  destruct s; [done|]. simpl. by rewrite Hreads.
Qed.

(** The two replacements of [_extract_json] leave a text without backtick
    as it is. *)
Lemma remove_fences_free x :
  free_of "`"%char x = true →
  Py.replace "```" "" (Py.replace "```json" "" x) = x.
Proof.
  intros Hx. rewrite (replace_free_all "`" "``json" "" x Hx).
  by apply replace_free_all.
Qed.

Lemma eqb_app_not_empty x s y : s ≠ "" → String.eqb (x +:+ s +:+ y) "" = false.
Proof. intros Hs. by destruct x, s. Qed.

End ExtractorFacts.

(** ** Logs that have the shape of a run *)

Section LogFacts.
Context `{PyFloat}.

Lemma requests_app (l1 l2 : list event) : requests (l1 ++ l2) = requests l1 ++ requests l2.
Proof. apply omap_app. Qed.

Lemma attempt_calls_app st n (l1 l2 : list event) :
  attempt_calls st n (l1 ++ l2) = attempt_calls st n l1 + attempt_calls st n l2.
Proof. unfold attempt_calls. by rewrite List.filter_app, length_app. Qed.

(** An attempt makes one or two calls, at most one of each stage. *)
Lemma attempt_events_requests n evs : attempt_events n evs → length (requests evs) ≤ 2.
Proof. destruct 1; simpl; lia. Qed.

Lemma attempt_events_calls n evs st m :
  attempt_events n evs → attempt_calls st m evs ≤ (if m =? n then 1 else 0).
Proof.
  destruct 1; unfold attempt_calls; simpl; destruct (m =? n), st; simpl; lia.
Qed.

Lemma run_events_requests a k ext : run_events a k ext → length (requests ext) ≤ 2 * k.
Proof.
  induction 1 as [a k|a k evs Hevs|a k evs rest Hevs Hrest IH]; simpl.
  - lia.
  - apply attempt_events_requests in Hevs. lia.
  - apply attempt_events_requests in Hevs.
    rewrite requests_app, length_app. simpl. lia.
Qed.

(** The attempts of a run are numbered from its first one. *)
Lemma run_events_earlier a k ext st m :
  run_events a k ext → m < a → attempt_calls st m ext = 0.
Proof.
  induction 1 as [a k|a k evs Hevs|a k evs rest Hevs Hrest IH]; intros Hm; [done|..].
  - pose proof (attempt_events_calls a evs st m Hevs) as Hle.
    destruct (Nat.eqb_spec m a); lia.
  - pose proof (attempt_events_calls a evs st m Hevs) as Hle.
    rewrite attempt_calls_app.
    change (attempt_calls st m (Sleep a :: rest)) with (attempt_calls st m rest).
    rewrite IH by lia. destruct (Nat.eqb_spec m a); lia.
Qed.

Lemma run_events_attempt_calls a k ext st m :
  run_events a k ext → attempt_calls st m ext ≤ 1.
Proof.
  induction 1 as [a k|a k evs Hevs|a k evs rest Hevs Hrest IH].
  - unfold attempt_calls; simpl; lia.
  - pose proof (attempt_events_calls a evs st m Hevs). destruct (m =? a); lia.
  - pose proof (attempt_events_calls a evs st m Hevs) as Hle.
    rewrite attempt_calls_app.
    change (attempt_calls st m (Sleep a :: rest)) with (attempt_calls st m rest).
    destruct (Nat.eqb_spec m a) as [->|Hne]; [|lia].
    rewrite (run_events_earlier (S a) k rest st a) by (done || lia). lia.
Qed.

(** A repair call stands right after the primary call of its attempt, and
    that call's reply was text that did not extract. *)
Lemma run_events_repair a k ext i n req rep :
  run_events a k ext →
  ext !! i = Some (Call n Repair req rep) →
  ∃ j req0 raw,
    i = S j ∧ ext !! j = Some (Call n Primary req0 (Content raw)) ∧
    _extract_json raw = None.
Proof.
  intros Hrun. revert i.
  induction Hrun as [a k|a k evs Hevs|a k evs rest Hevs Hrest IH]; intros i Hi.
  - by rewrite lookup_nil in Hi.
  - destruct Hevs as [req0 rep0|req0 raw req1 rep1 Hraw].
    + destruct i as [|i]; simpl in Hi; [done | by rewrite lookup_nil in Hi].
    + destruct i as [|[|i]]; simpl in Hi; [done| |by rewrite lookup_nil in Hi].
      injection Hi as -> -> ->. by exists 0, req0, raw.
  - destruct Hevs as [req0 rep0|req0 raw req1 rep1 Hraw]; simpl in Hi.
    + destruct i as [|[|i]]; simpl in Hi; [done..|].
      destruct (IH i Hi) as (j & req' & raw' & -> & Hj & Hraw').
      by exists (S (S j)), req', raw'.
    + destruct i as [|[|[|i]]]; simpl in Hi; [done| |done|].
      * injection Hi as -> -> ->. by exists 0, req0, raw.
      * destruct (IH i Hi) as (j & req' & raw' & -> & Hj & Hraw').
        by exists (S (S (S j))), req', raw'.
Qed.

End LogFacts.

(** ** The retry loop *)

Section ServiceFacts.
Context `{PyFloat}.
Variable summarize_user_ratings_for_prompt : Z → string.
Variable get_spices_for_user : Z → list string.
Variable normalize_ingredient_units : list value → Z → list value.
Variable complete : client.

Local Abbreviation suggest :=
  (suggest_recipes_from_groq summarize_user_ratings_for_prompt get_spices_for_user
     normalize_ingredient_units complete).
Local Abbreviation loop :=
  (attempts summarize_user_ratings_for_prompt get_spices_for_user
     normalize_ingredient_units complete).

(** C8.  When the filter leaves no ingredient, the result is the error
    [No safe ingredients available.] with no recipes, and nothing was done
    to the outside: no call of the completion service. *)
Theorem no_safe_ingredients_no_call (user_id : Z) (ingredients : list item)
    (user_message : string) (user_prefs : preferences)
    (prev_recipe : option (list (string * value))) (num_recipes : Z) :
  _filter_inventory ingredients ((λ d, Py.lower (Py.strip d)) <$> dietary user_prefs) = [] →
  suggest user_id ingredients user_message user_prefs prev_recipe num_recipes =
    (Returned (VDict [("error", VStr "No safe ingredients available."); ("recipes", VList [])]),
     []).
Proof. intros Hempty. unfold suggest_recipes_from_groq. by rewrite Hempty. Qed.

Section LoopFacts.
Variables (user_id : Z) (user_message : string)
          (prev_recipe : option (list (string * value))) (num_recipes : Z)
          (tags : list string) (allergens : list string) (safe_inv : list item).

Local Abbreviation run := (loop user_id user_message prev_recipe num_recipes tags allergens safe_inv).
Local Abbreviation the_request :=
  (primary_request summarize_user_ratings_for_prompt get_spices_for_user
     user_id user_message prev_recipe num_recipes tags allergens safe_inv).

(** Closes the cases of an attempt once its events are known. *)
Ltac after_events :=
  repeat match goal with
  | |- context [match normalized_input_recipes ?p with _ => _ end] =>
      destruct (normalized_input_recipes p) as [[|? ?]|]
  | |- context [if ?a <? MAX_ATTEMPTS then _ else _] =>
      destruct (Nat.ltb_spec a MAX_ATTEMPTS)
  end;
  first
    [ right; split; [done|]; eexists; by rewrite <-?app_assoc
    | left; eexists; split; [by rewrite <-?app_assoc|]; simpl;
      first [ done
            | left; by eexists
            | right; split; [lia|]; eexists; split; [done|];
              unfold recorded_error; eauto ] ].

(** An attempt puts its events in the log; then it ends the run, or, when
    it is not the last one, it sleeps and the loop goes on with the
    attempts left. *)
Lemma attempts_step (a : nat) (todo : list nat) (last_error : string) (log : list event) :
  ∃ evs,
    attempt_events a evs ∧
    ((∃ out, run (a :: todo) last_error log = (out, log ++ evs) ∧ ends_run user_id a out) ∨
     (a < MAX_ATTEMPTS ∧
      ∃ e, run (a :: todo) last_error log = run todo e (log ++ evs ++ [Sleep a]))).
Proof.
  simpl. set (req := the_request).
  destruct (complete (requests log) req) as [raw|msg] eqn:Erep.
  - destruct (_extract_json raw) as [parsed|] eqn:Eraw.
    + exists [Call a Primary req (Content raw)]. split; [constructor|]. after_events.
    + unfold _repair_json_via_groq.
      set (history := requests (log ++ [Call a Primary req (Content raw)])).
      set (req' := repair_request raw).
      exists [Call a Primary req (Content raw); Call a Repair req' (complete history req')].
      split; [by constructor|].
      destruct (complete history req') as [fixed|msg];
        [destruct (_extract_json fixed) as [parsed|]|]; after_events.
  - exists [Call a Primary req (ApiError msg)]. split; [constructor|]. after_events.
Qed.

(** The events a run of the loop adds to the log have the shape of a run. *)
Lemma attempts_run (k a : nat) (last_error : string) (log : list event) :
  ∃ ext, (run (seq a k) last_error log).2 = log ++ ext ∧ run_events a k ext.
Proof.
  revert a last_error log. induction k as [|k IH]; intros a last_error log.
  - exists []. split; [by rewrite app_nil_r | constructor].
  - change (seq a (S k)) with (a :: seq (S a) k).
    destruct (attempts_step a (seq (S a) k) last_error log)
      as (evs & Hevs & [(out & -> & _)|(_ & e' & ->)]).
    + exists evs. split; [done | by apply run_stop].
    + destruct (IH (S a) e' (log ++ evs ++ [Sleep a])) as (ext & -> & Hext).
      exists (evs ++ Sleep a :: ext). split; [|by apply run_retry].
      by rewrite <-!app_assoc.
Qed.

(** A loop over the attempts up to the last one ends within them: the
    statement after the loop is not reached. *)
Lemma attempts_end_within (k a : nat) (last_error : string) (log : list event) :
  a + k = S MAX_ATTEMPTS → 0 < k →
  ∃ b, a ≤ b ∧ ends_run user_id b (run (seq a k) last_error log).1.
Proof.
  revert a last_error log. induction k as [|k IH]; intros a last_error log Hak Hk; [lia|].
  change (seq a (S k)) with (a :: seq (S a) k).
  destruct (attempts_step a (seq (S a) k) last_error log)
    as (evs & _ & [(out & -> & Hout)|(Hlt & e' & ->)]).
  - by exists a.
  - destruct (IH (S a) e' (log ++ evs ++ [Sleep a])) as (b & Hb & Hend); [lia..|].
    exists b. split; [lia|done].
Qed.

(** With a service whose every reply is text that does not extract, an
    attempt makes its two calls and goes on, or stops if it is the last. *)
Lemma attempt_unparsable (a : nat) (todo : list nat) (last_error : string) (log : list event) :
  (∀ history req, ∃ text, complete history req = Content text ∧ _extract_json text = None) →
  ∃ req raw req' raw',
    let evs := [Call a Primary req (Content raw); Call a Repair req' (Content raw')] in
    run (a :: todo) last_error log =
      if a <? MAX_ATTEMPTS
      then run todo "Invalid JSON returned from Groq" (log ++ evs ++ [Sleep a])
      else (Returned (error_result "Invalid JSON returned from Groq"), log ++ evs).
Proof.
  intros Hbad. simpl. set (req := the_request).
  destruct (Hbad (requests log) req) as (raw & -> & ->).
  unfold _repair_json_via_groq.
  destruct (Hbad (requests (log ++ [Call a Primary req (Content raw)])) (repair_request raw))
    as (raw' & -> & ->).
  exists req, raw, (repair_request raw), raw'. simpl.
  by rewrite <-!app_assoc.
Qed.

(** With such a service the loop uses every attempt it is given and ends
    in an error result. *)
Lemma attempts_unparsable (k a : nat) (last_error : string) (log : list event) :
  (∀ history req, ∃ text, complete history req = Content text ∧ _extract_json text = None) →
  a + k = S MAX_ATTEMPTS → 0 < k →
  ∃ ext,
    run (seq a k) last_error log =
      (Returned (error_result "Invalid JSON returned from Groq"), log ++ ext) ∧
    stage_calls Primary ext = k ∧ stage_calls Repair ext = k ∧
    length (requests ext) = 2 * k.
Proof.
  intros Hbad. revert a last_error log.
  induction k as [|k IH]; intros a last_error log Hak Hk; [lia|].
  change (seq a (S k)) with (a :: seq (S a) k).
  destruct (attempt_unparsable a (seq (S a) k) last_error log Hbad)
    as (req & raw & req' & raw' & ->). cbv zeta.
  destruct (Nat.ltb_spec a MAX_ATTEMPTS) as [Hlt|Hge].
  - destruct (IH (S a) "Invalid JSON returned from Groq"
                (log ++ [Call a Primary req (Content raw); Call a Repair req' (Content raw')]
                     ++ [Sleep a])) as (ext & -> & Hp & Hr & Hn); [lia..|].
    eexists. split; [by rewrite <-!app_assoc|].
    simpl. unfold stage_calls in *. simpl. rewrite Hp, Hr, Hn. lia.
  - assert (k = 0) as -> by lia.
    eexists. split; [done|]. done.
Qed.

End LoopFacts.

(** C10.  In every run the completion service is called at most twice
    [MAX_ATTEMPTS] times: each attempt makes at most one primary call and at
    most one repair call, and a repair call stands right after the primary
    call of its attempt, whose reply was text that did not extract. *)
Theorem completion_calls_bounded (user_id : Z) (ingredients : list item)
    (user_message : string) (user_prefs : preferences)
    (prev_recipe : option (list (string * value))) (num_recipes : Z) :
  let log := (suggest user_id ingredients user_message user_prefs prev_recipe num_recipes).2 in
  length (requests log) ≤ 2 * MAX_ATTEMPTS ∧
  (∀ n, attempt_calls Primary n log ≤ 1 ∧ attempt_calls Repair n log ≤ 1) ∧
  (∀ i n req rep,
     log !! i = Some (Call n Repair req rep) →
     ∃ j req0 raw,
       i = S j ∧ log !! j = Some (Call n Primary req0 (Content raw)) ∧
       _extract_json raw = None).
Proof.
  intros log.
  assert (run_events 1 MAX_ATTEMPTS log) as Hrun.
  { unfold log, suggest_recipes_from_groq.
    destruct (_filter_inventory _ _) as [|it safe_inv]; [constructor|].
    destruct (attempts_run user_id user_message prev_recipe num_recipes
                ((λ d, Py.lower (Py.strip d)) <$> dietary user_prefs) (allergies user_prefs)
                (it :: safe_inv) MAX_ATTEMPTS 1 "" []) as (ext & Heq & Hext).
    by rewrite Heq. }
  split; [by eapply run_events_requests|].
  split; [intros n; split; by eapply run_events_attempt_calls|].
  intros i n req rep. by eapply run_events_repair.
Qed.

(** C1.  When the filter leaves an ingredient and every reply of the
    completion service is text that does not extract, the run makes
    [MAX_ATTEMPTS] attempts: [MAX_ATTEMPTS] primary calls, each with its
    repair call as a sub-call.  It then returns the bare error of the last
    attempt, [Invalid JSON returned from Groq], with no recipes: not the
    message [... failed after 4 attempts: ...] of an exhausted run, which
    only the statement after the loop builds. *)
Theorem unparsable_replies_use_every_attempt (user_id : Z) (ingredients : list item)
    (user_message : string) (user_prefs : preferences)
    (prev_recipe : option (list (string * value))) (num_recipes : Z) :
  _filter_inventory ingredients ((λ d, Py.lower (Py.strip d)) <$> dietary user_prefs) ≠ [] →
  (∀ history req, ∃ text, complete history req = Content text ∧ _extract_json text = None) →
  ∃ log,
    suggest user_id ingredients user_message user_prefs prev_recipe num_recipes =
      (Returned (VDict [("error", VStr "Invalid JSON returned from Groq");
                        ("recipes", VList [])]), log) ∧
    stage_calls Primary log = MAX_ATTEMPTS ∧
    stage_calls Repair log = MAX_ATTEMPTS ∧
    length (requests log) = 2 * MAX_ATTEMPTS.
Proof.
  intros Hsafe Hbad. unfold suggest_recipes_from_groq.
  destruct (_filter_inventory _ _) as [|it safe_inv]; [done|].
  destruct (attempts_unparsable user_id user_message prev_recipe num_recipes
              ((λ d, Py.lower (Py.strip d)) <$> dietary user_prefs) (allergies user_prefs)
              (it :: safe_inv) MAX_ATTEMPTS 1 "" [] Hbad)
    as (ext & -> & Hp & Hr & Hn); [done|unfold MAX_ATTEMPTS; lia|].
  by exists ext.
Qed.

(** Every error result carries a bare description: that of the filter, or
    the error the last attempt recorded.  The message of the statement
    after the loop, [Groq failed after 4 attempts: ...], is never
    returned. *)
Theorem error_results_are_bare (user_id : Z) (ingredients : list item)
    (user_message : string) (user_prefs : preferences)
    (prev_recipe : option (list (string * value))) (num_recipes : Z)
    (msg : string) (recipes : value) (log : list event) :
  suggest user_id ingredients user_message user_prefs prev_recipe num_recipes =
    (Returned (VDict [("error", VStr msg); ("recipes", recipes)]), log) →
  recipes = VList [] ∧
  (msg = "No safe ingredients available." ∨ recorded_error msg).
Proof.
  unfold suggest_recipes_from_groq.
  destruct (_filter_inventory _ _) as [|it safe_inv].
  { intros [= <- <- _]. split; [done|by left]. }
  intros Hrun.
  destruct (attempts_end_within user_id user_message prev_recipe num_recipes
              ((λ d, Py.lower (Py.strip d)) <$> dietary user_prefs) (allergies user_prefs)
              (it :: safe_inv) MAX_ATTEMPTS 1 "" []) as (b & _ & Hend);
    [done|unfold MAX_ATTEMPTS; lia|].
  rewrite Hrun in Hend. simpl in Hend.
  destruct Hend as [(rs & [=])|(_ & msg' & [= -> ->] & Hbare)].
  split; [done|by right].
Qed.

End ServiceFacts.

(** ** Texts: white space, comments and balanced groups *)

Section StripFacts.
Implicit Types (s t x y : string) (a c : ascii).

Lemma rstrip_app x y :
  Py.rstrip (x +:+ y) = match Py.rstrip y with "" => Py.rstrip x | r => x +:+ r end.
Proof.
  induction x as [|a x IH].
  { change ("" +:+ y) with y. by destruct (Py.rstrip y). }
  rewrite app_cons. cbn [Py.rstrip]. rewrite IH.
  destruct (Py.rstrip y) as [|b r]; [done|].
  rewrite app_cons. by destruct x.
Qed.

Lemma rstrip_idemp s : Py.rstrip (Py.rstrip s) = Py.rstrip s.
Proof.
  induction s as [|a s IH]; [done|]. cbn [Py.rstrip].
  destruct (Py.rstrip s) as [|b r] eqn:E.
  - destruct (Py.isspace a) eqn:Ea; [done|]. simpl. by rewrite Ea.
  - cbn [Py.rstrip]. cbn [Py.rstrip] in IH. by rewrite IH.
Qed.

Lemma lstrip_idemp s : Py.lstrip (Py.lstrip s) = Py.lstrip s.
Proof.
  induction s as [|a s IH]; [done|]. simpl.
  destruct (Py.isspace a) eqn:Ea; [done|]. simpl. by rewrite Ea.
Qed.

(** What [rstrip] leaves alone, it leaves alone after [lstrip] too. *)
Lemma rstrip_lstrip s : Py.rstrip s = s → Py.rstrip (Py.lstrip s) = Py.lstrip s.
Proof.
  induction s as [|a s IH]; [done|]. intros Hs. cbn [Py.lstrip].
  destruct (Py.isspace a) eqn:Ea; [|done].
  apply IH. cbn [Py.rstrip] in Hs. rewrite Ea in Hs.
  destruct (Py.rstrip s); [done|]. by injection Hs.
Qed.

Lemma strip_idemp s : Py.strip (Py.strip s) = Py.strip s.
Proof.
  unfold Py.strip. rewrite rstrip_lstrip by apply rstrip_idemp. apply lstrip_idemp.
Qed.

(** White space around a text does not change what [strip] gives. *)
Lemma strip_pad pre s post :
  all_space pre = true → all_space post = true →
  Py.strip (pre +:+ s +:+ post) = Py.strip s.
Proof.
  intros Hpre Hpost. unfold Py.strip.
  rewrite rstrip_app, (rstrip_app s post), (rstrip_space post Hpost).
  destruct (Py.rstrip s) as [|b r] eqn:E.
  - by rewrite (rstrip_space pre Hpre).
  - by rewrite lstrip_space_app.
Qed.

Lemma strip_space s : all_space s = true → Py.strip s = "".
Proof. intros Hs. unfold Py.strip. by rewrite rstrip_space. Qed.

Lemma free_of_lstrip c s : free_of c s = true → free_of c (Py.lstrip s) = true.
Proof.
  induction s as [|a s IH]; [done|]. intros Hs. simpl.
  destruct (Py.isspace a); [|done]. apply IH. simpl in Hs. by apply andb_prop in Hs as [_ ?].
Qed.

Lemma free_of_strip c s : free_of c s = true → free_of c (Py.strip s) = true.
Proof. intros. by apply free_of_lstrip, free_of_rstrip. Qed.

End StripFacts.

Section CommentFacts.
Implicit Types (s t x y : string) (a c : ascii).

Lemma contains_tail p a s : Py.contains p (String a s) = false → Py.contains p s = false.
Proof. by intros [_ ?]%contains_cons. Qed.

Lemma free_of_contains c p s : free_of c s = true → Py.contains (String c p) s = false.
Proof.
  induction s as [|a s IH]; [done|]. simpl.
  intros [Ha Hs]%andb_prop. rewrite IH by done. rewrite orb_false_r.
  apply startswith_head. destruct (Ascii.eqb_spec a c); done.
Qed.

(** Without [//] the removal of line comments changes nothing. *)
Lemma line_comments_none x : Py.contains "//" x = false → strip_line_comments false x = x.
Proof.
  induction x as [|a x IH]; [done|].
  intros [Hstart Hrest]%contains_cons. cbn [strip_line_comments].
  by rewrite Hstart, IH.
Qed.

(** Without [*/] no block comment is closed, and none is removed. *)
Lemma block_comments_unclosed x : Py.contains "*/" x = false → strip_block_comments Code x = x.
Proof.
  induction x as [|a x IH]; [done|].
  intros Hx. pose proof (contains_tail _ _ _ Hx) as Hrest.
  cbn [strip_block_comments].
  destruct (Py.strip_prefix "/*" (String a x)) as [body|] eqn:E; [|by rewrite IH].
  assert (Py.contains "*/" body = false) as ->; [|by rewrite IH].
  rewrite strip_prefix_cons in E. destruct (Ascii.eqb "/" a); [|done].
  destruct x as [|b x]; [done|]. rewrite strip_prefix_cons in E.
  destruct (Ascii.eqb "*" b); [|done]. injection E as <-.
  by eapply contains_tail.
Qed.

(** A text that holds no [//] and no [*/] loses nothing to the removal of
    comments but the white space around it: a [/*] that is never closed
    stays. *)
Theorem comments_need_both_markers (text : string) :
  Py.contains "//" text = false → Py.contains "*/" text = false →
  _remove_json_comments text = Py.strip text.
Proof.
  intros Hline Hblock. unfold _remove_json_comments.
  by rewrite line_comments_none, block_comments_unclosed.
Qed.


(** After [//] the rest of the line goes. *)
Lemma line_comment_to_newline note y :
  free_of Py.newline note = true →
  strip_line_comments true (note +:+ nl +:+ y) = nl +:+ strip_line_comments false y.
Proof.
  induction note as [|a note IH]; [done|].
  intros Hn. simpl in Hn. apply andb_prop in Hn as [Ha Hn].
  rewrite app_cons. cbn [strip_line_comments].
  destruct (Ascii.eqb a Py.newline); [done|]. by apply IH.
Qed.

Lemma line_comments_free x y :
  free_of "/" x = true →
  strip_line_comments false (x +:+ y) = x +:+ strip_line_comments false y.
Proof.
  induction x as [|a x IH]; [done|].
  intros Hx. simpl in Hx. apply andb_prop in Hx as [Ha Hx].
  rewrite !app_cons. cbn [strip_line_comments].
  rewrite startswith_head by (destruct (Ascii.eqb_spec a "/"); done).
  by rewrite IH.
Qed.

Lemma block_comments_free x y :
  free_of "/" x = true →
  strip_block_comments Code (x +:+ y) = x +:+ strip_block_comments Code y.
Proof.
  induction x as [|a x IH]; [done|].
  intros Hx. simpl in Hx. apply andb_prop in Hx as [Ha Hx].
  rewrite !app_cons. cbn [strip_block_comments].
  rewrite strip_prefix_cons.
  destruct (Ascii.eqb_spec "/" a) as [<-|]; [done|]. by rewrite IH.
Qed.

Lemma line_comments_free_all x : free_of "/" x = true → strip_line_comments false x = x.
Proof. intros. apply line_comments_none. by apply free_of_contains. Qed.

Lemma block_comments_free_all x : free_of "/" x = true → strip_block_comments Code x = x.
Proof.
  intros Hx. rewrite <-(app_empty_r x) at 1.
  rewrite block_comments_free by done. by rewrite app_empty_r.
Qed.

(** A line comment goes from its [//] to the end of its line, and the
    line feed stays; at the end of the text the white space before the
    comment goes too. *)
Theorem line_comment_is_cut (x note y : string) :
  free_of "/" x = true → free_of Py.newline note = true → free_of "/" y = true →
  _remove_json_comments (x +:+ "//" +:+ note) = Py.strip x ∧
  _remove_json_comments (x +:+ "//" +:+ note +:+ nl +:+ y) = Py.strip (x +:+ nl +:+ y).
Proof.
  intros Hx Hnote Hy. unfold _remove_json_comments. split.
  - rewrite line_comments_free by done.
    change (strip_line_comments false ("//" +:+ note))
      with (strip_line_comments true note).
    rewrite line_comment_to_end by done.
    by rewrite app_empty_r, block_comments_free_all.
  - rewrite line_comments_free by done.
    change (strip_line_comments false ("//" +:+ note +:+ nl +:+ y))
      with (strip_line_comments true (note +:+ nl +:+ y)).
    rewrite line_comment_to_newline, line_comments_free_all by done.
    rewrite block_comments_free_all; [done|].
    by rewrite !free_of_app, Hx, Hy.
Qed.

(** Inside a block comment everything goes up to the first [*/]. *)
Lemma block_comment_body body y :
  free_of "/" body = true →
  strip_block_comments Comment (body +:+ "*/" +:+ y) = strip_block_comments Code y.
Proof.
  induction body as [|a body IH]; [by destruct y|].
  intros Hb. simpl in Hb. apply andb_prop in Hb as [Ha Hb].
  rewrite app_cons. cbn [strip_block_comments].
  assert (Py.startswith "*/" (String a (body +:+ "*/" +:+ y)) = false) as ->; [|by apply IH].
  rewrite startswith_cons. destruct (Ascii.eqb "*" a); [|done].
  destruct body as [|b body]; [done|]. simpl in Hb. apply andb_prop in Hb as [Hb _].
  rewrite app_cons. apply startswith_head. destruct (Ascii.eqb_spec b "/"); done.
Qed.

Lemma contains_app_r p x y : Py.contains p y = true → Py.contains p (x +:+ y) = true.
Proof.
  intros Hy. induction x as [|a x IH]; [done|].
  rewrite app_cons. simpl. rewrite IH. apply orb_true_r.
Qed.

Lemma line_comments_lone_slash y :
  free_of "/" y = true → strip_line_comments false ("/" +:+ y) = "/" +:+ y.
Proof.
  intros Hy. apply line_comments_none.
  change (Py.contains "//" ("/" +:+ y))
    with (Py.startswith "//" (String "/" y) || Py.contains "//" y).
  rewrite (free_of_contains "/" "/" y Hy), orb_false_r.
  destruct y as [|b y]; [done|]. simpl in Hy. apply andb_prop in Hy as [Hb _].
  rewrite startswith_cons, startswith_head; [done|].
  destruct (Ascii.eqb_spec b "/"); done.
Qed.

(** A block comment goes from its [/*] to its [*/], over line feeds too,
    and what stood around it is joined. *)
Theorem block_comment_is_cut (x body y : string) :
  free_of "/" x = true → free_of "/" body = true → free_of "/" y = true →
  _remove_json_comments (x +:+ "/*" +:+ body +:+ "*/" +:+ y) = Py.strip (x +:+ y).
Proof.
  intros Hx Hbody Hy. unfold _remove_json_comments.
  assert (strip_line_comments false (x +:+ "/*" +:+ body +:+ "*/" +:+ y)
          = x +:+ "/*" +:+ body +:+ "*/" +:+ y) as ->.
  { rewrite line_comments_free by done. f_equal.
    change (strip_line_comments false ("/*" +:+ body +:+ "*/" +:+ y))
      with ("/*" +:+ strip_line_comments false (body +:+ "*/" +:+ y)).
    rewrite line_comments_free by done.
    change (strip_line_comments false ("*/" +:+ y))
      with ("*" +:+ strip_line_comments false ("/" +:+ y)).
    by rewrite line_comments_lone_slash. }
  rewrite block_comments_free by done. f_equal. f_equal.
  change ("/*" +:+ body +:+ "*/" +:+ y) with (String "/" ("*" +:+ body +:+ "*/" +:+ y)).
  cbn [strip_block_comments].
  change (Py.strip_prefix "/*" (String "/" ("*" +:+ body +:+ "*/" +:+ y)))
    with (Some (body +:+ "*/" +:+ y)).
  cbv iota. rewrite (contains_app_r "*/" body ("*/" +:+ y)) by done.
  change (strip_block_comments Opening ("*" +:+ body +:+ "*/" +:+ y))
    with (strip_block_comments Comment (body +:+ "*/" +:+ y)).
  rewrite block_comment_body by done. by apply block_comments_free_all.
Qed.

End CommentFacts.

Section SnippetFacts.
Implicit Types (s t x y : string) (a c : ascii).


Lemma from_first_brace_split s rest :
  from_first_brace s = Some rest →
  ∃ pre, s = pre +:+ rest ∧ free_of "{" pre = true ∧ first_char rest = Some "{"%char.
Proof.
  induction s as [|a s IH]; [done|]. simpl.
  destruct (Ascii.eqb_spec a "{") as [->|Hne].
  - intros [= <-]. by exists "".
  - intros (pre & -> & Hpre & Hfirst)%IH. exists (String a pre).
    split; [done|]. split; [|done]. simpl. rewrite Hpre.
    by destruct (Ascii.eqb_spec a "{").
Qed.

(** The braces open in [s] beyond those closed, on top of [depth]. *)
Local Abbreviation brace_depth depth s :=
  (depth + Z.of_nat (count_char "{" s) - Z.of_nat (count_char "}" s))%Z.

Lemma brace_depth_cons depth a s :
  brace_depth depth (String a s) =
  brace_depth (if Ascii.eqb a "{" then depth + 1
               else if Ascii.eqb a "}" then depth - 1 else depth)%Z s.
Proof.
  simpl.
  destruct (Ascii.eqb_spec a "{") as [->|]; [simpl; lia|].
  destruct (Ascii.eqb_spec a "}") as [->|]; simpl; lia.
Qed.

(** What the loop returns ends at the first closing brace that brings the
    depth to 0. *)
Lemma take_balanced_split depth s x :
  (1 ≤ depth)%Z →
  take_balanced depth s = Some x →
  (∃ post, s = x +:+ post) ∧ last_char x = Some "}"%char ∧ brace_depth depth x = 0%Z ∧
  ∀ p q, x = p +:+ q → q ≠ "" → (1 ≤ brace_depth depth p)%Z.
Proof.
  revert depth x. induction s as [|a s IH]; intros depth x Hdepth; [done|].
  assert (∀ depth' x',
    (1 ≤ depth')%Z →
    depth' = (if Ascii.eqb a "{" then depth + 1
              else if Ascii.eqb a "}" then depth - 1 else depth)%Z →
    take_balanced depth' s = Some x' →
    (∃ post, String a s = String a x' +:+ post) ∧ last_char (String a x') = Some "}"%char ∧
    brace_depth depth (String a x') = 0%Z ∧
    ∀ p q, String a x' = p +:+ q → q ≠ "" → (1 ≤ brace_depth depth p)%Z) as Hstep.
  { intros depth' x' Hpos Hd' Hx'. apply IH in Hx' as ([post ->] & Hlast & Hzero & Hmin); [|done].
    split; [by exists post|]. split.
    { simpl. destruct x'; [done|exact Hlast]. }
    split; [by rewrite brace_depth_cons, <-Hd'|].
    intros p q Hpq Hq. destruct p as [|b p]; [simpl; lia|].
    rewrite app_cons in Hpq. injection Hpq as <- ->.
    rewrite brace_depth_cons, <-Hd'. by eapply Hmin. }
  cbn [take_balanced].
  destruct (Ascii.eqb a "{") eqn:Eopen.
  { destruct (take_balanced (depth + 1) s) as [x'|] eqn:E; [|done].
    intros [= <-]. eapply Hstep; [|done..]. lia. }
  destruct (Ascii.eqb a "}") eqn:Eclose.
  { destruct (depth - 1 =? 0)%Z eqn:Ez.
    - intros [= <-]. apply Z.eqb_eq in Ez.
      split; [by exists s|]. split; [by apply Ascii.eqb_eq in Eclose as ->|].
      split; [rewrite brace_depth_cons, Eopen, Eclose; simpl; lia|].
      intros p q Hpq Hq. destruct p as [|b [|b' p]]; [simpl; lia|by destruct q|done].
    - apply Z.eqb_neq in Ez.
      destruct (take_balanced (depth - 1) s) as [x'|] eqn:E; [|done].
      intros [= <-]. eapply Hstep; [|done..]. lia. }
  destruct (take_balanced depth s) as [x'|] eqn:E; [|done].
  intros [= <-]. by eapply Hstep.
Qed.

(** The snippet is the stretch from the first opening brace to the first
    closing brace that balances it: before it the text holds no opening
    brace, it opens and closes with a brace and has as many opening as
    closing braces, and no proper head of it is balanced. *)
Theorem balanced_snippet_is_first_group (text snip : string) :
  _balanced_json_snippet text = Some snip →
  ∃ pre post,
    text = pre +:+ snip +:+ post ∧ free_of "{" pre = true ∧
    first_char snip = Some "{"%char ∧ last_char snip = Some "}"%char ∧
    count_char "{" snip = count_char "}" snip ∧
    ∀ p q, snip = p +:+ q → p ≠ "" → q ≠ "" → count_char "}" p < count_char "{" p.
Proof.
  unfold _balanced_json_snippet.
  destruct (from_first_brace text) as [rest|] eqn:Efirst; [|done].
  apply from_first_brace_split in Efirst as (pre & -> & Hpre & Hopen).
  destruct rest as [|a rest]; [done|]. injection Hopen as ->.
  cbn [take_balanced]. change (Ascii.eqb "{" "{") with true. cbv iota.
  destruct (take_balanced (0 + 1) rest) as [x|] eqn:E; [|done].
  intros [= <-].
  apply take_balanced_split in E as ([post ->] & Hlast & Hzero & Hmin); [|done].
  exists pre, post. split; [done|]. split; [done|]. split; [done|].
  split; [simpl; by destruct x|].
  split; [simpl; lia|].
  intros p q Hpq Hp Hq. destruct p as [|b p]; [done|].
  rewrite app_cons in Hpq. injection Hpq as <- ->.
  specialize (Hmin p q eq_refl Hq). simpl. lia.
Qed.


(** The loop finds a closing brace whenever some head of the text brings
    the depth to 0. *)
Lemma take_balanced_finds depth s p q :
  (1 ≤ depth)%Z → s = p +:+ q → brace_depth depth p = 0%Z →
  is_Some (take_balanced depth s).
Proof.
  revert depth p. induction s as [|a s IH]; intros depth p Hdepth Hs Hzero.
  { destruct p; [simpl in Hzero; lia|done]. }
  destruct p as [|b p]; [simpl in Hzero; lia|].
  rewrite app_cons in Hs. injection Hs as <- ->.
  rewrite brace_depth_cons in Hzero. cbn [take_balanced].
  destruct (Ascii.eqb a "{").
  { destruct (IH (depth + 1)%Z p) as [x ->]; [lia|done..|by eexists]. }
  destruct (Ascii.eqb a "}").
  { destruct (Z.eqb_spec (depth - 1) 0); [by eexists|].
    destruct (IH (depth - 1)%Z p) as [x ->]; [lia|done..|by eexists]. }
  destruct (IH depth p) as [x ->]; [lia|done..|by eexists].
Qed.

(** A snippet is found exactly when the text, from its first opening
    brace, has a head with as many closing as opening braces. *)
Theorem balanced_snippet_found_iff (text : string) :
  is_Some (_balanced_json_snippet text) ↔
  ∃ pre group post,
    text = pre +:+ group +:+ post ∧ free_of "{" pre = true ∧
    first_char group = Some "{"%char ∧ count_char "{" group = count_char "}" group.
Proof.
  split.
  - intros [snip Hsnip]. unfold _balanced_json_snippet in Hsnip.
    destruct (from_first_brace text) as [rest|] eqn:Efirst; [|done].
    apply from_first_brace_split in Efirst as (pre & -> & Hpre & Hopen).
    destruct rest as [|a rest]; [done|]. injection Hopen as ->.
    cbn [take_balanced] in Hsnip. change (Ascii.eqb "{" "{") with true in Hsnip.
    destruct (take_balanced (0 + 1) rest) as [x|] eqn:E; [|done].
    apply take_balanced_split in E as ([post ->] & _ & Hzero & _); [|done].
    exists pre, (String "{" x), post. split_and!; [done..|simpl; lia].
  - intros (pre & group & post & -> & Hpre & Hopen & Hcount).
    unfold _balanced_json_snippet.
    rewrite from_first_brace_app by (done || by apply first_char_app).
    destruct group as [|a group]; [done|]. injection Hopen as ->.
    rewrite app_cons. cbn [take_balanced]. change (Ascii.eqb "{" "{") with true. cbv iota.
    destruct (take_balanced_finds (0 + 1) (group +:+ post) group post) as [x ->];
      [done|done|simpl in Hcount; lia|by eexists].
Qed.

End SnippetFacts.

(** ** Fences and comments put into a text *)

Section FenceFacts.
Implicit Types (s t x y z : string) (a c : ascii).

Lemma startswith_longer p q s : Py.startswith p s = false → Py.startswith (p +:+ q) s = false.
Proof.
  revert s. induction p as [|a p IH]; intros s; [done|].
  destruct s as [|b s]; [done|]. rewrite app_cons, !startswith_cons.
  destruct (Ascii.eqb a b); [apply IH|done].
Qed.

Lemma contains_longer p q s : Py.contains p s = false → Py.contains (p +:+ q) s = false.
Proof.
  induction s as [|b s IH]; simpl.
  - rewrite !orb_false_r. apply startswith_longer.
  - intros [Hs Hc]%orb_false_elim. by rewrite startswith_longer, IH.
Qed.

(** A text without fence that does not end in a backtick starts no fence,
    whatever follows it. *)
Lemma no_fence_head tail a x y :
  Py.contains "```" (String a x) = false → last_char (String a x) ≠ Some "`"%char →
  Py.startswith ("```" +:+ tail) (String a (x +:+ y)) = false.
Proof.
  intros Hx Hlast. apply startswith_longer.
  apply contains_cons in Hx as [Hstart _].
  rewrite startswith_cons in *.
  destruct (Ascii.eqb_spec "`" a) as [<-|]; [|done]. simpl in *.
  destruct x as [|b x]; [done|]. rewrite app_cons, startswith_cons in *.
  destruct (Ascii.eqb_spec "`" b) as [<-|]; [|done]. simpl in *.
  destruct x as [|c x]; [done|]. rewrite app_cons, startswith_cons in *.
  destruct (Ascii.eqb_spec "`" c) as [<-|]; [|done]. done.
Qed.

Lemma last_char_tail a x : x ≠ "" → last_char (String a x) = last_char x.
Proof. by destruct x. Qed.

Lemma replace_no_fence_tail tail new x y :
  Py.contains "```" x = false → last_char x ≠ Some "`"%char →
  Py.replace ("```" +:+ tail) new (x +:+ y) = x +:+ Py.replace ("```" +:+ tail) new y.
Proof.
  unfold Py.replace. set (old := "```" +:+ tail).
  induction x as [|a x IH]; [done|].
  intros Hx Hlast. rewrite (app_cons a x y).
  cbn [Py.replace_go].
  unfold old at 1. rewrite no_fence_head by done.
  rewrite IH; [done|by eapply contains_tail|].
  destruct x as [|b x]; [done|]. by rewrite last_char_tail in Hlast.
Qed.

Lemma replace_no_fence_all_tail tail new x :
  Py.contains "```" x = false → Py.replace ("```" +:+ tail) new x = x.
Proof.
  unfold Py.replace. set (old := "```" +:+ tail).
  induction x as [|a x IH]; [done|].
  intros [Hstart Hrest]%contains_cons.
  cbn [Py.replace_go].
  unfold old at 1. rewrite startswith_longer by done. by rewrite IH.
Qed.

Lemma replace_no_fence x y :
  Py.contains "```" x = false → last_char x ≠ Some "`"%char →
  Py.replace "```" "" (x +:+ y) = x +:+ Py.replace "```" "" y.
Proof. exact (replace_no_fence_tail "" "" x y). Qed.

Lemma replace_no_json_fence x y :
  Py.contains "```" x = false → last_char x ≠ Some "`"%char →
  Py.replace "```json" "" (x +:+ y) = x +:+ Py.replace "```json" "" y.
Proof. exact (replace_no_fence_tail "json" "" x y). Qed.

Lemma replace_no_fence_all x : Py.contains "```" x = false → Py.replace "```" "" x = x.
Proof. exact (replace_no_fence_all_tail "" "" x). Qed.

Lemma replace_no_json_fence_all x :
  Py.contains "```" x = false → Py.replace "```json" "" x = x.
Proof. exact (replace_no_fence_all_tail "json" "" x). Qed.

(** A fence without label is no fence labelled json. *)
Lemma replace_plain_fence z :
  after_fence z → Py.replace "```json" "" ("```" +:+ z) = "```" +:+ Py.replace "```json" "" z.
Proof.
  intros [Hfirst Hjson]. unfold Py.replace.
  change ("```" +:+ z) with (String "`" (String "`" (String "`" z))).
  cbn [Py.replace_go].
  assert (Py.startswith "```json" (String "`" (String "`" (String "`" z))) = false) as ->.
  { rewrite !startswith_cons. by rewrite Hjson. }
  assert (Py.startswith "```json" (String "`" (String "`" z)) = false) as ->.
  { rewrite !startswith_cons. destruct z as [|a z]; [done|].
    rewrite startswith_cons. destruct (Ascii.eqb_spec "`" a) as [<-|]; done. }
  assert (Py.startswith "```json" (String "`" z) = false) as ->; [|done].
  rewrite !startswith_cons. destruct z as [|a z]; [done|].
  rewrite startswith_cons. destruct (Ascii.eqb_spec "`" a) as [<-|]; done.
Qed.

(** The two replacements of [_extract_json] take the fences out. *)
Lemma unfence u text :
  fenced u text → Py.replace "```" "" (Py.replace "```json" "" text) = u.
Proof.
  intros [p opening m closing q Hopening Hclosing Hp Hp' Hm Hm' Hq].
  assert (Py.replace "```json" "" (closing +:+ q) = closing +:+ q) as Hq1.
  { destruct Hclosing as [->|[-> Hafter]].
    - by apply replace_no_json_fence_all.
    - rewrite replace_plain_fence by done.
      by rewrite replace_no_json_fence_all. }
  assert (Py.replace "```" "" (closing +:+ q) = q) as Hq2.
  { destruct Hclosing as [->|[-> Hafter]].
    - by apply replace_no_fence_all.
    - change (Py.replace "```" "" ("```" +:+ q)) with (Py.replace "```" "" q).
      by apply replace_no_fence_all. }
  assert (Py.replace "```" "" (m +:+ closing +:+ q) = m +:+ q) as Hm2.
  { rewrite replace_no_fence by done. by rewrite Hq2. }
  rewrite replace_no_json_fence by done.
  assert (Py.replace "```" "" (Py.replace "```json" "" (opening +:+ m +:+ closing +:+ q))
          = m +:+ q) as Hrest.
  { destruct Hopening as [->|[->|[-> Hafter]]].
    - change ("" +:+ m +:+ closing +:+ q) with (m +:+ closing +:+ q).
      by rewrite replace_no_json_fence, Hq1.
    - change (Py.replace "```json" "" ("```json" +:+ m +:+ closing +:+ q))
        with (Py.replace "```json" "" (m +:+ closing +:+ q)).
      by rewrite replace_no_json_fence, Hq1.
    - rewrite replace_plain_fence by done.
      rewrite replace_no_json_fence, Hq1 by done.
      change (Py.replace "```" "" ("```" +:+ m +:+ closing +:+ q))
        with (Py.replace "```" "" (m +:+ closing +:+ q)).
      done. }
  rewrite replace_no_fence by done. by rewrite Hrest.
Qed.

End FenceFacts.

Section CommentedFacts.
Implicit Types (s t x y z : string) (a : ascii).

Lemma contains_pair_app (c1 c2 : ascii) x y :
  Py.contains (String c1 (String c2 "")) x = false →
  Py.contains (String c1 (String c2 "")) y = false →
  last_char x ≠ Some c1 ∨ first_char y ≠ Some c2 →
  Py.contains (String c1 (String c2 "")) (x +:+ y) = false.
Proof.
  intros Hx Hy Hedge. induction x as [|a x IH]; [done|].
  apply contains_cons in Hx as [Hstart Hrest].
  rewrite app_cons. cbn [Py.contains]. rewrite orb_false_iff. split.
  - destruct x as [|b x].
    + change ("" +:+ y) with y. rewrite startswith_cons.
      destruct (Ascii.eqb_spec c1 a) as [<-|]; [|done]. simpl.
      destruct Hedge as [?|Hedge]; [done|].
      destruct y as [|b y]; [done|]. rewrite startswith_cons.
      destruct (Ascii.eqb_spec c2 b) as [<-|]; [|done]. done.
    + rewrite app_cons, !startswith_cons in *.
      destruct (Ascii.eqb c1 a); [|done].
      destruct (Ascii.eqb c2 b); [|done]. done.
  - apply IH; [done|]. destruct Hedge as [Hedge|?]; [|by right].
    left. destruct x as [|b x]; [done|]. exact Hedge.
Qed.

Lemma block_commented_first s x :
  block_commented s x → first_char x = first_char s ∨ first_char x = Some "/"%char.
Proof. intros [|a s' x' _ _|body s' x' _ _ _ _]; [by left|by left|by right]. Qed.

(** The block comments put in bring no [//] with them. *)
Lemma block_commented_no_line s x :
  Py.contains "//" s = false → block_commented s x → Py.contains "//" x = false.
Proof.
  intros Hs Hx. induction Hx as [|a s x Hx IH Ha|body s x Hbody Hbody' Hx IH Hfirst]; [done|..].
  - apply contains_cons in Hs as [Hstart Hrest].
    cbn [Py.contains]. rewrite IH by done. rewrite orb_false_r.
    rewrite startswith_cons. destruct (Ascii.eqb_spec "/" a) as [<-|]; [|done]. simpl.
    specialize (Ha eq_refl). destruct x as [|b x]; [done|].
    rewrite startswith_cons. destruct (Ascii.eqb_spec "/" b) as [<-|]; done.
  - apply (contains_pair_app "/" "/" "/*"); [done| |by left].
    apply (contains_pair_app "/" "/"); [done| |by right].
    apply (contains_pair_app "/" "/" "*/"); [done|by apply IH|by right].
Qed.

(** Inside a block comment everything goes up to the first [*/]. *)
Lemma block_comment_body_gen body y :
  Py.contains "*/" body = false →
  strip_block_comments Comment (body +:+ "*/" +:+ y) = strip_block_comments Code y.
Proof.
  induction body as [|a body IH]; [by destruct y|].
  intros [Hstart Hrest]%contains_cons.
  rewrite app_cons. cbn [strip_block_comments].
  assert (Py.startswith "*/" (String a (body +:+ "*/" +:+ y)) = false) as ->; [|by apply IH].
  rewrite startswith_cons in *. destruct (Ascii.eqb "*" a); [|done]. simpl in *.
  destruct body as [|b body]; [done|].
  rewrite app_cons, startswith_cons in *. by destruct (Ascii.eqb "/" b).
Qed.

(** The removal of block comments takes out the comments put in. *)
Lemma block_commented_pass s x :
  Py.contains "/*" s = false → block_commented s x → strip_block_comments Code x = s.
Proof.
  intros Hs Hx. induction Hx as [|a s x Hx IH Ha|body s x Hbody Hbody' Hx IH Hfirst]; [done|..].
  - apply contains_cons in Hs as [Hstart Hrest].
    cbn [strip_block_comments].
    assert (Py.strip_prefix "/*" (String a x) = None) as ->; [|by rewrite IH].
    rewrite strip_prefix_cons. destruct (Ascii.eqb_spec "/" a) as [<-|]; [|done].
    specialize (Ha eq_refl).
    destruct (block_commented_first s x Hx) as [Hsame|?]; [|done].
    destruct x as [|b x]; [done|]. rewrite strip_prefix_cons.
    destruct (Ascii.eqb_spec "*" b) as [<-|]; [|done].
    destruct s as [|b s]; [done|]. injection Hsame as <-. done.
  - change ("/*" +:+ body +:+ "*/" +:+ x) with (String "/" ("*" +:+ body +:+ "*/" +:+ x)).
    cbn [strip_block_comments].
    change (Py.strip_prefix "/*" (String "/" ("*" +:+ body +:+ "*/" +:+ x)))
      with (Some (body +:+ "*/" +:+ x)).
    cbv iota. rewrite (contains_app_r "*/" body ("*/" +:+ x)) by done.
    change (strip_block_comments Opening ("*" +:+ body +:+ "*/" +:+ x))
      with (strip_block_comments Comment (body +:+ "*/" +:+ x)).
    rewrite block_comment_body_gen by done. by apply IH.
Qed.

Lemma line_comment_note note y :
  free_of Py.newline note = true →
  strip_line_comments true (note +:+ y) = strip_line_comments true y.
Proof.
  induction note as [|a note IH]; [done|].
  intros Hn. simpl in Hn. apply andb_prop in Hn as [Ha Hn].
  rewrite app_cons. cbn [strip_line_comments].
  destruct (Ascii.eqb a Py.newline); [done|]. by apply IH.
Qed.

(** The removal of line comments takes out the comments put in. *)
Lemma line_commented_pass x (c : string) :
  Py.contains "//" x = false → line_commented x c → strip_line_comments false c = x.
Proof.
  intros Hx Hc. induction Hc as [|a x c Hc IH Ha|note x c Hnote Hc IH Hnext]; [done|..].
  - apply contains_cons in Hx as [Hstart Hrest].
    cbn [strip_line_comments].
    assert (Py.startswith "//" (String a c) = false) as ->; [|by rewrite IH].
    rewrite startswith_cons. destruct (Ascii.eqb_spec "/" a) as [<-|]; [|done]. simpl.
    specialize (Ha eq_refl). destruct c as [|b c]; [done|].
    rewrite startswith_cons. destruct (Ascii.eqb_spec "/" b) as [<-|]; done.
  - change (strip_line_comments false ("//" +:+ note +:+ c))
      with (strip_line_comments true (note +:+ c)).
    rewrite line_comment_note by done. rewrite <-IH by done.
    destruct Hnext as [->|Hnext]; [done|].
    destruct c as [|b c]; [done|]. injection Hnext as ->. done.
Qed.

Lemma commented_pass s (c : string) :
  Py.contains "//" s = false → Py.contains "/*" s = false → commented s c →
  strip_block_comments Code (strip_line_comments false c) = s.
Proof.
  intros Hline Hblock (x & Hx & Hc).
  rewrite (line_commented_pass x c); [by apply block_commented_pass| |done].
  by eapply block_commented_no_line.
Qed.

Lemma block_commented_plain s : Py.contains "//" s = false → block_commented s s.
Proof.
  induction s as [|a s IH]; [constructor|].
  intros [Hstart Hrest]%contains_cons. constructor; [by apply IH|].
  intros ->. destruct s as [|b s]; [done|].
  rewrite !startswith_cons in Hstart. simpl in *.
  destruct (Ascii.eqb_spec "/" b) as [<-|]; [done|congruence].
Qed.

Lemma line_commented_plain s : Py.contains "//" s = false → line_commented s s.
Proof.
  induction s as [|a s IH]; [constructor|].
  intros [Hstart Hrest]%contains_cons. constructor; [by apply IH|].
  intros ->. destruct s as [|b s]; [done|].
  rewrite !startswith_cons in Hstart. simpl in *.
  destruct (Ascii.eqb_spec "/" b) as [<-|]; [done|congruence].
Qed.

(** A text without [//] is itself, with no comment put in. *)
Lemma commented_plain s : Py.contains "//" s = false → commented s s.
Proof. intros Hs. exists s. split; [by apply block_commented_plain|by apply line_commented_plain]. Qed.

(** *** White space at the end of a text with comments *)

Lemma line_comments_end st t :
  all_space t = true → all_space (strip_line_comments st t) = true.
Proof.
  revert st. induction t as [|a t IH]; intros st Ht; [done|].
  simpl in Ht. apply andb_prop in Ht as [Ha Ht].
  cbn [strip_line_comments]. destruct st.
  - destruct (Ascii.eqb a Py.newline); [|by apply IH]. simpl. by rewrite Ha, IH.
  - rewrite startswith_head by (by intros ->). simpl. by rewrite Ha, IH.
Qed.

Lemma line_comments_pad st x t :
  all_space t = true →
  ∃ t', all_space t' = true ∧
        strip_line_comments st (x +:+ t) = strip_line_comments st x +:+ t'.
Proof.
  intros Ht. revert st. induction x as [|a x IH]; intros st.
  { exists (strip_line_comments st t). split; [by apply line_comments_end|]. by destruct st. }
  rewrite app_cons. cbn [strip_line_comments]. destruct st.
  - destruct (Ascii.eqb a Py.newline).
    + destruct (IH false) as (t' & Ht' & ->). by exists t'.
    + apply IH.
  - assert (Py.startswith "//" (String a (x +:+ t)) = Py.startswith "//" (String a x)) as ->.
    { rewrite !startswith_cons. destruct (Ascii.eqb "/" a); [|done]. simpl.
      destruct x as [|b x]; [|by rewrite app_cons, !startswith_cons].
      change ("" +:+ t) with t. destruct t as [|b t]; [done|].
      simpl in Ht. apply andb_prop in Ht as [Hb _].
      apply startswith_head. by intros ->. }
    destruct (Py.startswith "//" (String a x)).
    + apply IH.
    + destruct (IH false) as (t' & Ht' & ->). by exists t'.
Qed.

Lemma contains_close_pad x t :
  all_space t = true → Py.contains "*/" (x +:+ t) = Py.contains "*/" x.
Proof.
  intros Ht. induction x as [|a x IH].
  { change ("" +:+ t) with t. by rewrite (free_of_contains "*" "/" t) by (by apply all_space_free_of). }
  rewrite app_cons. cbn [Py.contains]. rewrite IH. f_equal.
  rewrite !startswith_cons. destruct (Ascii.eqb "*" a); [|done]. simpl.
  destruct x as [|b x]; [|by rewrite app_cons, !startswith_cons].
  change ("" +:+ t) with t. destruct t as [|b t]; [done|].
  simpl in Ht. apply andb_prop in Ht as [Hb _].
  apply startswith_head. by intros ->.
Qed.

Lemma block_comments_all_dropped t :
  all_space t = true → strip_block_comments Comment t = "".
Proof.
  induction t as [|a t IH]; [done|]. intros Ht.
  simpl in Ht. apply andb_prop in Ht as [Ha Ht].
  cbn [strip_block_comments]. rewrite startswith_head by (by intros ->). by apply IH.
Qed.

Lemma block_comments_end st t :
  all_space t = true → all_space (strip_block_comments st t) = true.
Proof.
  intros Ht. destruct st.
  - by rewrite block_comments_space.
  - destruct t as [|a t]; [done|]. cbn [strip_block_comments].
    simpl in Ht. apply andb_prop in Ht as [_ Ht]. by rewrite block_comments_all_dropped.
  - by rewrite block_comments_all_dropped.
  - destruct t as [|a t]; [done|]. cbn [strip_block_comments].
    simpl in Ht. apply andb_prop in Ht as [_ Ht]. by rewrite block_comments_space.
Qed.

Lemma block_comments_pad st x t :
  all_space t = true →
  ∃ t', all_space t' = true ∧
        strip_block_comments st (x +:+ t) = strip_block_comments st x +:+ t'.
Proof.
  intros Ht. revert st. induction x as [|a x IH]; intros st.
  { exists (strip_block_comments st t). split; [by apply block_comments_end|]. by destruct st. }
  rewrite app_cons. cbn [strip_block_comments]. destruct st.
  - rewrite !strip_prefix_cons. destruct (Ascii.eqb "/" a).
    + destruct x as [|b x].
      * change ("" +:+ t) with t. destruct t as [|b t].
        { exists "". by rewrite app_empty_r. }
        pose proof Ht as Ht'. simpl in Ht'. apply andb_prop in Ht' as [Hb _].
        rewrite strip_prefix_cons.
        destruct (Ascii.eqb_spec "*" b) as [<-|]; [done|].
        destruct (IH Code) as (t' & Ht' & Heq).
        change ("" +:+ String b t) with (String b t) in Heq. rewrite Heq. by exists t'.
      * rewrite app_cons, !strip_prefix_cons. destruct (Ascii.eqb "*" b).
        -- change (Py.strip_prefix "" (x +:+ t)) with (Some (x +:+ t)).
           change (Py.strip_prefix "" x) with (Some x). cbv iota.
           rewrite contains_close_pad by done. rewrite <-app_cons.
           destruct (Py.contains "*/" x).
           ++ apply IH.
           ++ destruct (IH Code) as (t' & Ht' & ->). by exists t'.
        -- rewrite <-app_cons. destruct (IH Code) as (t' & Ht' & ->). by exists t'.
    + destruct (IH Code) as (t' & Ht' & ->). by exists t'.
  - apply IH.
  - assert (Py.startswith "*/" (String a (x +:+ t)) = Py.startswith "*/" (String a x)) as ->.
    { rewrite !startswith_cons. destruct (Ascii.eqb "*" a); [|done]. simpl.
      destruct x as [|b x]; [|by rewrite app_cons, !startswith_cons].
      change ("" +:+ t) with t. destruct t as [|b t]; [done|].
      simpl in Ht. apply andb_prop in Ht as [Hb _].
      apply startswith_head. by intros ->. }
    destruct (Py.startswith "*/" (String a x)); apply IH.
  - apply IH.
Qed.

Lemma lstrip_split s : ∃ l, all_space l = true ∧ s = l +:+ Py.lstrip s.
Proof.
  induction s as [|a s (l & Hl & IH)]; [by exists ""|].
  cbn [Py.lstrip]. destruct (Py.isspace a) eqn:Ea.
  - exists (String a l). split; [simpl; by rewrite Ea|]. by rewrite app_cons, <-IH.
  - by exists "".
Qed.

Lemma rstrip_split s : ∃ t, all_space t = true ∧ s = Py.rstrip s +:+ t.
Proof.
  induction s as [|a s (t & Ht & IH)]; [by exists ""|].
  cbn [Py.rstrip]. destruct (Py.rstrip s) as [|b r] eqn:E.
  - change ("" +:+ t) with t in IH. subst s. destruct (Py.isspace a) eqn:Ea.
    + exists (String a t). split; [simpl; by rewrite Ea|done].
    + by exists t.
  - exists t. split; [done|]. by rewrite app_cons, <-IH.
Qed.

Lemma strip_split s :
  ∃ l t, all_space l = true ∧ all_space t = true ∧ s = l +:+ Py.strip s +:+ t.
Proof.
  destruct (rstrip_split s) as (t & Ht & Hs).
  destruct (lstrip_split (Py.rstrip s)) as (l & Hl & Hr).
  exists l, t. split; [done|]. split; [done|].
  unfold Py.strip. by rewrite <-app_assoc3, <-Hr.
Qed.

(** The comments of a text are the same with white space around it. *)
Lemma remove_comments_pad l x t :
  all_space l = true → all_space t = true →
  _remove_json_comments (l +:+ x +:+ t) = _remove_json_comments x.
Proof.
  intros Hl Ht. unfold _remove_json_comments.
  rewrite line_comments_space_app by done.
  destruct (line_comments_pad false x t Ht) as (t' & Ht' & ->).
  rewrite block_comments_free by (by apply all_space_free_of).
  destruct (block_comments_pad Code (strip_line_comments false x) t' Ht') as (t'' & Ht'' & ->).
  by apply strip_pad.
Qed.

Lemma remove_comments_strip x : _remove_json_comments (Py.strip x) = _remove_json_comments x.
Proof.
  destruct (strip_split x) as (l & t & Hl & Ht & Hx).
  rewrite Hx at 2. by rewrite remove_comments_pad.
Qed.

End CommentedFacts.

(** ** The extractor, stage by stage *)

Section CandidateFacts.
Context `{PyFloat}.
Implicit Types (s t x y : string) (a c : ascii).

Lemma try_parse_strip s : _try_parse_json_candidate (Py.strip s) = _try_parse_json_candidate s.
Proof. unfold _try_parse_json_candidate. by rewrite strip_idemp. Qed.

Lemma try_parse_pad pre s post :
  all_space pre = true → all_space post = true →
  _try_parse_json_candidate (pre +:+ s +:+ post) = _try_parse_json_candidate s.
Proof. intros. unfold _try_parse_json_candidate. by rewrite strip_pad. Qed.

(** The white space around a candidate does not count, and a candidate of
    white space only, or none at all, gives nothing. *)
Theorem candidate_padding_is_ignored (pre s post : string) :
  all_space pre = true → all_space post = true →
  _try_parse_json_candidate (pre +:+ s +:+ post) = _try_parse_json_candidate s ∧
  _try_parse_json_candidate pre = None.
Proof.
  intros Hpre Hpost. split; [by apply try_parse_pad|].
  unfold _try_parse_json_candidate. by rewrite strip_space.
Qed.

Lemma from_first_brace_free s : free_of "{" s = true → from_first_brace s = None.
Proof.
  induction s as [|a s IH]; [done|]. simpl.
  intros [Ha Hs]%andb_prop. destruct (Ascii.eqb a "{"); [done|]. by apply IH.
Qed.

(** Without backtick there is no fenced block. *)
Lemma json_blocks_free s : free_of "`"%char s = true → json_blocks None 0 s = [].
Proof.
  induction s as [|a s IH]; [done|].
  intros Hs. simpl in Hs. apply andb_prop in Hs as [Ha Hs].
  cbn [json_blocks]. rewrite startswith_head; [by apply IH|].
  destruct (Ascii.eqb_spec a "`"); done.
Qed.

(** Without a backtick in the text only the first two stages count: the
    text as a whole, then its first balanced group.  So a text with neither
    backtick nor opening brace gives what it reads as, also a list, a
    string or a number, or nothing. *)
Theorem extract_without_backtick (text : string) :
  free_of "`"%char text = true →
  _extract_json text =
    match _try_parse_json_candidate text with
    | Some v => Some v
    | None => _balanced_json_snippet (Py.strip text) ≫= _try_parse_json_candidate
    end ∧
  (free_of "{" text = true → _extract_json text = _try_parse_json_candidate text).
Proof.
  intros Htick.
  assert (_extract_json text =
    match _try_parse_json_candidate text with
    | Some v => Some v
    | None => _balanced_json_snippet (Py.strip text) ≫= _try_parse_json_candidate
    end) as Hgen.
  { unfold _extract_json. destruct (String.eqb_spec text "") as [->|Hne]; [done|].
    rewrite remove_fences_free, try_parse_strip, json_blocks_free by done.
    destruct (_try_parse_json_candidate text); [done|].
    destruct (_balanced_json_snippet (Py.strip text)) as [snip|]; [|done]. simpl.
    by destruct (_try_parse_json_candidate snip). }
  split; [done|]. intros Hbrace. rewrite Hgen.
  destruct (_try_parse_json_candidate text); [done|].
  unfold _balanced_json_snippet. by rewrite from_first_brace_free by (by apply free_of_strip).
Qed.


(** A block is read up to the next fence. *)
Lemma json_blocks_body acc body post :
  Py.contains "```" body = false → last_char body ≠ Some "`"%char →
  json_blocks (Some acc) 0 (body +:+ "```" +:+ post) =
  String.rev_app acc body :: json_blocks None 0 post.
Proof.
  revert acc. induction body as [|a body IH]; intros acc Hbody Hlast; [done|].
  rewrite app_cons. cbn [json_blocks].
  rewrite (no_fence_head "") by done.
  rewrite IH; [done|by eapply contains_tail|].
  destruct body as [|b body]; [done|]. by rewrite last_char_tail in Hlast.
Qed.

(** The label of a fence does not start again inside a fence. *)
Lemma json_fence_apart x rest :
  x ≠ "" → Py.startswith "```json" x = false →
  Py.startswith "```json" (x +:+ "```json" +:+ rest) = false.
Proof.
  intros Hne Hx.
  destruct x as [|a1 x]; [done|]. rewrite app_cons. rewrite startswith_cons in *.
  destruct (Ascii.eqb "`" a1); [|done]. simpl in Hx |- *.
  destruct x as [|a2 x]; [done|]. rewrite app_cons. rewrite startswith_cons in *.
  destruct (Ascii.eqb "`" a2); [|done]. simpl in Hx |- *.
  destruct x as [|a3 x]; [done|]. rewrite app_cons. rewrite startswith_cons in *.
  destruct (Ascii.eqb "`" a3); [|done]. simpl in Hx |- *.
  destruct x as [|a4 x]; [done|]. rewrite app_cons. rewrite startswith_cons in *.
  destruct (Ascii.eqb "j" a4); [|done]. simpl in Hx |- *.
  destruct x as [|a5 x]; [done|]. rewrite app_cons. rewrite startswith_cons in *.
  destruct (Ascii.eqb "s" a5); [|done]. simpl in Hx |- *.
  destruct x as [|a6 x]; [done|]. rewrite app_cons. rewrite startswith_cons in *.
  destruct (Ascii.eqb "o" a6); [|done]. simpl in Hx |- *.
  destruct x as [|a7 x]; [done|]. rewrite app_cons. rewrite startswith_cons in *.
  destruct (Ascii.eqb "n" a7); [|done]. done.
Qed.

(** The first fence labelled json opens the first block. *)
Lemma json_blocks_opening pre rest :
  Py.contains "```json" pre = false →
  json_blocks None 0 (pre +:+ "```json" +:+ rest) = json_blocks (Some "") 0 rest.
Proof.
  induction pre as [|a pre IH]; [done|].
  intros [Hstart Hrest]%contains_cons.
  rewrite (app_cons a pre). cbn [json_blocks].
  rewrite <-(app_cons a pre), json_fence_apart by done. by apply IH.
Qed.

(** Without a backtick in [w] a fence is found in [w] and what follows
    exactly when it is found in what follows. *)
Lemma contains_free_app a p w y :
  free_of a w = true → Py.contains (String a p) (w +:+ y) = Py.contains (String a p) y.
Proof.
  induction w as [|b w IH]; [done|].
  intros Hw. simpl in Hw. apply andb_prop in Hw as [Hb Hw].
  rewrite app_cons. cbn [Py.contains]. rewrite IH by done.
  rewrite startswith_head; [done|]. destruct (Ascii.eqb_spec b a); done.
Qed.

Lemma contains_fence_app x y :
  Py.contains "```" x = false → last_char x ≠ Some "`"%char →
  Py.contains "```" (x +:+ y) = Py.contains "```" y.
Proof.
  induction x as [|a x IH]; [done|]. intros Hx Hlast.
  rewrite app_cons. cbn [Py.contains].
  pose proof (no_fence_head "" a x y Hx Hlast) as Hhead.
  change ("```" +:+ "") with "```" in Hhead. rewrite Hhead.
  apply IH; [by eapply contains_tail|].
  destruct x as [|b x]; [done|]. by rewrite last_char_tail in Hlast.
Qed.

Lemma last_char_free a x : free_of a x = true → last_char x ≠ Some a.
Proof.
  induction x as [|b x IH]; [done|].
  intros Hx. simpl in Hx. apply andb_prop in Hx as [Hb Hx].
  destruct x as [|b' x]; [|by apply IH].
  simpl. intros [= ->]. by rewrite Ascii.eqb_refl in Hb.
Qed.

(** White space around a text brings no fence. *)
Lemma fence_padded w1 s w2 e :
  Py.contains "```" s = false → last_char s = Some e → e ≠ "`"%char →
  all_space w1 = true → all_space w2 = true →
  Py.contains "```" (w1 +:+ s +:+ w2) = false ∧
  last_char (w1 +:+ s +:+ w2) ≠ Some "`"%char.
Proof.
  intros Hs He He' Hw1 Hw2.
  assert (s ≠ "") as Hne by (intros ->; done).
  split.
  - rewrite (contains_free_app "`" "``") by (by apply all_space_free_of).
    rewrite contains_fence_app by (done || rewrite He; congruence).
    by apply free_of_contains, all_space_free_of.
  - rewrite last_char_app by (by destruct s).
    destruct w2 as [|b w2].
    + rewrite app_empty_r, He. congruence.
    + rewrite last_char_app by done. by apply last_char_free, all_space_free_of.
Qed.

(** Third stage.  A text that holds, after a part without backtick, the
    text of an object between a fence labelled json and the next fence
    always extracts to something; when the text as a whole and its first
    balanced group both fail, it extracts to that object. *)
Theorem fenced_block_is_last_resort (s : string) (d : list (string * value))
    (pre gap1 gap2 post : string) :
  object_text s d → free_of "`"%char pre = true →
  all_space gap1 = true → all_space gap2 = true →
  let text := pre +:+ "```json" +:+ gap1 +:+ s +:+ gap2 +:+ "```" +:+ post in
  let raw := Py.strip (Py.replace "```" "" (Py.replace "```json" "" text)) in
  is_Some (_extract_json text) ∧
  (_try_parse_json_candidate raw = None →
   _balanced_json_snippet raw ≫= _try_parse_json_candidate = None →
   _extract_json text = Some (VDict d)).
Proof.
  intros Hs Hpre Hgap1 Hgap2 text raw.
  pose proof Hs as [_ Hopen Hclose _ _ Hfence].
  assert (first_parsed (json_blocks None 0 text) = Some (VDict d)) as Hthird.
  { unfold text.
    assert (gap1 +:+ s +:+ gap2 +:+ "```" +:+ post = (gap1 +:+ s +:+ gap2) +:+ "```" +:+ post)
      as -> by (by rewrite !app_assoc3).
    destruct (fence_padded gap1 s gap2 "}") as [Hbody Hlast]; [done..|].
    rewrite json_blocks_opening by (by apply free_of_contains).
    rewrite json_blocks_body by done.
    change (String.rev_app "" (gap1 +:+ s +:+ gap2)) with (gap1 +:+ s +:+ gap2).
    cbn [first_parsed]. by rewrite try_parse_pad, (try_parse_object s d Hs). }
  assert (String.eqb text "" = false) as Hne.
  { unfold text. by apply (eqb_app_not_empty pre "```json"). }
  unfold _extract_json. rewrite Hne. fold raw.
  destruct (_try_parse_json_candidate raw) as [v|]; [split; [by eexists|done]|].
  destruct (_balanced_json_snippet raw) as [snip|]; simpl.
  - destruct (_try_parse_json_candidate snip) as [v|]; [split; [by eexists|done]|].
    rewrite Hthird. split; [by eexists|done].
  - rewrite Hthird. split; [by eexists|done].
Qed.

End CandidateFacts.

(** ** The extractor on an object held in a text *)

Section EmbeddingFacts.
Context `{PyFloat}.
Implicit Types (s t x y z : string) (a : ascii) (d : list (string * value)).

Lemma contains_padded (c1 c2 : ascii) w1 s w2 b e :
  Py.isspace c1 = false →
  first_char s = Some b → b ≠ c2 → last_char s = Some e → e ≠ c1 →
  all_space w1 = true → all_space w2 = true →
  Py.contains (String c1 (String c2 "")) s = false →
  Py.contains (String c1 (String c2 "")) (w1 +:+ s +:+ w2) = false.
Proof.
  intros Hc Hb Hb' He He' Hw1 Hw2 Hs.
  apply contains_pair_app.
  - by apply free_of_contains, all_space_free_of.
  - apply contains_pair_app; [done| |left; rewrite He; congruence].
    by apply free_of_contains, all_space_free_of.
  - right. rewrite (first_char_app s w2 b Hb). congruence.
Qed.

(** A candidate that is the text of an object once its comments are
    removed gives the object. *)
Lemma try_parse_cleaned (c : string) s d :
  object_text s d → _remove_json_comments c = s →
  _try_parse_json_candidate c = Some (VDict d).
Proof.
  intros [Hreads Hopen _ _ _ _] Hc. unfold _try_parse_json_candidate.
  rewrite remove_comments_strip, Hc, Hreads.
  destruct (Py.strip c) eqn:E; [|done].
  rewrite <-remove_comments_strip, E in Hc. by subst s.
Qed.

Lemma remove_comments_commented w1 w2 (c : string) s d :
  object_text s d → all_space w1 = true → all_space w2 = true →
  commented (w1 +:+ s +:+ w2) c → _remove_json_comments c = s.
Proof.
  intros [_ Hopen Hclose Hline Hblock _] Hw1 Hw2 Hc. unfold _remove_json_comments.
  rewrite (commented_pass (w1 +:+ s +:+ w2) c); [|..|done].
  - by apply (strip_padded w1 s w2 "{" "}").
  - by apply (contains_padded "/" "/" w1 s w2 "{" "}").
  - by apply (contains_padded "/" "*" w1 s w2 "{" "}").
Qed.

Lemma try_parse_commented w1 w2 (c : string) s d :
  object_text s d → all_space w1 = true → all_space w2 = true →
  commented (w1 +:+ s +:+ w2) c → _try_parse_json_candidate c = Some (VDict d).
Proof.
  intros Hs Hw1 Hw2 Hc. apply (try_parse_cleaned c s d Hs).
  by apply (remove_comments_commented w1 w2 c s d).
Qed.

Lemma fenced_not_empty u text : fenced u text → u ≠ "" → String.eqb text "" = false.
Proof.
  intros Hf Hu. destruct (String.eqb_spec text "") as [->|]; [|done].
  apply unfence in Hf. by subst u.
Qed.

Lemma commented_not_empty s (c : string) : commented s c → s ≠ "" → c ≠ "".
Proof.
  intros (x & Hx & Hc) Hs ->. inversion Hc; subst. by inversion Hx.
Qed.

Lemma balanced_snippet_ends (c : string) :
  _balanced_json_snippet c = Some c →
  first_char c = Some "{"%char ∧ last_char c = Some "}"%char.
Proof.
  unfold _balanced_json_snippet.
  destruct (from_first_brace c) as [rest|] eqn:Efirst; [|done].
  apply from_first_brace_split in Efirst as (pre & Hc & Hpre & Hopen).
  destruct rest as [|a rest]; [done|]. injection Hopen as ->.
  cbn [take_balanced]. change (Ascii.eqb "{" "{") with true. cbv iota.
  destruct (take_balanced (0 + 1) rest) as [x|] eqn:E; [|done].
  intros [= <-]. split; [done|].
  apply take_balanced_split in E as (_ & Hlast & _); [|done].
  simpl. by destruct x.
Qed.

(** A text without fence is itself, with no fence put in. *)
Lemma fenced_plain u : Py.contains "```" u = false → fenced u u.
Proof. intros Hu. by apply (fenced_parts "" "" "" "" u); [left|left|..]. Qed.

(** A text between a fence labelled json and a closing fence. *)
Lemma fenced_around u :
  Py.contains "```" u = false → last_char u ≠ Some "`"%char →
  fenced u ("```json" +:+ u +:+ "```").
Proof.
  intros Hu Hlast.
  pose proof (fenced_parts "" "```json" u "```" "") as Hf.
  change ("" +:+ u +:+ "") with (u +:+ "") in Hf.
  change ("" +:+ "```json" +:+ u +:+ "```" +:+ "") with ("```json" +:+ u +:+ "```") in Hf.
  rewrite (app_empty_r u) in Hf. apply Hf; try done.
  - right. by left.
  - by right.
Qed.

(** Line comments may start after a text that holds none. *)
Lemma line_commented_after y x (c : string) :
  Py.contains "//" y = false → last_char y ≠ Some "/"%char →
  line_commented x c → line_commented (y +:+ x) (y +:+ c).
Proof.
  intros Hy Hlast Hc. induction y as [|a y IH]; [done|].
  apply contains_cons in Hy as [Hstart Hrest].
  rewrite !app_cons. constructor.
  - apply IH; [done|]. destruct y as [|b y]; [done|]. by rewrite last_char_tail in Hlast.
  - intros ->. destruct y as [|b y]; [done|].
    rewrite app_cons. rewrite !startswith_cons in Hstart. simpl in *.
    destruct (Ascii.eqb_spec "/" b) as [<-|]; [done|congruence].
Qed.

(** The object by itself, and between white space. *)
Lemma embedded_between_space s d pre post :
  object_text s d → all_space pre = true → all_space post = true →
  embedded s d (pre +:+ s +:+ post).
Proof.
  intros Hs Hpre Hpost. pose proof Hs as [_ Hopen Hclose Hline _ Hfence].
  apply (in_comments s d pre post (pre +:+ s +:+ post)); [done..| |].
  - apply commented_plain. by apply (contains_padded "/" "/" pre s post "{" "}").
  - apply fenced_plain. by apply (fence_padded pre s post "}").
Qed.

(** The object between a fence labelled json and a closing fence. *)
Lemma embedded_between_fences s d pre post :
  object_text s d → all_space pre = true → all_space post = true →
  embedded s d ("```json" +:+ pre +:+ s +:+ post +:+ "```").
Proof.
  intros Hs Hpre Hpost. pose proof Hs as [_ Hopen Hclose Hline _ Hfence].
  destruct (fence_padded pre s post "}") as [Hbody Hlast]; [done..|].
  apply (in_comments s d pre post (pre +:+ s +:+ post)); [done..| |].
  - apply commented_plain. by apply (contains_padded "/" "/" pre s post "{" "}").
  - pose proof (fenced_around _ Hbody Hlast) as Hf. by rewrite !app_assoc3 in Hf.
Qed.

(** The object before a line comment. *)
Lemma embedded_before_comment s d gap note :
  object_text s d → all_space gap = true →
  free_of Py.newline note = true → Py.contains "```" note = false →
  embedded s d (s +:+ gap +:+ "//" +:+ note).
Proof.
  intros Hs Hgap Hnote Hnote'. pose proof Hs as [_ Hopen Hclose Hline _ Hfence].
  destruct (fence_padded "" s gap "}") as [Hbody Hlast]; [done..|].
  pose proof (contains_padded "/" "/" "" s gap "{" "}" eq_refl Hopen) as Hgapped.
  change ("" +:+ s +:+ gap) with (s +:+ gap) in *.
  assert (last_char (s +:+ gap) ≠ Some "/"%char) as Hslash.
  { destruct gap as [|b gap].
    - rewrite app_empty_r, Hclose. congruence.
    - rewrite last_char_app by done. by apply last_char_free, all_space_free_of. }
  apply (in_comments s d "" gap (s +:+ gap +:+ "//" +:+ note)); [done..| |].
  - change ("" +:+ s +:+ gap) with (s +:+ gap).
    exists (s +:+ gap). split.
    + apply block_commented_plain. by apply Hgapped.
    + rewrite <-(app_empty_r (s +:+ gap)) at 1. rewrite <-app_assoc3.
      apply line_commented_after; [by apply Hgapped|done|].
      rewrite <-(app_empty_r note). rewrite <-app_assoc3, app_assoc3.
      apply lc_comment; [done|constructor|by left].
  - apply fenced_plain. rewrite <-app_assoc3.
    rewrite contains_fence_app by done.
    by rewrite (contains_free_app "`" "``" "//" note).
Qed.

(** The object between prose without fence. *)
Lemma embedded_between_prose s d pre post :
  object_text s d → free_of "{" pre = true →
  Py.contains "```" (pre +:+ s +:+ post) = false →
  _balanced_json_snippet s = Some s →
  _try_parse_json_candidate (pre +:+ s +:+ post) = None →
  embedded s d (pre +:+ s +:+ post).
Proof.
  intros Hs Hpre Hfence Hbal Hwhole.
  apply (in_prose s d pre s post); [done| |done| |by apply fenced_plain].
  - apply commented_plain. by destruct Hs.
  - by left.
Qed.

(** C7.  For the text [s] of a JSON object [d] that runs from its opening
    to its closing brace and holds no [//], no [/*] and no fence of three
    backticks, [_extract_json] gives [d] back from every text that holds
    [s] in one of three ways: with white space around it and comments put
    in, inside the object, before it or after it; between prose, when no
    brace stands in the prose before it, its first brace closes at its end
    and the text as a whole reads as nothing else; or as the first block
    between fences labelled json, when the first two stages read nothing
    else.  In the first two ways the text may have an opening fence,
    labelled json or not, and a closing fence. *)
Theorem extract_json_recovers_embedded s d (text : string) :
  object_text s d → embedded s d text → _extract_json text = Some (VDict d).
Proof.
  intros Hs Hemb.
  pose proof Hs as [_ Hopen Hclose _ _ _].
  assert (s ≠ "") as Hne by (by destruct s).
  destruct Hemb as [w1 w2 u text Hw1 Hw2 Hu Hfenced
                   |pre c post text Hpre Hc Hbal Hwhole Hfenced
                   |pre w1 w2 body post Hpre Hw1 Hw2 Hbody Hfence Hlast text raw Hfirst Hsecond].
  - (* comments and white space around the object *)
    unfold _extract_json.
    rewrite (fenced_not_empty u text Hfenced)
      by (eapply commented_not_empty; [done|by apply app_not_empty; destruct s]).
    rewrite (unfence u text Hfenced), try_parse_strip.
    by rewrite (try_parse_commented w1 w2 u s d).
  - (* prose around the object *)
    destruct (balanced_snippet_ends c Hbal) as [Hc1 Hc2].
    unfold _extract_json.
    rewrite (fenced_not_empty _ text Hfenced)
      by (apply app_not_empty; by destruct c).
    rewrite (unfence _ text Hfenced), try_parse_strip.
    destruct Hwhole as [->| ->]; [|done].
    assert (_balanced_json_snippet (Py.strip (pre +:+ c +:+ post)) = Some c) as ->.
    { unfold Py.strip. rewrite <-app_assoc3.
      rewrite (rstrip_app_keep (pre +:+ c) post "}");
        [|by rewrite last_char_app by (by destruct c)|done].
      rewrite app_assoc3.
      destruct (lstrip_before pre (c +:+ Py.rstrip post) "{" "{") as (pre' & -> & Hpre');
        [by apply first_char_app|done..|].
      unfold _balanced_json_snippet in *.
      rewrite from_first_brace_app by (done || by apply first_char_app).
      apply take_balanced_app.
      pose proof (from_first_brace_app "" c eq_refl Hc1) as Hfirst.
      change ("" +:+ c) with c in Hfirst. by rewrite Hfirst in Hbal. }
    assert (commented ("" +:+ s +:+ "") c) as Hc'
      by (change ("" +:+ s +:+ "") with (s +:+ ""); by rewrite app_empty_r).
    by rewrite (try_parse_commented "" "" c s d).
  - (* a block between fences *)
    assert (first_parsed (json_blocks None 0 text) = Some (VDict d)) as Hthird.
    { unfold text. rewrite json_blocks_opening, json_blocks_body by done.
      change (String.rev_app "" body) with body.
      cbn [first_parsed]. by rewrite (try_parse_commented w1 w2 body s d). }
    assert (String.eqb text "" = false) as Htext.
    { unfold text. by apply (eqb_app_not_empty pre "```json"). }
    unfold _extract_json. rewrite Htext. fold raw.
    destruct Hfirst as [->| ->]; [|done].
    destruct (_balanced_json_snippet raw) as [snip|]; simpl in *; [|done].
    by destruct Hsecond as [->| ->].
Qed.

End EmbeddingFacts.

(** ** Diet tags: the filter and the note *)

Section DietFacts.
Context `{PyFloat}.
Implicit Types (inv : list item) (dietary : list string).

Lemma restricted_keys (k : string) (names : gset string) :
  RESTRICTED !! k = Some names → k ∈ filter_tags.
Proof.
  unfold RESTRICTED, filter_tags. simpl. intros Hk.
  destruct (decide (k = "vegetarian")) as [->|H1]; [set_solver|].
  destruct (decide (k = "vegan")) as [->|H2]; [set_solver|].
  destruct (decide (k = "gluten free")) as [->|H3]; [set_solver|].
  by rewrite !lookup_insert_ne, lookup_empty in Hk.
Qed.

Lemma filter_inventory_ext inv dietary1 dietary2 :
  banned_names dietary1 = banned_names dietary2 →
  _filter_inventory inv dietary1 = _filter_inventory inv dietary2.
Proof. unfold _filter_inventory. by intros ->. Qed.

Lemma filter_inventory_none inv dietary :
  banned_names dietary = ∅ → _filter_inventory inv dietary = inv.
Proof.
  intros Hnone. unfold _filter_inventory. rewrite Hnone.
  induction inv as [|it inv IH]; [done|].
  rewrite filter_cons_True by apply not_elem_of_empty. by rewrite IH.
Qed.

(** Tags count by their lowercased names only: two lists of tags with the
    same lowercased names, in any order and number, filter alike and give
    the same note. *)
Theorem tags_count_as_a_set inv dietary1 dietary2 :
  (∀ tag, tag ∈ Py.lower <$> dietary1 ↔ tag ∈ Py.lower <$> dietary2) →
  _filter_inventory inv dietary1 = _filter_inventory inv dietary2 ∧
  _build_restriction_note dietary1 = _build_restriction_note dietary2.
Proof.
  intros Hsame. split.
  - apply filter_inventory_ext. apply set_eq. intros x.
    rewrite !elem_of_banned_names.
    assert (∀ l1 l2 : list string,
              (∀ tag, tag ∈ Py.lower <$> l1 → tag ∈ Py.lower <$> l2) →
              (∃ d names, d ∈ l1 ∧ RESTRICTED !! Py.lower d = Some names ∧ x ∈ names) →
              ∃ d names, d ∈ l2 ∧ RESTRICTED !! Py.lower d = Some names ∧ x ∈ names) as Hdir.
    { intros l1 l2 Hsub (d & names & Hd & Hnames & Hx).
      assert (Py.lower d ∈ Py.lower <$> l2) as Hin
        by (by apply Hsub, list_elem_of_fmap_2).
      apply list_elem_of_fmap in Hin as (d' & Heq & Hd').
      exists d', names. by rewrite <-Heq. }
    split; apply Hdir; intros tag; by apply Hsame.
  - unfold _build_restriction_note.
    assert (list_to_set (Py.lower <$> dietary1) =@{gset string}
            list_to_set (Py.lower <$> dietary2)) as ->; [|done].
    apply set_eq. intros x. by rewrite !elem_of_list_to_set.
Qed.

(** Tags outside the table of banned names filter nothing. *)
Theorem unlisted_tags_filter_nothing inv dietary :
  Forall (λ d, Py.lower d ∉ filter_tags) dietary →
  _filter_inventory inv dietary = inv.
Proof.
  intros Hout. apply filter_inventory_none. apply set_eq. intros x.
  rewrite elem_of_banned_names. split; [|by intros ?%not_elem_of_empty].
  intros (d & names & Hd & Hnames & _).
  rewrite Forall_forall in Hout. destruct (Hout d Hd). by eapply restricted_keys.
Qed.

Lemma banned_names_app dietary1 dietary2 :
  banned_names (dietary1 ++ dietary2) = banned_names dietary1 ∪ banned_names dietary2.
Proof.
  apply set_eq. intros x. rewrite elem_of_union, !elem_of_banned_names. split.
  - intros (d & names & [Hd|Hd]%elem_of_app & Hrest); [left|right]; by exists d, names.
  - intros [(d & names & Hd & Hrest)|(d & names & Hd & Hrest)];
      exists d, names; (split; [apply elem_of_app; auto|done]).
Qed.

(** Filtering what a filter kept is filtering once with all the tags; so
    filtering again with the same tags changes nothing. *)
Theorem filter_inventory_composes inv dietary1 dietary2 :
  _filter_inventory (_filter_inventory inv dietary1) dietary2 =
    _filter_inventory inv (dietary1 ++ dietary2) ∧
  _filter_inventory (_filter_inventory inv dietary1) dietary1 = _filter_inventory inv dietary1.
Proof.
  assert (∀ d1 d2, _filter_inventory (_filter_inventory inv d1) d2 =
                   _filter_inventory inv (d1 ++ d2)) as Hcomp.
  { intros d1 d2. unfold _filter_inventory. rewrite banned_names_app, list_filter_filter.
    apply list_filter_iff. intros it. rewrite not_elem_of_union. naive_solver. }
  split; [apply Hcomp|]. rewrite Hcomp.
  apply filter_inventory_ext. rewrite banned_names_app. set_solver.
Qed.


Lemma banned_names_cons tag dietary :
  banned_names (tag :: dietary) = default ∅ (RESTRICTED !! Py.lower tag) ∪ banned_names dietary.
Proof.
  apply set_eq. intros x. rewrite elem_of_union, !elem_of_banned_names. split.
  - intros (d & names & [->|Hd]%elem_of_cons & Hnames & Hx).
    + left. by rewrite Hnames.
    + right. by exists d, names.
  - intros [Hx|(d & names & Hd & Hrest)].
    + destruct (RESTRICTED !! Py.lower tag) as [names|] eqn:E; [|set_solver].
      exists tag, names. split; [by left|done].
    + exists d, names. split; [by right|done].
Qed.

(** The vegan entry of the table holds the names of the vegetarian entry
    but [bacon]: what is kept under the tag [vegan] is kept under the tag
    [vegetarian], items named [bacon] apart, and an item named [bacon] is
    kept under [vegan]. *)
Theorem vegan_keeps_less_but_bacon inv dietary :
  filter (λ it, _get_name it ≠ "bacon") (_filter_inventory inv ("vegan" :: dietary))
    `sublist_of` _filter_inventory inv ("vegetarian" :: dietary) ∧
  (Plain "bacon" ∈ inv → Plain "bacon" ∈ _filter_inventory inv ["vegan"]).
Proof.
  assert (RESTRICTED !! "vegetarian" = Some (list_to_set
            ["beef"; "pork"; "chicken"; "turkey"; "fish"; "shrimp"; "lamb"; "bacon"]))
    as Hvegetarian by done.
  assert (RESTRICTED !! "vegan" = Some (list_to_set
            ["beef"; "pork"; "chicken"; "turkey"; "fish"; "shrimp"; "lamb";
             "milk"; "cheese"; "butter"; "yogurt"; "cream"; "egg"; "honey"]))
    as Hvegan by done.
  split.
  - assert (∀ x, x ≠ "bacon" → x ∈ banned_names ("vegetarian" :: dietary) →
                 x ∈ banned_names ("vegan" :: dietary)) as Hsub.
    { intros x Hx. rewrite !banned_names_cons.
      change (Py.lower "vegetarian") with "vegetarian". change (Py.lower "vegan") with "vegan".
      rewrite Hvegetarian, Hvegan. cbn [default from_option id].
      rewrite !elem_of_union, !elem_of_list_to_set.
      intros [Hin|?]; [left|by right].
      repeat (apply elem_of_cons in Hin as [->|Hin]);
        [by repeat first [apply list_elem_of_here | apply list_elem_of_further]..|done|].
      by apply elem_of_nil in Hin. }
    unfold _filter_inventory. rewrite list_filter_filter.
    assert (filter (λ it, _get_name it ≠ "bacon" ∧
                          _get_name it ∉ banned_names ("vegan" :: dietary)) inv =
            filter (λ it, _get_name it ≠ "bacon" ∧
                          _get_name it ∉ banned_names ("vegan" :: dietary))
              (filter (λ it, _get_name it ∉ banned_names ("vegetarian" :: dietary)) inv)) as ->.
    { rewrite list_filter_filter. apply list_filter_iff. intros it.
      split; [|by intros [? _]].
      intros [Hname Hout]. split; [done|]. intros Hin. by apply Hout, Hsub. }
    apply sublist_filter.
  - intros Hin. apply filter_inventory_elem. split; [|done].
    rewrite elem_of_banned_names. intros (d & names & ->%list_elem_of_singleton & Hnames & Hx).
    change (Py.lower "vegan") with "vegan" in Hnames. rewrite Hvegan in Hnames.
    apply (inj Some) in Hnames. subst names. apply elem_of_list_to_set in Hx.
    repeat (apply elem_of_cons in Hx as [[=]|Hx]). by apply elem_of_nil in Hx.
Qed.

(** The note as the tests on the set of lowercased tags give it. *)
Lemma restriction_note_unfold dietary :
  let has (tag : string) := bool_decide (tag ∈ Py.lower <$> dietary) in
  _build_restriction_note dietary =
  Py.join " " (
    (if has "vegan"
     then ["IMPORTANT: 100 % plant-based – no meat, fish, dairy or eggs. Use tofu/legumes instead."]
     else if has "vegetarian"
     then ["IMPORTANT: No meat or fish. Use plant-based substitutes."]
     else []) ++
    (if has "gluten free"
     then ["IMPORTANT: Must be 100 % gluten-free – no wheat, barley, rye or derivatives."]
     else []) ++
    (if has "kosher"
     then ["IMPORTANT: Keep recipe kosher – no pork/shellfish; do not mix meat with dairy."]
     else []) ++
    (if has "halal"
     then ["IMPORTANT: Keep recipe halal – no pork or alcohol."]
     else []) ++
    (if has "keto"
     then ["IMPORTANT: Keep net carbs very low (< 20 g per serving); moderate protein, high fat."]
     else []) ++
    (if has "paleo"
     then ["IMPORTANT: Paleo – no grains, legumes or processed sugar; focus on meat, fish, vegetables, fruit, nuts."]
     else [])).
Proof.
  intros has. unfold _build_restriction_note.
  assert (∀ tag, bool_decide (tag ∈ (list_to_set (Py.lower <$> dietary) : gset string)) = has tag)
    as Hhas.
  { intros tag. unfold has. apply bool_decide_ext. apply elem_of_list_to_set. }
  by rewrite !Hhas.
Qed.

(** With the tag [vegan] among the tags, the tag [vegetarian] adds nothing
    to the note. *)
Theorem vegan_note_overrides_vegetarian dietary :
  "vegan" ∈ Py.lower <$> dietary →
  _build_restriction_note ("vegetarian" :: dietary) = _build_restriction_note dietary.
Proof.
  intros Hvegan. rewrite !restriction_note_unfold. cbv zeta.
  assert (∀ tag, tag ≠ "vegetarian" →
            bool_decide (tag ∈ Py.lower <$> "vegetarian" :: dietary) =
            bool_decide (tag ∈ Py.lower <$> dietary)) as Hother.
  { intros tag Hne. apply bool_decide_ext. rewrite fmap_cons, elem_of_cons.
    change (Py.lower "vegetarian") with "vegetarian". naive_solver. }
  rewrite (Hother "vegan"), (Hother "gluten free"), (Hother "kosher"), (Hother "halal"),
    (Hother "keto"), (Hother "paleo") by done.
  by rewrite (bool_decide_eq_true_2 _ Hvegan).
Qed.


Lemma join_not_empty sep x (l : list string) : x ≠ "" → Py.join sep (x :: l) ≠ "".
Proof. destruct x as [|a x]; [done|]. by destruct l. Qed.

(** The note is empty exactly when no tag is one the note knows; a tag
    that bans names always leaves a note. *)
Theorem restriction_note_empty_iff dietary :
  (_build_restriction_note dietary = "" ↔ Forall (λ d, Py.lower d ∉ note_tags) dietary) ∧
  (∀ d, d ∈ dietary → is_Some (RESTRICTED !! Py.lower d) →
        _build_restriction_note dietary ≠ "").
Proof.
  assert (Forall (λ d, Py.lower d ∉ note_tags) dietary ↔
          Forall (λ tag, bool_decide (tag ∈ Py.lower <$> dietary) = false) note_tags) as Htags.
  { rewrite !Forall_forall. split.
    - intros Hout tag Htag. apply bool_decide_eq_false.
      intros (d & -> & Hd)%list_elem_of_fmap. by apply (Hout d).
    - intros Hout d Hd Htag. specialize (Hout _ Htag).
      apply bool_decide_eq_false in Hout. apply Hout. by apply list_elem_of_fmap_2. }
  assert (_build_restriction_note dietary = "" ↔
          Forall (λ d, Py.lower d ∉ note_tags) dietary) as Hiff.
  { rewrite Htags, restriction_note_unfold. cbv zeta. unfold note_tags.
    rewrite !Forall_cons, Forall_nil.
    destruct (bool_decide ("vegan" ∈ Py.lower <$> dietary)),
             (bool_decide ("vegetarian" ∈ Py.lower <$> dietary)),
             (bool_decide ("gluten free" ∈ Py.lower <$> dietary)),
             (bool_decide ("kosher" ∈ Py.lower <$> dietary)),
             (bool_decide ("halal" ∈ Py.lower <$> dietary)),
             (bool_decide ("keto" ∈ Py.lower <$> dietary)),
             (bool_decide ("paleo" ∈ Py.lower <$> dietary));
      first [ by split
            | split; [intros Hnote; by apply join_not_empty in Hnote
                    | by intros (?&?&?&?&?&?&?&_)] ]. }
  split; [done|].
  intros d Hd [names Hnames]. rewrite Hiff, Forall_forall.
  intros Hout. apply (Hout d Hd).
  apply restricted_keys in Hnames. unfold filter_tags, note_tags in *. set_solver.
Qed.

End DietFacts.

(** ** The normalizer: shapes, fields and a second pass *)

Section NormalizerMore.
Context `{PyFloat}.
Implicit Types (r d : list (string * value)) (v : value).


(** A JSON value that is no object gives no recipe: the rewrites raise a
    [TypeError] for a number, a truth value, a string that holds [recipe]
    and a list that holds the string [recipe] or [recipes]; any other
    string or list is wrapped as the one recipe and then passed over. *)
Theorem non_object_gives_no_recipe v :
  is_dict v = false →
  normalized_input_recipes v =
    match v with
    | VStr s => if Py.contains "recipe" s then None else Some []
    | VList l =>
        if existsb (is_the_string "recipe") l || existsb (is_the_string "recipes") l
        then None else Some []
    | _ => None
    end.
Proof.
  intros Hv. destruct v as [| | | |s|l|d]; try done.
  - unfold normalized_input_recipes, recipes_of, wrap_single_recipe, wrap_without_recipes,
      py_in, py_item.
    destruct (Py.contains "recipe" s) eqn:E1; [done|].
    pose proof (contains_longer "recipe" "s" s E1) as E2.
    change ("recipe" +:+ "s") with "recipes" in E2. simpl. by rewrite E2.
  - unfold normalized_input_recipes, recipes_of, wrap_single_recipe, wrap_without_recipes,
      py_in, py_item. fold (is_the_string "recipe") (is_the_string "recipes").
    destruct (existsb (is_the_string "recipe") l); [done|]. simpl.
    destruct (existsb (is_the_string "recipes") l); done.
Qed.


Lemma merged_recipe_keeps_other_fields' r (k : string) :
  k ≠ "title" → k ≠ "ingredients" → k ≠ "instructions" →
  dict_get (merged_recipe r) k = dict_get r k.
Proof. intros. unfold merged_recipe. by rewrite !dict_get_set_ne. Qed.

(** The fields of a recipe other than the three the loop sets come out as
    they went in: present with the same value, or absent. *)
Theorem merged_recipe_keeps_other_fields r (k : string) :
  k ∉ ["title"; "ingredients"; "instructions"] →
  dict_get (merged_recipe r) k = dict_get r k.
Proof.
  intros Hk. apply merged_recipe_keeps_other_fields'; intros ->; apply Hk; set_solver.
Qed.

Lemma dict_set_same {A} (fields : list (string * A)) (k : string) (x : A) :
  dict_get fields k = Some x → dict_set fields k x = fields.
Proof.
  induction fields as [|[k' x'] fields IH]; [done|]. simpl.
  destruct (String.eqb k k'); [by intros [= ->]|]. intros Hd. by rewrite IH.
Qed.

Lemma title_of_truthy r : truthy (title_of r) = true.
Proof. unfold title_of. rewrite !py_or_truthy. apply orb_true_r. Qed.

Lemma get_merged_title r : get (merged_recipe r) "title" = title_of r.
Proof. unfold get. by rewrite merged_recipe_title. Qed.

Lemma get_merged_ingredients r :
  get_or (merged_recipe r) "ingredients" (VList []) =
  VList (_normalize_ingredients_structure (get_or r "ingredients" (VList []))).
Proof. unfold get_or. by rewrite merged_recipe_ingredients. Qed.

Lemma get_merged_instructions r :
  get (merged_recipe r) "instructions" = VList (instructions_of r).
Proof. unfold get. by rewrite merged_recipe_instructions. Qed.

(** A string goes through [str] as it is. *)
Lemma map_str_strings (steps : list value) :
  Forall (λ step, is_str step = true) steps →
  List.map (λ step, VStr (str step)) steps = steps.
Proof.
  induction 1 as [|step steps Hstep _ IH]; [done|]. simpl. rewrite IH.
  by destruct step.
Qed.

Lemma title_of_merged r : title_of (merged_recipe r) = title_of r.
Proof.
  unfold title_of at 1. rewrite get_merged_title.
  unfold py_or at 3. rewrite title_of_truthy.
  unfold py_or at 2. rewrite title_of_truthy.
  unfold py_or. by rewrite title_of_truthy.
Qed.

Lemma instructions_of_merged r : instructions_of (merged_recipe r) = instructions_of r.
Proof.
  destruct (instructions_of_strings r) as [Hstr Hnil].
  unfold instructions_of at 1. rewrite get_merged_instructions.
  assert (get (merged_recipe r) "steps" = get r "steps") as ->.
  { unfold get. rewrite merged_recipe_keeps_other_fields'; done. }
  destruct (instructions_of r) as [|step steps] eqn:E.
  - destruct Hnil as [Hnil _]. destruct (Hnil eq_refl) as [_ Hsteps].
    unfold py_or. simpl. by rewrite Hsteps.
  - change (py_or (py_or (VList (step :: steps)) (get r "steps")) (VList []))
      with (VList (step :: steps)).
    by apply map_str_strings.
Qed.


Lemma merged_recipe_idemp r : merged_recipe (merged_recipe r) = merged_recipe r.
Proof.
  unfold merged_recipe at 1.
  rewrite title_of_merged, get_merged_ingredients, instructions_of_merged.
  cbn [_normalize_ingredients_structure].
  rewrite (dict_set_same _ "title") by apply merged_recipe_title.
  rewrite (dict_set_same _ "ingredients") by apply merged_recipe_ingredients.
  apply dict_set_same, merged_recipe_instructions.
Qed.

Lemma normalize_recipes_idemp (recipes : list value) :
  normalize_recipes (normalize_recipes recipes) = normalize_recipes recipes.
Proof.
  induction recipes as [|[] recipes IH]; simpl; try done.
  by rewrite merged_recipe_idemp, IH.
Qed.

(** Normalizing twice changes nothing: the recipes that come out of the
    loop, given back under [recipes], come out again as they are. *)
Theorem normalizing_twice_changes_nothing (recipes : list value) :
  normalized_input_recipes (VDict [("recipes", VList (normalize_recipes recipes))]) =
  Some (normalize_recipes recipes).
Proof.
  unfold normalized_input_recipes, recipes_of, wrap_single_recipe, wrap_without_recipes,
    py_in, py_item, dict_has. simpl.
  by rewrite normalize_recipes_idemp.
Qed.

Lemma merged_recipe_shape r : recipe_shape (VDict (merged_recipe r)) = true.
Proof.
  unfold recipe_shape.
  rewrite get_merged_title, title_of_truthy, get_merged_instructions.
  assert (get (merged_recipe r) "ingredients" =
          VList (_normalize_ingredients_structure (get_or r "ingredients" (VList [])))) as ->.
  { unfold get. by rewrite merged_recipe_ingredients. }
  simpl. apply forallb_forall. intros step Hstep.
  destruct (instructions_of_strings r) as [Hstr _].
  rewrite Forall_forall in Hstr. by apply Hstr, list_elem_of_In.
Qed.

Lemma normalize_recipes_shape (recipes : list value) :
  Forall (λ v, recipe_shape v = true) (normalize_recipes recipes).
Proof.
  induction recipes as [|[] recipes IH]; simpl; try done.
  constructor; [apply merged_recipe_shape|done].
Qed.

Lemma normalized_recipes_shape (parsed : value) (recipes : list value) :
  normalized_input_recipes parsed = Some recipes →
  Forall (λ v, recipe_shape v = true) recipes.
Proof.
  unfold normalized_input_recipes.
  destruct (recipes_of parsed) as [input|]; [|done].
  intros [= <-]. apply normalize_recipes_shape.
Qed.

Lemma slice_to_shape {A} (P : A → Prop) (l : list A) (n : Z) :
  Forall P l → Forall P (slice_to l n) ∧ ((0 ≤ n)%Z → length (slice_to l n) ≤ Z.to_nat n).
Proof.
  intros Hl. unfold slice_to. destruct (Z.leb_spec 0 n).
  - split; [by apply Forall_take|]. intros _. rewrite length_take. lia.
  - split; [by apply Forall_take|lia].
Qed.


(** What the entry made for a key of a mapping holds. *)
Lemma ingredient_entry_fields (name : string) (raw_qty : value) :
  ∃ fields q,
    ingredient_entry name raw_qty = VDict fields ∧
    dict_get fields "name" = Some (VStr name) ∧ dict_get fields "quantity" = Some q ∧
    match dict_get fields "unit" with
    | Some u =>
        ∃ s p0 p1 rest f,
          raw_qty = VStr s ∧ Py.split s = p0 :: p1 :: rest ∧ float_of_str p0 = Some f ∧
          q = VFloat f ∧ u = VStr p1
    | None =>
        q = raw_qty ∧
        ∀ s p0 p1 rest, raw_qty = VStr s → Py.split s = p0 :: p1 :: rest → _is_number p0 = false
    end.
Proof.
  unfold ingredient_entry, _is_number.
  destruct raw_qty as [| | | |s| |];
    try (eexists _, _; split_and!; [reflexivity..|]; simpl; by split).
  destruct (Py.split s) as [|p0 [|p1 rest]] eqn:Esplit;
    try (eexists _, _; split_and!; [reflexivity..|]; simpl; split; [done|];
         intros ???? [= <-]; by rewrite Esplit).
  destruct (float_of_str p0) as [f|] eqn:Efloat.
  - eexists _, _; split_and!; [reflexivity..|]. simpl. by exists s, p0, p1, rest, f.
  - eexists _, _; split_and!; [reflexivity..|]. simpl. split; [done|].
    intros ???? [= <-]. rewrite Esplit. intros [= <- <- <-]. by rewrite Efloat.
Qed.

(** A mapping of ingredients gives one entry for each of its keys, in
    their order.  The entry holds the key as [name] and a [quantity].  It
    holds a [unit] only for a string of two words or more whose first word
    reads as a number: then the quantity is that number, the unit the second
    word, and further words are dropped.  Otherwise the quantity is the
    value as it was. *)
Theorem mapping_gives_entry_per_key (d : list (string * value)) :
  Forall2 (λ kv entry,
      ∃ fields q,
        entry = VDict fields ∧
        dict_get fields "name" = Some (VStr kv.1) ∧ dict_get fields "quantity" = Some q ∧
        match dict_get fields "unit" with
        | Some u =>
            ∃ s p0 p1 rest f,
              kv.2 = VStr s ∧ Py.split s = p0 :: p1 :: rest ∧ float_of_str p0 = Some f ∧
              q = VFloat f ∧ u = VStr p1
        | None =>
            q = kv.2 ∧
            ∀ s p0 p1 rest, kv.2 = VStr s → Py.split s = p0 :: p1 :: rest → _is_number p0 = false
        end)
    d (_normalize_ingredients_structure (VDict d)).
Proof.
  cbn [_normalize_ingredients_structure].
  induction d as [|[name raw_qty] d IH]; [constructor|].
  simpl. constructor; [apply ingredient_entry_fields|exact IH].
Qed.

End NormalizerMore.

(** ** Runs, attempt by attempt *)

Section RunFacts.
Context `{PyFloat}.
Variable summarize_user_ratings_for_prompt : Z → string.
Variable get_spices_for_user : Z → list string.
Variable normalize_ingredient_units : list value → Z → list value.
Variable complete : client.
Variables (user_id : Z) (user_message : string)
          (prev_recipe : option (list (string * value))) (num_recipes : Z)
          (tags : list string) (allergens : list string) (safe_inv : list item).

Local Abbreviation loop :=
  (attempts summarize_user_ratings_for_prompt get_spices_for_user
     normalize_ingredient_units complete).
Local Abbreviation run := (loop user_id user_message prev_recipe num_recipes tags allergens safe_inv).
Local Abbreviation body :=
  (attempt_body summarize_user_ratings_for_prompt get_spices_for_user
     normalize_ingredient_units complete
     user_id user_message prev_recipe num_recipes tags allergens safe_inv).
Local Abbreviation trace :=
  (run_from summarize_user_ratings_for_prompt get_spices_for_user
     normalize_ingredient_units complete
     user_id user_message prev_recipe num_recipes tags allergens safe_inv).
Local Abbreviation the_request :=
  (primary_request summarize_user_ratings_for_prompt get_spices_for_user
     user_id user_message prev_recipe num_recipes tags allergens safe_inv).
Local Abbreviation explains :=
  (explains normalize_ingredient_units user_id num_recipes).

(** The loop runs the body at its head. *)
Lemma attempts_cons (a : nat) (todo : list nat) (last_error : string) (log : list event) :
  run (a :: todo) last_error log =
  match body (requests log) a with
  | (Stops out, evs) => (out, log ++ evs)
  | (Fails e, evs) =>
      if a <? MAX_ATTEMPTS
      then run todo e (log ++ evs ++ [Sleep a])
      else (Returned (error_result e), log ++ evs)
  end.
Proof.
  cbn [attempts]. unfold attempt_body.
  destruct (complete (requests log) the_request) as [raw|msg]; [|by rewrite <-?app_assoc].
  destruct (_extract_json raw) as [parsed|].
  - destruct (normalized_input_recipes parsed) as [[|? ?]|]; by rewrite <-?app_assoc.
  - rewrite requests_app. cbn [requests omap]. simpl.
    unfold _repair_json_via_groq.
    destruct (complete _ (repair_request raw)) as [fixed|msg];
      [destruct (_extract_json fixed) as [parsed|];
       [destruct (normalized_input_recipes parsed) as [[|? ?]|]|]|];
      by rewrite <-?app_assoc.
Qed.

Lemma attempts_trace (k a : nat) (last_error : string) (log : list event) :
  a + k = S MAX_ATTEMPTS → 0 < k →
  ∃ out ext, run (seq a k) last_error log = (out, log ++ ext) ∧ trace a (requests log) out ext.
Proof.
  revert a last_error log. induction k as [|k IH]; intros a last_error log Hak Hk; [lia|].
  change (seq a (S k)) with (a :: seq (S a) k). rewrite attempts_cons.
  destruct (body (requests log) a) as [[out|e] evs] eqn:Ebody.
  - exists out, evs. split; [done|]. by apply run_stops.
  - destruct (Nat.ltb_spec a MAX_ATTEMPTS) as [Hlt|Hge].
    + destruct (IH (S a) e (log ++ evs ++ [Sleep a])) as (out & ext & -> & Hext); [lia..|].
      exists out, (evs ++ Sleep a :: ext). split; [by rewrite <-!app_assoc|].
      eapply run_again; [done..|].
      rewrite !requests_app in Hext. simpl in Hext. by rewrite app_nil_r in Hext.
    + eexists _, evs. split; [done|]. apply run_exhausted; [done|lia].
Qed.


(** The events of an attempt: its primary call with the one request of the
    run, and a repair call for its reply when that did not extract. *)
Lemma body_events (history : list request) (a : nat) r evs :
  body history a = (r, evs) →
  (∃ rep, evs = [Call a Primary the_request rep]) ∨
  (∃ raw rep, evs = [Call a Primary the_request (Content raw);
                     Call a Repair (repair_request raw) rep] ∧
              _extract_json raw = None).
Proof.
  unfold attempt_body, _repair_json_via_groq. intros Hbody.
  repeat (case_match; simplify_eq); eauto.
Qed.

(** How the result of an attempt goes with its last call. *)
Lemma body_result (history : list request) (a : nat) r evs :
  body history a = (r, evs) →
  ∃ st req rep, last evs = Some (Call a st req rep) ∧
    match rep with
    | ApiError e =>
        r = Fails (if st is Primary then "Groq API error (" +:+ e +:+ ")"
                   else "Invalid JSON returned from Groq")
    | Content text =>
        match _extract_json text with
        | None => st = Repair ∧ r = Fails "Invalid JSON returned from Groq"
        | Some parsed =>
            match normalized_input_recipes parsed with
            | None => r = Stops (Raised "TypeError")
            | Some [] => r = Fails "No valid recipes returned"
            | Some recipes =>
                r = Stops (Returned (VDict
                      [("user_id", VInt user_id);
                       ("recipes", VList (normalize_ingredient_units
                                            (slice_to recipes num_recipes) user_id))]))
            end
        end
    end.
Proof.
  unfold attempt_body, _repair_json_via_groq. intros Hbody.
  repeat (case_match; simplify_eq); do 3 eexists; (split; [reflexivity|]); simpl;
    repeat (case_match; simplify_eq); done.
Qed.


Lemma stage_calls_app st (l1 l2 : list event) :
  stage_calls st (l1 ++ l2) = stage_calls st l1 + stage_calls st l2.
Proof. unfold stage_calls. by rewrite List.filter_app, length_app. Qed.

Lemma sleeps_app (l1 l2 : list event) : sleeps (l1 ++ l2) = sleeps l1 + sleeps l2.
Proof. unfold sleeps. by rewrite List.filter_app, length_app. Qed.

(** An attempt makes one primary call, at most one repair call, and does
    not sleep. *)
Lemma body_counts (history : list request) (a : nat) r evs :
  body history a = (r, evs) →
  stage_calls Primary evs = 1 ∧ stage_calls Repair evs ≤ 1 ∧ sleeps evs = 0 ∧
  ∃ req rep more, evs = Call a Primary req rep :: more.
Proof.
  intros [[rep ->]|(raw & rep & -> & _)]%body_events;
    (split_and!; [done|unfold stage_calls; simpl; lia|done|by do 3 eexists]).
Qed.

(** A run starts with the primary call of its first attempt. *)
Lemma trace_head a history out log :
  trace a history out log → ∃ req rep more, log = Call a Primary req rep :: more.
Proof.
  destruct 1 as [a history out evs Hbody|a history e evs Hbody _|a history e evs out rest Hbody _ _];
    apply body_counts in Hbody as (_ & _ & _ & req & rep & more & ->); by do 3 eexists.
Qed.

(** A run counts one sleep less than primary calls, ends with a call, and
    goes on after each sleep with the primary call of the next attempt. *)
Lemma trace_sleeps a history out log :
  trace a history out log →
  sleeps log + 1 = stage_calls Primary log ∧
  (∃ n st req rep, last log = Some (Call n st req rep)) ∧
  ∀ i n, log !! i = Some (Sleep n) →
    n < MAX_ATTEMPTS ∧ ∃ req rep, log !! S i = Some (Call (S n) Primary req rep).
Proof.
  assert (∀ b h r evs, body h b = (r, evs) →
            (∃ n st req rep, last evs = Some (Call n st req rep)) ∧
            ∀ i n, evs !! i ≠ Some (Sleep n)) as Hcalls.
  { intros b h r evs [[rep ->]|(raw & rep & -> & _)]%body_events.
    - split; [by do 4 eexists|]. by intros [|[|i]] n.
    - split; [by do 4 eexists|]. by intros [|[|[|i]]] n. }
  induction 1 as [a history out evs Hbody|a history e evs Hbody Hge
                 |a history e evs out rest Hbody Hlt Hrest (IHn & IHlast & IHsleep)].
  - pose proof (body_counts _ _ _ _ Hbody) as (Hp & _ & Hs & _).
    destruct (Hcalls _ _ _ _ Hbody) as [Hlast Hno].
    split; [lia|]. split; [done|]. intros i n Hi. by apply Hno in Hi.
  - pose proof (body_counts _ _ _ _ Hbody) as (Hp & _ & Hs & _).
    destruct (Hcalls _ _ _ _ Hbody) as [Hlast Hno].
    split; [lia|]. split; [done|]. intros i n Hi. by apply Hno in Hi.
  - pose proof (body_counts _ _ _ _ Hbody) as (Hp & _ & Hs & _).
    destruct (Hcalls _ _ _ _ Hbody) as [_ Hno].
    destruct (trace_head _ _ _ _ Hrest) as (req & rep & more & ->).
    split.
    { rewrite sleeps_app, stage_calls_app, Hp, Hs.
      change (sleeps (Sleep a :: ?l)) with (S (sleeps l)).
      change (stage_calls Primary (Sleep a :: ?l)) with (stage_calls Primary l). lia. }
    split.
    { destruct IHlast as (n & st & req' & rep' & Hlast).
      rewrite last_app, last_cons, Hlast. by do 4 eexists. }
    intros i n Hi.
    destruct (decide (i < length evs)) as [Hin|Hout].
    { rewrite lookup_app_l in Hi by done. by apply Hno in Hi. }
    rewrite lookup_app_r in Hi by lia.
    destruct (i - length evs) as [|j] eqn:Ej.
    + injection Hi as <-. split; [done|].
      replace (S i) with (length evs + 1) by lia.
      rewrite lookup_app_r by lia. replace (length evs + 1 - length evs) with 1 by lia.
      by do 2 eexists.
    + simpl in Hi. destruct (IHsleep j n Hi) as [Hn (req' & rep' & Hnext)].
      split; [done|]. exists req', rep'.
      replace (S i) with (length evs + S (S j)) by lia.
      rewrite lookup_app_r by lia. by replace (length evs + S (S j) - length evs) with (S (S j)) by lia.
Qed.


Lemma trace_explained a history out log :
  trace a history out log → a ≤ MAX_ATTEMPTS →
  ∃ e, last log = Some e ∧ explains out e.
Proof.
  induction 1 as [a history out evs Hbody|a history e evs Hbody Hge
                 |a history e evs out rest Hbody Hlt Hrest IH]; intros Ha.
  - apply body_result in Hbody as (st & req & rep & Hlast & Hres).
    eexists. split; [done|]. simpl.
    repeat (case_match; simplify_eq); destruct_and?; simplify_eq; done.
  - apply body_result in Hbody as (st & req & rep & Hlast & Hres).
    assert (a = MAX_ATTEMPTS) as -> by lia.
    eexists. split; [done|]. simpl.
    repeat (case_match; simplify_eq); destruct_and?; simplify_eq; done.
  - destruct IH as (e' & Hlast & He'); [lia|].
    exists e'. split; [|done].
    rewrite last_app, last_cons, Hlast. done.
Qed.


(** An attempt that ends the run raises, or returns recipes. *)
Lemma body_stops (history : list request) (a : nat) out evs :
  body history a = (Stops out, evs) →
  out = Raised "TypeError" ∨
  ∃ normalized, out = Returned (VDict [("user_id", VInt user_id); ("recipes", VList normalized)]).
Proof.
  unfold attempt_body, _repair_json_via_groq. intros Hbody.
  repeat (case_match; simplify_eq); eauto.
Qed.

(** A run that ends in an error result has made the primary call of every
    attempt from its first one to the last. *)
Lemma trace_error a history out log msg recipes :
  trace a history out log → a ≤ MAX_ATTEMPTS →
  out = Returned (VDict [("error", VStr msg); ("recipes", recipes)]) →
  stage_calls Primary log = S MAX_ATTEMPTS - a.
Proof.
  induction 1 as [a history out evs Hbody|a history e evs Hbody Hge
                 |a history e evs out rest Hbody Hlt Hrest IH]; intros Ha Hout.
  - apply body_stops in Hbody as [->|[normalized ->]]; done.
  - apply body_counts in Hbody as (-> & _). lia.
  - apply body_counts in Hbody as (Hp & _).
    rewrite stage_calls_app, Hp.
    change (stage_calls Primary (Sleep a :: rest)) with (stage_calls Primary rest).
    rewrite IH by (done || lia). lia.
Qed.

(** Every primary call of a run sends the one request of the run, and a
    repair call sends the repair request for the reply of the primary call
    before it. *)
Lemma trace_requests a history out log i n st req rep :
  trace a history out log → log !! i = Some (Call n st req rep) →
  match st with
  | Primary => req = the_request
  | Repair =>
      ∃ j raw, i = S j ∧ log !! j = Some (Call n Primary the_request (Content raw)) ∧
               req = repair_request raw
  end.
Proof.
  assert (∀ b h r evs i, body h b = (r, evs) → evs !! i = Some (Call n st req rep) →
            match st with
            | Primary => req = the_request
            | Repair =>
                ∃ j raw, i = S j ∧ evs !! j = Some (Call n Primary the_request (Content raw)) ∧
                         req = repair_request raw
            end) as Hone.
  { intros b h r evs k [[rep0 ->]|(raw & rep0 & -> & _)]%body_events Hk.
    - destruct k as [|k]; [|by destruct k]. by injection Hk as <- <- <- <-.
    - destruct k as [|[|k]]; [| |by destruct k].
      + by injection Hk as <- <- <- <-.
      + injection Hk as <- <- <- <-. by exists 0, raw. }
  intros Htrace. revert i.
  induction Htrace as [a history out evs Hbody|a history e evs Hbody Hge
                      |a history e evs out rest Hbody Hlt Hrest IH]; intros i Hi;
    [by eapply Hone..|].
  destruct (decide (i < length evs)) as [Hin|Hout].
  { rewrite lookup_app_l in Hi by done.
    pose proof (Hone _ _ _ _ _ Hbody Hi) as Hst.
    destruct st; [done|]. destruct Hst as (j & raw & -> & Hj & ->).
    exists j, raw. split; [done|]. split; [|done].
    rewrite lookup_app_l; [done|lia]. }
  rewrite lookup_app_r in Hi by lia.
  destruct (i - length evs) as [|k] eqn:Ek; [done|]. simpl in Hi.
  specialize (IH k Hi). destruct st; [done|].
  destruct IH as (j & raw & -> & Hj & ->).
  exists (length evs + S j), raw. split; [lia|]. split; [|done].
  rewrite lookup_app_r by lia.
  by replace (length evs + S j - length evs) with (S j) by lia.
Qed.

(** With a service whose JSON replies are objects, no rewrite raises. *)
Lemma trace_returns a history out log :
  (∀ h req text v,
     complete h req = Content text → _extract_json text = Some v → is_dict v = true) →
  trace a history out log → ∃ v, out = Returned v.
Proof.
  intros Hobj.
  induction 1 as [a history out evs Hbody|a history e evs Hbody Hge
                 |a history e evs out rest Hbody Hlt Hrest IH]; [|by eexists|done].
  unfold attempt_body, _repair_json_via_groq in Hbody.
  repeat (case_match; simplify_eq); try by eexists.
  all: match goal with
       | Hc : complete _ _ = Content ?t, He : _extract_json ?t = Some ?v,
         Hn : normalized_input_recipes ?v = None |- _ =>
           pose proof (Hobj _ _ _ _ Hc He) as Hd; destruct v; try done;
           by destruct (normalized_object_total d) as [? ?]; simplify_eq
       end.
Qed.


(** With a service that fails at every call, each attempt makes its
    primary call and no other, and the last error is the one reported. *)
Lemma attempts_api_down (k a : nat) (last_error : string) (log : list event) :
  (∀ h req, ∃ e, complete h req = ApiError e) →
  a + k = S MAX_ATTEMPTS → 0 < k →
  ∃ e ext,
    run (seq a k) last_error log =
      (Returned (error_result ("Groq API error (" +:+ e +:+ ")")), log ++ ext) ∧
    stage_calls Primary ext = k ∧ stage_calls Repair ext = 0 ∧ sleeps ext + 1 = k ∧
    last ext = Some (Call MAX_ATTEMPTS Primary the_request (ApiError e)).
Proof.
  intros Hdown. revert a last_error log.
  induction k as [|k IH]; intros a last_error log Hak Hk; [lia|].
  change (seq a (S k)) with (a :: seq (S a) k). rewrite attempts_cons.
  unfold attempt_body. destruct (Hdown (requests log) the_request) as [e ->].
  destruct (Nat.ltb_spec a MAX_ATTEMPTS) as [Hlt|Hge].
  - destruct (IH (S a) ("Groq API error (" +:+ e +:+ ")")
                (log ++ [Call a Primary the_request (ApiError e)] ++ [Sleep a]))
      as (e' & ext & -> & Hp & Hr & Hs & Hlast); [lia..|].
    exists e', ([Call a Primary the_request (ApiError e); Sleep a] ++ ext).
    split; [by rewrite <-!app_assoc|].
    rewrite !stage_calls_app, sleeps_app, Hp, Hr, last_app, Hlast.
    unfold stage_calls, sleeps in *. simpl. split_and!; [lia..|done].
  - assert (a = MAX_ATTEMPTS) as -> by lia. assert (k = 0) as -> by (unfold MAX_ATTEMPTS in *; lia).
    by exists e, [Call MAX_ATTEMPTS Primary the_request (ApiError e)].
Qed.

End RunFacts.

Section ServiceRuns.
Context `{PyFloat}.
Variable summarize_user_ratings_for_prompt : Z → string.
Variable get_spices_for_user : Z → list string.
Variable normalize_ingredient_units : list value → Z → list value.
Variable complete : client.
Variables (user_id : Z) (ingredients : list item) (user_message : string)
          (user_prefs : preferences) (prev_recipe : option (list (string * value)))
          (num_recipes : Z).

Local Abbreviation result :=
  (suggest_recipes_from_groq summarize_user_ratings_for_prompt get_spices_for_user
     normalize_ingredient_units complete
     user_id ingredients user_message user_prefs prev_recipe num_recipes).
Local Abbreviation tags := ((λ d, Py.lower (Py.strip d)) <$> dietary user_prefs).
Local Abbreviation safe_inv := (_filter_inventory ingredients tags).
Local Abbreviation the_request :=
  (primary_request summarize_user_ratings_for_prompt get_spices_for_user
     user_id user_message prev_recipe num_recipes tags (allergies user_prefs) safe_inv).
Local Abbreviation trace :=
  (run_from summarize_user_ratings_for_prompt get_spices_for_user
     normalize_ingredient_units complete
     user_id user_message prev_recipe num_recipes tags (allergies user_prefs) safe_inv).

(** A call of the function is, when the filter leaves an ingredient, a run
    from the first attempt on; its log is empty otherwise. *)
Lemma suggest_trace :
  (safe_inv = [] ∧ result.2 = []) ∨
  (safe_inv ≠ [] ∧ trace 1 [] result.1 result.2).
Proof.
  unfold suggest_recipes_from_groq.
  destruct safe_inv as [|it rest] eqn:Esafe; [by left|right].
  split; [done|].
  destruct (attempts_trace summarize_user_ratings_for_prompt get_spices_for_user
              normalize_ingredient_units complete user_id user_message prev_recipe
              num_recipes tags (allergies user_prefs) (it :: rest) MAX_ATTEMPTS 1 "" [])
    as (out & ext & -> & Htrace); [done|unfold MAX_ATTEMPTS; lia|].
  done.
Qed.


Local Abbreviation explains :=
  (explains normalize_ingredient_units user_id num_recipes).

(** When the filter leaves an ingredient, the log ends with a call, and
    what that call gave explains the outcome: an exception of a primary
    call is reported as an API error and one of a repair call as invalid
    JSON, text that does not extract as invalid JSON, a value without
    recipes as no valid recipes, each after the last attempt only; recipes
    are cut to [num_recipes] and handed to the unit normalizer; and a value
    the rewrites cannot take raises. *)
Theorem last_call_explains_outcome :
  safe_inv ≠ [] → ∃ e, last result.2 = Some e ∧ explains result.1 e.
Proof.
  intros Hsafe. destruct suggest_trace as [[Hnone _]|[_ Htrace]]; [done|].
  eapply trace_explained; [done|]. unfold MAX_ATTEMPTS. lia.
Qed.

(** An error result comes after every attempt was made: the log holds
    [MAX_ATTEMPTS] primary calls, unless the filter left no ingredient. *)
Theorem error_comes_after_every_attempt (msg : string) (recipes : value) (log : list event) :
  safe_inv ≠ [] →
  result = (Returned (VDict [("error", VStr msg); ("recipes", recipes)]), log) →
  stage_calls Primary log = MAX_ATTEMPTS ∧ sleeps log = MAX_ATTEMPTS - 1.
Proof.
  intros Hsafe Hres. destruct suggest_trace as [[Hnone _]|[_ Htrace]]; [done|].
  rewrite Hres in Htrace. simpl in Htrace.
  pose proof (trace_sleeps _ _ _ _ _ _ _ _ _ _ _ _ _ _ _ Htrace) as (Hsleeps & _).
  assert (stage_calls Primary log = S MAX_ATTEMPTS - 1) as Hcalls
    by (eapply trace_error; [exact Htrace|unfold MAX_ATTEMPTS; lia|done]).
  unfold MAX_ATTEMPTS in *. lia.
Qed.

(** The function sleeps between attempts only: one sleep less than primary
    calls, each followed at once by the primary call of the next
    attempt. *)
Theorem sleeps_are_between_attempts :
  sleeps result.2 = stage_calls Primary result.2 - 1 ∧
  ∀ i n, result.2 !! i = Some (Sleep n) →
    n < MAX_ATTEMPTS ∧ ∃ req rep, result.2 !! S i = Some (Call (S n) Primary req rep).
Proof.
  destruct suggest_trace as [[_ ->]|[_ Htrace]]; [by split|].
  pose proof (trace_sleeps _ _ _ _ _ _ _ _ _ _ _ _ _ _ _ Htrace) as (Hsleeps & _ & Hnext).
  split; [lia|done].
Qed.

(** Every primary call of a run sends the same request, and every repair
    call sends the repair request for the text of the primary reply right
    before it. *)
Theorem requests_do_not_change :
  (∀ i n req rep, result.2 !! i = Some (Call n Primary req rep) → req = the_request) ∧
  (∀ i n req rep, result.2 !! i = Some (Call n Repair req rep) →
     ∃ j raw, i = S j ∧ result.2 !! j = Some (Call n Primary the_request (Content raw)) ∧
              req = repair_request raw).
Proof.
  destruct suggest_trace as [[_ ->]|[_ Htrace]]; [by split|].
  split; intros i n req rep Hi;
    exact (trace_requests _ _ _ _ _ _ _ _ _ _ _ _ _ _ _ _ _ _ _ _ Htrace Hi).
Qed.

(** With a completion service that fails at every call, the run makes the
    primary call of every attempt and no repair call, sleeps between them,
    and reports the error of the last call. *)
Theorem api_down_costs_every_attempt :
  safe_inv ≠ [] → (∀ h req, ∃ e, complete h req = ApiError e) →
  ∃ e log,
    result = (Returned (VDict [("error", VStr ("Groq API error (" +:+ e +:+ ")"));
                               ("recipes", VList [])]), log) ∧
    stage_calls Primary log = MAX_ATTEMPTS ∧ stage_calls Repair log = 0 ∧
    sleeps log = MAX_ATTEMPTS - 1 ∧
    last log = Some (Call MAX_ATTEMPTS Primary the_request (ApiError e)).
Proof.
  intros Hsafe Hdown. unfold suggest_recipes_from_groq.
  destruct safe_inv as [|it rest] eqn:Esafe; [done|].
  destruct (attempts_api_down summarize_user_ratings_for_prompt get_spices_for_user
              normalize_ingredient_units complete user_id user_message prev_recipe
              num_recipes tags (allergies user_prefs) (it :: rest) MAX_ATTEMPTS 1 "" [] Hdown)
    as (e & ext & -> & Hp & Hr & Hs & Hlast); [done|unfold MAX_ATTEMPTS; lia|].
  exists e, ext. split; [done|]. split_and!; [done|done|lia|done].
Qed.

(** With a completion service whose JSON replies are objects, the two
    rewrites never raise their [TypeError]: the run ends at one of the
    function's own [return] statements.  (The unit normalizer is taken to
    return; what it or the printing of its result may raise is not
    modelled.) *)
Theorem object_replies_pass_the_rewrites :
  (∀ h req text v,
     complete h req = Content text → _extract_json text = Some v → is_dict v = true) →
  ∃ v, result.1 = Returned v.
Proof.
  intros Hobj. destruct suggest_trace as [[Hnone _]|[_ Htrace]].
  - unfold suggest_recipes_from_groq. rewrite Hnone. by eexists.
  - by eapply trace_returns.
Qed.

(** A first reply that extracts to a value the rewrites cannot take ends
    the run with a [TypeError], after that one call. *)
Theorem unfit_reply_raises (raw : string) (v : value) :
  safe_inv ≠ [] → complete [] the_request = Content raw →
  _extract_json raw = Some v → normalized_input_recipes v = None →
  result = (Raised "TypeError", [Call 1 Primary the_request (Content raw)]).
Proof.
  intros Hsafe Hrep Hraw Hv. unfold suggest_recipes_from_groq.
  destruct safe_inv as [|it rest] eqn:Esafe; [done|].
  change (seq 1 MAX_ATTEMPTS) with (1 :: seq 2 3). rewrite attempts_cons.
  change (requests []) with (@nil request).
  unfold attempt_body. by rewrite Hrep, Hraw, Hv.
Qed.

(** What a successful run hands to the unit normalizer: the normalized
    recipes of a reply, at most [num_recipes] of them when that is not
    negative, each a dict with a truthy title, a list of ingredients and a
    list of strings as instructions. *)
Theorem success_hands_on_shaped_recipes (uid : Z) (normalized : list value) (log : list event) :
  result = (Returned (VDict [("user_id", VInt uid); ("recipes", VList normalized)]), log) →
  uid = user_id ∧
  ∃ recipes,
    normalized = normalize_ingredient_units recipes user_id ∧
    Forall (λ r, recipe_shape r = true) recipes ∧
    ((0 ≤ num_recipes)%Z → length recipes ≤ Z.to_nat num_recipes).
Proof.
  intros Hres. destruct suggest_trace as [[Hnone _]|[_ Htrace]].
  { unfold suggest_recipes_from_groq in Hres. by rewrite Hnone in Hres. }
  apply trace_explained in Htrace as (e & _ & He); [|unfold MAX_ATTEMPTS; lia].
  rewrite Hres in He. simpl in He.
  destruct e as [n st req [text|msg]|n]; [| |done]; simpl in He.
  - destruct (_extract_json text) as [parsed|]; [|by destruct He as (_ & _ & ?)].
    destruct (normalized_input_recipes parsed) as [[|r rs]|] eqn:E; [by destruct He|..|done].
    injection He as -> ->. split; [done|].
    exists (slice_to (r :: rs) num_recipes). split; [done|].
    apply slice_to_shape. by eapply normalized_recipes_shape.
  - by destruct st, He.
Qed.

End ServiceRuns.

(** * Concrete runs

    The model run on the sample inputs. *)

#[local] Existing Instance text_float.

(** C7 (counterexample).  An object is not got back from its own text
    when a string of it holds [//] (the rest of the line is cut), [/*] with
    a [*/] after it (the string loses a part) or a fence of three
    backticks (the string loses the fence); nor from a text whose block
    comment holds [//]; nor from prose that holds braces of its own before
    it, or that stands around an object with a closing brace in a string;
    nor from a text that as a whole reads as something else. *)
Lemma url_in_object_defeats_extraction :
  json_loads (Py.q "{'source': 'http://example.org/soup'}") =
    Parsed (VDict [("source", VStr "http://example.org/soup")]) "" ∧
  _extract_json (Py.q "{'source': 'http://example.org/soup'}") = None ∧
  _extract_json (Py.q "{'hint': '/* optional */ salt'}") =
    Some (VDict [("hint", VStr " salt")]) ∧
  _extract_json (Py.q "{'hint': 'use ``` for code'}") =
    Some (VDict [("hint", VStr "use  for code")]) ∧
  _extract_json (Py.q "{'minutes': 20 /* see http://example.org */}") = None ∧
  _extract_json ("Fill in {servings} first. " +:+ soup_text) = None ∧
  _extract_json (Py.q "Here it is: {'end': '}'} Enjoy!") = None ∧
  _extract_json ("[1, " +:+ soup_text +:+ "]") = Some (VList [VInt 1; VDict soup]).
Proof. repeat split; reflexivity. Qed.

(** C7 (witness).  The recipe between fences, with a comment line before
    it, a block comment inside it and a line comment after it; and the
    recipe, with a line comment inside it, in a fenced block between
    prose. *)
Lemma extract_json_recovers_embedded_witness :
  _extract_json
    ("```json" +:+ nl +:+ "// the soup" +:+ nl +:+
     Py.q "{'title': 'Soup', /* easy */'steps': ['boil', 'serve']} // enjoy" +:+ nl +:+
     "```") = Some (VDict soup) ∧
  _extract_json
    ("Here is your recipe:" +:+ nl +:+ "```json" +:+ nl +:+
     Py.q "{'title': 'Soup', // quick" +:+ nl +:+ Py.q " 'steps': ['boil', 'serve']}" +:+ nl +:+
     "```" +:+ nl +:+ "Enjoy!") = Some (VDict soup).
Proof.
  split.
  - apply (extract_json_recovers_embedded soup_text soup); [constructor; reflexivity|].
    apply (in_comments soup_text soup (nl +:+ nl) (" " +:+ nl)
             (nl +:+ "// the soup" +:+ nl +:+
              Py.q "{'title': 'Soup', /* easy */'steps': ['boil', 'serve']} // enjoy" +:+ nl));
      [reflexivity..| |].
    + exists (nl +:+ nl +:+ Py.q "{'title': 'Soup', /* easy */'steps': ['boil', 'serve']} " +:+ nl).
      split.
      * repeat (apply bc_char; [|by intros [=]]).
        apply (bc_comment " easy "); [reflexivity..| |done].
        repeat (apply bc_char; [|by intros [=]]). apply bc_end.
      * repeat (apply lc_char; [|by intros [=]]).
        apply (lc_comment " the soup"); [reflexivity| |by right].
        repeat (apply lc_char; [|by intros [=]]).
        apply (lc_comment " enjoy"); [reflexivity| |by right].
        repeat (apply lc_char; [|by intros [=]]). apply lc_end.
    + apply (fenced_parts "" "```json"
               (nl +:+ "// the soup" +:+ nl +:+
                Py.q "{'title': 'Soup', /* easy */'steps': ['boil', 'serve']} // enjoy" +:+ nl)
               "```" ""); try done.
      * right. by left.
      * right. done.
  - apply (extract_json_recovers_embedded
             (Py.q "{'title': 'Soup', " +:+ nl +:+ Py.q " 'steps': ['boil', 'serve']}") soup);
      [constructor; reflexivity|].
    apply (in_prose _ soup ("Here is your recipe:" +:+ nl +:+ nl)
             (Py.q "{'title': 'Soup', // quick" +:+ nl +:+ Py.q " 'steps': ['boil', 'serve']}")
             (nl +:+ nl +:+ "Enjoy!")); [reflexivity| |reflexivity|by left|].
    + eexists. split; [by apply block_commented_plain|].
      repeat (apply lc_char; [|by intros [=]]).
      apply (lc_comment " quick"); [reflexivity| |by right].
      repeat (apply lc_char; [|by intros [=]]). apply lc_end.
    + apply (fenced_parts ("Here is your recipe:" +:+ nl) "```json"
               (nl +:+ Py.q "{'title': 'Soup', // quick" +:+ nl +:+
                Py.q " 'steps': ['boil', 'serve']}" +:+ nl)
               "```" (nl +:+ "Enjoy!")); try done.
      * right. by left.
      * right. done.
Defined.

(** C5 (the code at the failing input).  A plain-string item is compared
    as it is written: [Chicken] is kept under the vegetarian tag although
    its lowercased name is banned, while the structured item of the same
    name is removed. *)
Lemma capitalised_plain_name_is_kept :
  _filter_inventory
    [Plain "Chicken"; Structured [("name", VStr "Chicken")]; Plain "rice"] ["vegetarian"] =
  [Plain "Chicken"; Plain "rice"].
Proof. reflexivity. Qed.

(** C6 (counterexample).  The tag of the specification's table,
    [gluten-free] with a hyphen, is no key of the code's table: under it the
    filter keeps wheat. *)
Lemma hyphenated_gluten_tag_filters_nothing :
  _filter_inventory [Plain "wheat"; Structured [("name", VStr "Pasta")]]
    ["gluten-free"] =
  [Plain "wheat"; Structured [("name", VStr "Pasta")]].
Proof. reflexivity. Qed.

(** C6 (witness). *)
Lemma gluten_free_tag_bans_gluten_witness :
  Forall (λ it, _get_name it ∉ gluten_names)
    (_filter_inventory [Plain "wheat"; Structured [("name", VStr "Pasta")]; Plain "rice"]
       ["Gluten Free"]).
Proof.
  apply (gluten_free_tag_bans_gluten _ _ "Gluten Free"); [by left | reflexivity].
Defined.

(** C8 (witness). *)
Lemma no_safe_ingredients_no_call_witness :
  suggest_recipes_from_groq no_ratings no_spices same_units chatty
    7 [Plain "beef"; Structured [("name", VStr "Chicken")]] "dinner"
    {| dietary := [" Vegetarian "]; allergies := [] |} None 3 =
  (Returned (VDict [("error", VStr "No safe ingredients available."); ("recipes", VList [])]),
   []).
Proof. apply no_safe_ingredients_no_call. reflexivity. Defined.

(** C9 (counterexample).  A [title] that is present and empty is passed
    over: the next key gives the title, and with no other key the title is
    the default although [title] is present. *)
Lemma empty_title_is_passed_over :
  dict_has (A:=value) [("title", VStr "")] "title" = true ∧
  dict_get (merged_recipe [("title", VStr "")]) "title" = Some (VStr "Untitled recipe") ∧
  dict_get (merged_recipe [("title", VStr ""); ("name", VStr "Soup")]) "title"
    = Some (VStr "Soup").
Proof. repeat split; reflexivity. Qed.



(** C4 (counterexample).  A list of ingredients is passed through as it
    is: its entries need no [name], and need not be dicts. *)
Lemma listed_ingredients_keep_nameless_entries :
  normalized_input_recipes
    (VDict [("title", VStr "Soup");
            ("ingredients", VList [VDict [("quantity", VInt 2)]; VStr "salt"])]) =
  Some [VDict [("title", VStr "Soup");
               ("ingredients", VList [VDict [("quantity", VInt 2)]; VStr "salt"]);
               ("instructions", VList [])]].
Proof. reflexivity. Qed.

(** C4 (witness): the mapping of the specification's example. *)
Lemma normalized_ingredient_names_witness :
  ∃ input r out,
    recipes_of
      (VDict [("recipes", VList [VDict [("ingredients",
                 VDict [("flour", VStr "200 grams"); ("salt", VStr "to taste")])]])])
      = Some input ∧
    VDict r ∈ input ∧
    VDict [("ingredients",
            VList [VDict [("name", VStr "flour"); ("quantity", VFloat "200");
                          ("unit", VStr "grams")];
                   VDict [("name", VStr "salt"); ("quantity", VStr "to taste")]]);
           ("title", VStr "Untitled recipe"); ("instructions", VList [])]
      = VDict (merged_recipe r) ∧
    dict_get (merged_recipe r) "ingredients" = Some (VList out) ∧
    match get_or r "ingredients" (VList []) with
    | VList l => out = l
    | VDict d =>
        Forall2 (λ kv entry,
                   ∃ fields, entry = VDict fields ∧
                             dict_get fields "name" = Some (VStr kv.1)) d out
    | _ => out = []
    end.
Proof.
  eapply (normalized_ingredient_names
            (VDict [("recipes", VList [VDict [("ingredients",
                       VDict [("flour", VStr "200 grams"); ("salt", VStr "to taste")])]])]));
    [reflexivity | by left].
Defined.

(** C1 (the code at the failing input): the service that never answers
    with JSON. *)
Lemma unparsable_replies_use_every_attempt_witness :
  ∃ log,
    suggest_recipes_from_groq no_ratings no_spices same_units chatty
      7 [Plain "rice"] "dinner" no_preferences None 3 =
      (Returned (VDict [("error", VStr "Invalid JSON returned from Groq");
                        ("recipes", VList [])]), log) ∧
    stage_calls Primary log = MAX_ATTEMPTS ∧
    stage_calls Repair log = MAX_ATTEMPTS ∧
    length (requests log) = 2 * MAX_ATTEMPTS.
Proof.
  apply unparsable_replies_use_every_attempt.
  - discriminate.
  - intros history req. eexists. split; reflexivity.
Defined.

(** C2 (the code at the failing input).  When the last attempt fails, the
    result carries the bare description of the last error; the message
    [Groq failed after 4 attempts: ...] of the statement after the loop is
    never built. *)
Lemma exhausted_run_returns_bare_error :
  (suggest_recipes_from_groq no_ratings no_spices same_units chatty
     7 [Plain "rice"] "dinner" no_preferences None 3).1 =
  Returned (VDict [("error", VStr "Invalid JSON returned from Groq"); ("recipes", VList [])]).
Proof. reflexivity. Qed.

(** The error of an exhausted run is one an attempt recorded. *)
Lemma error_results_are_bare_witness :
  VList [] = VList [] ∧
  ("Invalid JSON returned from Groq" = "No safe ingredients available." ∨
   recorded_error "Invalid JSON returned from Groq").
Proof.
  apply (error_results_are_bare no_ratings no_spices same_units chatty
           7 [Plain "rice"] "dinner" no_preferences None 3 _ _
           (suggest_recipes_from_groq no_ratings no_spices same_units chatty
              7 [Plain "rice"] "dinner" no_preferences None 3).2).
  reflexivity.
Defined.

(** The shapes a completion may give its recipes: a single [recipe], or an
    object that is itself the recipe. *)
Lemma single_recipe_shapes :
  normalized_input_recipes (VDict [("recipe", VDict [("title", VStr "X")])]) =
    Some [VDict [("title", VStr "X"); ("ingredients", VList []); ("instructions", VList [])]] ∧
  normalized_input_recipes (VDict [("title", VStr "Y"); ("ingredients", VList [])]) =
    Some [VDict [("title", VStr "Y"); ("ingredients", VList []); ("instructions", VList [])]].
Proof. split; reflexivity. Qed.

(** ** Further runs

    The properties above at sample inputs. *)

(** A block comment that is never closed stays. *)
Lemma comments_need_both_markers_witness :
  _remove_json_comments (Py.q " {'a': 1} /* to do ") = Py.q "{'a': 1} /* to do".
Proof.
  rewrite comments_need_both_markers by reflexivity. reflexivity.
Defined.

(** A line comment at the end of the text, and one before a second line. *)
Lemma line_comment_is_cut_witness :
  _remove_json_comments (Py.q "{'a': 1, " +:+ "//" +:+ " the amount") = Py.q "{'a': 1," ∧
  _remove_json_comments (Py.q "{'a': 1, " +:+ "//" +:+ " the amount" +:+ nl +:+ Py.q "'b': 2}")
    = Py.q "{'a': 1, " +:+ nl +:+ Py.q "'b': 2}".
Proof.
  destruct (line_comment_is_cut (Py.q "{'a': 1, ") " the amount" (Py.q "'b': 2}"))
    as [-> ->]; [reflexivity..|].
  split; reflexivity.
Defined.

(** A block comment between a key and its value. *)
Lemma block_comment_is_cut_witness :
  _remove_json_comments (Py.q "{'a': " +:+ "/*" +:+ " grams * 2 " +:+ "*/" +:+ " 1}")
    = Py.q "{'a':  1}".
Proof.
  rewrite block_comment_is_cut by reflexivity. reflexivity.
Defined.

(** The first group of a text with two groups, one of them nested. *)
Lemma balanced_snippet_is_first_group_witness :
  ∃ pre post,
    "Use {a{b}c} or {d}." = pre +:+ "{a{b}c}" +:+ post ∧ free_of "{" pre = true ∧
    first_char "{a{b}c}" = Some "{"%char ∧ last_char "{a{b}c}" = Some "}"%char ∧
    count_char "{" "{a{b}c}" = count_char "}" "{a{b}c}" ∧
    ∀ p q, "{a{b}c}" = p +:+ q → p ≠ "" → q ≠ "" → count_char "}" p < count_char "{" p.
Proof. apply (balanced_snippet_is_first_group "Use {a{b}c} or {d}."). reflexivity. Defined.

(** The recipe between a line feed and blanks. *)
Lemma candidate_padding_is_ignored_witness :
  _try_parse_json_candidate (nl +:+ soup_text +:+ "  ") = _try_parse_json_candidate soup_text ∧
  _try_parse_json_candidate nl = None.
Proof. apply candidate_padding_is_ignored; reflexivity. Defined.

(** A text that reads as a list extracts to the list. *)
Lemma extract_without_backtick_witness :
  _extract_json "[1, 2]" = Some (VList [VInt 1; VInt 2]).
Proof.
  rewrite (proj2 (extract_without_backtick "[1, 2]" eq_refl) eq_refl). reflexivity.
Defined.

(** Prose with braces of its own before a fenced block: the first two
    stages fail and the block gives the recipe. *)
Lemma fenced_block_is_last_resort_witness :
  _extract_json ("Fill in {servings} first. " +:+ "```json" +:+ nl +:+ soup_text +:+ nl
                 +:+ "```" +:+ " Enjoy!") = Some (VDict soup).
Proof.
  apply (fenced_block_is_last_resort soup_text soup "Fill in {servings} first. " nl nl " Enjoy!");
    [constructor; reflexivity | reflexivity..].
Defined.

(** Tags in another case, order and number. *)
Lemma tags_count_as_a_set_witness :
  _filter_inventory [Plain "milk"; Plain "rice"] ["Vegan"; "vegan"; "KOSHER"] =
    _filter_inventory [Plain "milk"; Plain "rice"] ["kosher"; "VEGAN"] ∧
  _build_restriction_note ["Vegan"; "vegan"; "KOSHER"] =
    _build_restriction_note ["kosher"; "VEGAN"].
Proof.
  apply tags_count_as_a_set. intros tag.
  change (Py.lower <$> ["Vegan"; "vegan"; "KOSHER"]) with ["vegan"; "vegan"; "kosher"].
  change (Py.lower <$> ["kosher"; "VEGAN"]) with ["kosher"; "vegan"].
  rewrite !elem_of_cons. naive_solver.
Defined.

(** Tags the table does not hold, the hyphenated one among them. *)
Lemma unlisted_tags_filter_nothing_witness :
  _filter_inventory [Plain "pork"; Structured [("name", VStr "Wheat")]]
    ["kosher"; "Halal"; "gluten-free"] =
  [Plain "pork"; Structured [("name", VStr "Wheat")]].
Proof.
  apply unlisted_tags_filter_nothing.
  repeat constructor; intros Hin; repeat (apply elem_of_cons in Hin as [[=]|Hin]);
    by apply elem_of_nil in Hin.
Defined.

(** Both diet tags at once. *)
Lemma vegan_note_overrides_vegetarian_witness :
  _build_restriction_note ["vegetarian"; "Vegan"; "keto"] =
  _build_restriction_note ["Vegan"; "keto"].
Proof. apply vegan_note_overrides_vegetarian. by left. Defined.

(** A list of recipes at the top, a string that holds [recipe], a number. *)
Lemma non_object_gives_no_recipe_witness :
  normalized_input_recipes (VList [VDict soup]) = Some [] ∧
  normalized_input_recipes (VStr "a recipe") = None ∧
  normalized_input_recipes (VInt 42) = None.
Proof.
  split_and!.
  - by rewrite (non_object_gives_no_recipe (VList [VDict soup]) eq_refl).
  - by rewrite (non_object_gives_no_recipe (VStr "a recipe") eq_refl).
  - by rewrite (non_object_gives_no_recipe (VInt 42) eq_refl).
Defined.

(** A field of its own in the recipe. *)
Lemma merged_recipe_keeps_other_fields_witness :
  dict_get (merged_recipe (("difficulty", VStr "easy") :: soup)) "difficulty" =
  dict_get (("difficulty", VStr "easy") :: soup) "difficulty".
Proof.
  apply merged_recipe_keeps_other_fields.
  intros Hin; repeat (apply elem_of_cons in Hin as [[=]|Hin]); by apply elem_of_nil in Hin.
Defined.

(** The run with the service that never answers with JSON. *)
Lemma last_call_explains_outcome_witness :
  ∃ e,
    last (suggest_recipes_from_groq no_ratings no_spices same_units chatty
            7 [Plain "rice"] "dinner" no_preferences None 3).2 = Some e ∧
    explains same_units 7 3
      (suggest_recipes_from_groq no_ratings no_spices same_units chatty
         7 [Plain "rice"] "dinner" no_preferences None 3).1 e.
Proof. apply last_call_explains_outcome. discriminate. Defined.

(** The same run: four primary calls, three sleeps. *)
Lemma error_comes_after_every_attempt_witness :
  stage_calls Primary
    (suggest_recipes_from_groq no_ratings no_spices same_units chatty
       7 [Plain "rice"] "dinner" no_preferences None 3).2 = MAX_ATTEMPTS ∧
  sleeps
    (suggest_recipes_from_groq no_ratings no_spices same_units chatty
       7 [Plain "rice"] "dinner" no_preferences None 3).2 = MAX_ATTEMPTS - 1.
Proof.
  apply (error_comes_after_every_attempt no_ratings no_spices same_units chatty
           7 [Plain "rice"] "dinner" no_preferences None 3
           "Invalid JSON returned from Groq" (VList [])); [discriminate|reflexivity].
Defined.

(** The run with the service that is down. *)
Lemma api_down_costs_every_attempt_witness :
  ∃ e log,
    suggest_recipes_from_groq no_ratings no_spices same_units down
      7 [Plain "rice"] "dinner" no_preferences None 3 =
      (Returned (VDict [("error", VStr ("Groq API error (" +:+ e +:+ ")"));
                        ("recipes", VList [])]), log) ∧
    stage_calls Primary log = MAX_ATTEMPTS ∧ stage_calls Repair log = 0 ∧
    sleeps log = MAX_ATTEMPTS - 1 ∧
    last log = Some (Call MAX_ATTEMPTS Primary
                       (primary_request no_ratings no_spices 7 "dinner" None 3 [] []
                          [Plain "rice"])
                       (ApiError e)).
Proof.
  apply (api_down_costs_every_attempt no_ratings no_spices same_units down
           7 [Plain "rice"] "dinner" no_preferences None 3); [discriminate|].
  intros h req. by exists "timeout".
Defined.

(** The run with the service that answers with a recipe. *)
Lemma object_replies_pass_the_rewrites_witness :
  ∃ v, (suggest_recipes_from_groq no_ratings no_spices same_units helpful
          7 [Plain "rice"] "dinner" no_preferences None 3).1 = Returned v.
Proof.
  apply object_replies_pass_the_rewrites. intros h req text v [= <-].
  assert (_extract_json soup_text = Some (VDict soup)) as -> by reflexivity.
  by intros [= <-].
Defined.

(** The run with the service that answers with a number. *)
Lemma unfit_reply_raises_witness :
  suggest_recipes_from_groq no_ratings no_spices same_units terse
    7 [Plain "rice"] "dinner" no_preferences None 3 =
  (Raised "TypeError",
   [Call 1 Primary (primary_request no_ratings no_spices 7 "dinner" None 3 [] [] [Plain "rice"])
      (Content "42")]).
Proof.
  apply (unfit_reply_raises no_ratings no_spices same_units terse
           7 [Plain "rice"] "dinner" no_preferences None 3 "42" (VInt 42));
    [discriminate|reflexivity..].
Defined.

(** What the run with the recipe hands to the unit normalizer. *)
Lemma success_hands_on_shaped_recipes_witness :
  7%Z = 7%Z ∧
  ∃ recipes,
    [VDict [("title", VStr "Soup"); ("steps", VList [VStr "boil"; VStr "serve"]);
            ("ingredients", VList []);
            ("instructions", VList [VStr "boil"; VStr "serve"])]]
      = same_units recipes 7 ∧
    Forall (λ r, recipe_shape r = true) recipes ∧
    ((0 ≤ 3)%Z → length recipes ≤ Z.to_nat 3).
Proof.
  apply (success_hands_on_shaped_recipes no_ratings no_spices same_units helpful
           7 [Plain "rice"] "dinner" no_preferences None 3 7 _
           (suggest_recipes_from_groq no_ratings no_spices same_units helpful
              7 [Plain "rice"] "dinner" no_preferences None 3).2).
  reflexivity.
Defined.
